(** * SparseComputation: grid-based sparsification of a reduced dataset

    Shallow embedding of [src/SparseComputation/SparseComputation.py], run by
    Python 3 with numpy on a 64-bit platform.

    Modelling conventions.
    - A two-dimensional [numpy.ndarray] is a list of rows; a row is a list of
      cells.  A dataset is an array of dtype float64 whose cells are finite:
      a cell is the rational number ([Q]) that the float64 denotes, and the
      comparison of two cells is the comparison of these numbers.  Datasets
      of another dtype, and cells that are infinite or not a number, are
      outside the model.
    - The arithmetic on cells is numpy's: a subtraction, division or product
      is rounded to the nearest float64 (ties to even), overflows to an
      infinity, and never raises; a division by zero gives an infinity or
      not-a-number.  The rounding and the operations are the Standard
      Library's specification of IEEE 754 binary64 ([SpecFloat], precision
      53, [emax] 1024).  [int] truncates towards zero, raises [ValueError] on
      not-a-number and [OverflowError] on an infinity.
    - Python integers are unbounded ([Z]); row indices are natural numbers.
    - A Python exception is a value of [exn]; a call that can raise returns a
      [result].  Indexing out of range raises [IndexError].
    - An argument that is tested with [isinstance(_, np.ndarray)] is a
      [pyobj]: either an array or something else.
    - An array of integers carries its [dtype].  [np.array] applied to lists
      of Python integers gives an array of dtype int64 when every cell fits
      in 64 signed bits, and of dtype object only when some cell fits
      neither in 64 signed nor in 64 unsigned bits.  The cells of an object
      array are the Python integers themselves; the cells of any other array
      are numpy scalars, for which [isinstance(_, int)] is false.
    - A [dict] is an association list in insertion order, which is the order
      in which a Python dictionary is iterated; the properties proved about
      the returned pairs are stated on membership, not on positions.  The
      loop [for box_id in boxes_dict] of [_get_pairs] runs over the entries
      [(box_id, boxes_dict[box_id])]; the test [id in boxes_dict] followed by
      [boxes_dict[id]] is one lookup. *)

From Stdlib Require Import ZArith QArith Qround Qpower Lia Lqa List Sorted
  SpecFloat.
From stdpp Require Import base list.
Import ListNotations.

Local Open Scope Z_scope.

(** ** Exceptions and results *)

Inductive exn : Type :=
| TypeError
| ValueError
| IndexError
| KeyError
| ZeroDivisionError
| OverflowError.

Inductive result (A : Type) : Type :=
| Ok (a : A)
| Raise (e : exn).

Arguments Ok {A} a.
Arguments Raise {A} e.

#[global] Instance result_ret : MRet result := fun _ a => Ok a.
#[global] Instance result_bind : MBind result := fun _ _ f m =>
  match m with
  | Ok a => f a
  | Raise e => Raise e
  end.

(** [for x in l: acc = body x acc], stopping at the first exception. *)
Fixpoint for_each {A B : Type} (l : list B) (acc : A)
    (body : B -> A -> result A) : result A :=
  match l with
  | [] => Ok acc
  | x :: l' => acc' ← body x acc; for_each l' acc' body
  end.

Definition exn_eqb (e e' : exn) : bool :=
  match e, e' with
  | TypeError, TypeError | ValueError, ValueError
  | IndexError, IndexError | KeyError, KeyError
  | ZeroDivisionError, ZeroDivisionError
  | OverflowError, OverflowError => true
  | _, _ => false
  end.

(** [try: body except e: handler] *)
Definition try_except {A : Type} (body : result A) (e : exn)
    (handler : result A) : result A :=
  match body with
  | Ok a => Ok a
  | Raise e' => if exn_eqb e e' then handler else Raise e'
  end.

(** ** Python primitives *)

Inductive pyobj (A : Type) : Type :=
| ndarray (a : A)
| other.

Arguments ndarray {A} a.
Arguments other {A}.

(** [if not isinstance(x, np.ndarray): raise TypeError] *)
Definition expect_ndarray {A : Type} (x : pyobj A) : result A :=
  match x with
  | ndarray a => Ok a
  | other => Raise TypeError
  end.

(** [l[i]] *)
Definition index {A : Type} (l : list A) (i : nat) : result A :=
  match l !! i with
  | Some x => Ok x
  | None => Raise IndexError
  end.

(** [range(lo, hi)] on integers. *)
Definition range (lo hi : Z) : list Z :=
  map (fun i => lo + Z.of_nat i) (seq 0 (Z.to_nat (hi - lo))).

(** [x < y] on cells. *)
Definition Qltb (x y : Q) : bool := negb (Qle_bool y x).

(** ** Floating-point arithmetic *)

(** Precision and exponent bound of binary64. *)
Definition prec : Z := 53.
Definition emax : Z := 1024.

(** The float64 nearest to a rational number, ties to even: the quotient of
    the numerator by the denominator, rounded once.  A number too large in
    magnitude gives an infinity. *)
Definition float_of_Q (q : Q) : spec_float :=
  match Qnum q with
  | Z0 => S754_zero false
  | Zpos n =>
      let '(mz, ez, lz) :=
        SFdiv_core_binary prec emax (Zpos n) 0 (Zpos (Qden q)) 0 in
      binary_round_aux prec emax false mz ez lz
  | Zneg n =>
      let '(mz, ez, lz) :=
        SFdiv_core_binary prec emax (Zpos n) 0 (Zpos (Qden q)) 0 in
      binary_round_aux prec emax true mz ez lz
  end.

(** [float(n)] on a Python integer. *)
Definition py_float (n : Z) : result spec_float :=
  match float_of_Q (inject_Z n) with
  | S754_infinity _ => Raise OverflowError
  | x => Ok x
  end.

(** [x - y] on two cells of a float64 array: the exact difference, rounded. *)
Definition np_sub (x y : Q) : spec_float := float_of_Q (x - y).

(** [x / y] where [y] is a float64 scalar of numpy: no exception. *)
Definition np_div (x y : spec_float) : spec_float := SFdiv prec emax x y.

(** [x * y] on float64 scalars. *)
Definition np_mul (x y : spec_float) : spec_float := SFmul prec emax x y.

(** The integer part of the float with mantissa [m] and exponent [e]. *)
Definition truncate (m : positive) (e : Z) : Z :=
  match e with
  | Z0 => Zpos m
  | Zpos _ => Z.shiftl (Zpos m) e
  | Zneg p => Z.shiftr (Zpos m) (Zpos p)
  end.

(** [int(x)] on a float: truncation towards zero. *)
Definition py_int (x : spec_float) : result Z :=
  match x with
  | S754_zero _ => Ok 0
  | S754_finite s m e => Ok (if s then - truncate m e else truncate m e)
  | S754_infinity _ => Raise OverflowError
  | S754_nan => Raise ValueError
  end.

(** ** Arrays of integers *)

Inductive dtype : Type :=
| int64
| uint64
| float64
| object.

(** [isinstance(array[0], int)] on a cell of an array of that dtype. *)
Definition python_ints (dt : dtype) : bool :=
  match dt with
  | object => true
  | _ => false
  end.

(** The dtype that [np.array] gives to lists of Python integers. *)
Definition np_dtype (rows : list (list Z)) : dtype :=
  let cells := concat rows in
  match cells with
  | [] => float64
  | _ =>
      if forallb (fun z => (- 2 ^ 63 <=? z) && (z <? 2 ^ 63)) cells then int64
      else if forallb (fun z => (0 <=? z) && (z <? 2 ^ 64)) cells then uint64
      else if forallb (fun z => (- 2 ^ 63 <=? z) && (z <? 2 ^ 64)) cells
      then float64
      else object
  end.

(** The integer that a cell holds once stored as a float64. *)
Definition as_float64 (z : Z) : Z :=
  match float_of_Q (inject_Z z) with
  | S754_finite s m e => if s then - truncate m e else truncate m e
  | _ => 0
  end.

(** [np.array(rows)] on lists, of one length, of Python integers. *)
Definition np_array (rows : list (list Z)) : dtype * list (list Z) :=
  match np_dtype rows with
  | float64 => (float64, map (map as_float64) rows)
  | dt => (dt, rows)
  end.

(** [itertools.product(xs, repeat=n)], in the order it is generated. *)
Fixpoint product_repeat {A : Type} (xs : list A) (n : nat) : list (list A) :=
  match n with
  | O => [[]]
  | S n' => flat_map (fun x => map (cons x) (product_repeat xs n')) xs
  end.

(** [itertools.product(xs, ys)] *)
Definition product {A B : Type} (xs : list A) (ys : list B) : list (A * B) :=
  flat_map (fun a => map (pair a) ys) xs.

(** ** Dictionaries from box ids to lists of row indices *)

Definition dict : Type := list (Z * list nat).

(** [d[k]] when [k in d] *)
Fixpoint dict_get (d : dict) (k : Z) : option (list nat) :=
  match d with
  | [] => None
  | (k', v) :: d' => if Z.eqb k' k then Some v else dict_get d' k
  end.

(** [k in d] *)
Definition dict_mem (k : Z) (d : dict) : bool :=
  match dict_get d k with
  | Some _ => true
  | None => false
  end.

(** [d[k] = v]: replaces the value of an existing key in place, appends a new
    key at the end. *)
Fixpoint dict_set (d : dict) (k : Z) (v : list nat) : dict :=
  match d with
  | [] => [(k, v)]
  | (k', v') :: d' =>
      if Z.eqb k' k then (k', v) :: d' else (k', v') :: dict_set d' k v
  end.

(** [d[k].append(i)] *)
Definition dict_append (d : dict) (k : Z) (i : nat) : result dict :=
  match dict_get d k with
  | Some v => Ok (dict_set d k (v ++ [i]))
  | None => Raise KeyError
  end.

(** ** The class *)

Abbreviation matrix := (list (list Q)).
Abbreviation grid := (list (list Z)).

Record DimReducer : Type := {
  fit_transform : pyobj matrix -> result (pyobj matrix)
}.

Record SparseComputation : Type := {
  dimReducer : DimReducer;
  gridResolution : Z
}.

(** [SparseComputation(dimReducer, gridResolution)] for an integer
    [gridResolution]. *)
Definition __init__ (dimReducer : DimReducer) (gridResolution : Z)
    : result SparseComputation :=
  if gridResolution <? 1 then Raise ValueError
  else Ok {| dimReducer := dimReducer; gridResolution := gridResolution |}.

Section Methods.

Variable self : SparseComputation.

Definition _get_min (data : pyobj matrix) : result (list Q) :=
  data ← expect_ndarray data;
  row0 ← index data 0;
  let n := length row0 in
  let minimum := row0 in
  for_each data minimum (fun vec minimum =>
    for_each (seq 0 n) minimum (fun i minimum =>
      x ← index vec i;
      m ← index minimum i;
      if Qltb x m then Ok (<[i := x]> minimum) else Ok minimum)).

Definition _get_max (data : pyobj matrix) : result (list Q) :=
  data ← expect_ndarray data;
  row0 ← index data 0;
  let n := length row0 in
  let maximum := row0 in
  for_each data maximum (fun vec maximum =>
    for_each (seq 0 n) maximum (fun i maximum =>
      x ← index vec i;
      m ← index maximum i;
      if Qltb m x then Ok (<[i := x]> maximum) else Ok maximum)).

(** The first loop of [_rescale_data]: the scale factor of every axis.  The
    divisor is a scalar of numpy, so the division does not raise and the
    handler, kept here as it is written, has nothing to catch. *)
Definition _rescale_coef (maximum minimum : list Q) (n : nat)
    : result (list spec_float) :=
  for_each (seq 0 n) [] (fun i coef =>
    try_except
      (r ← py_float (gridResolution self);
       M ← index maximum i;
       m ← index minimum i;
       let toAppend := np_div r (np_sub M m) in
       Ok (coef ++ [toAppend]))
      ZeroDivisionError
      (Ok (coef ++ [S754_zero false]))).

Definition _rescale_data (data : pyobj matrix) : result (dtype * grid) :=
  rows ← expect_ndarray data;
  row0 ← index rows 0;
  let n := length row0 in
  maximum ← _get_max data;
  minimum ← _get_min data;
  coef ← _rescale_coef maximum minimum n;
  rescaled_data ← for_each rows [] (fun vec rescaled_data =>
    rescaled_vec ← for_each (seq 0 n) [] (fun i rescaled_vec =>
      x ← index vec i;
      m ← index minimum i;
      c ← index coef i;
      b ← py_int (np_mul (np_sub x m) c);
      Ok (rescaled_vec ++ [Z.min b (gridResolution self - 1)]));
    Ok (rescaled_data ++ [rescaled_vec]));
  Ok (np_array rescaled_data).

(** [for i in range(len(v)): acc += v[i] * gridResolution**i], from
    position [i] on. *)
Fixpoint radix_add (i : nat) (v : list Z) (acc : Z) : Z :=
  match v with
  | [] => acc
  | x :: v' => radix_add (S i) v' (acc + x * gridResolution self ^ Z.of_nat i)
  end.

Definition _index_to_boxe_id (array : pyobj (dtype * list Z)) : result Z :=
  '(dt, array) ← expect_ndarray array;
  _ ← index array 0;
  if negb (python_ints dt) then Raise TypeError else
  Ok (radix_add 0 array 0).

(** [data[i]] is a view of row [i]: an array of the dtype of [data]. *)
Definition _get_boxes (data : pyobj (dtype * grid)) : result dict :=
  '(dt, data) ← expect_ndarray data;
  row0 ← index data 0;
  for_each (seq 0 (length data)) [] (fun i result =>
    vec ← index data i;
    box_id ← _index_to_boxe_id (ndarray (dt, vec));
    let result :=
      if negb (dict_mem box_id result) then dict_set result box_id []
      else result in
    dict_append result box_id i).

(** [(a, b) in pairs] *)
Definition pair_mem (p : nat * nat) (pairs : list (nat * nat)) : bool :=
  existsb (fun q => Nat.eqb (fst p) (fst q) && Nat.eqb (snd p) (snd q)) pairs.

(** The body of the innermost loop of [_get_pairs]. *)
Definition emit (p : nat * nat) (pairs : list (nat * nat))
    : list (nat * nat) :=
  let '(a, b) := p in
  if Nat.ltb a b && negb (pair_mem (a, b) pairs) then pairs ++ [(a, b)]
  else pairs.

Definition _get_pairs (data : pyobj matrix) : result (list (nat * nat)) :=
  rows ← expect_ndarray data;
  row0 ← index rows 0;
  if (3 <? length row0)%nat then Raise ValueError else
  let n := length row0 in
  rescaled_data ← _rescale_data data;
  boxes_dict ← _get_boxes (ndarray rescaled_data);
  for_each boxes_dict [] (fun '(box_id, members) pairs =>
    for_each (product_repeat (range (-1) 2) n) pairs (fun increment pairs =>
      let id_incremented := radix_add 0 increment box_id in
      match dict_get boxes_dict id_incremented with
      | Some neighbours =>
          for_each (product members neighbours) pairs (fun p pairs =>
            Ok (emit p pairs))
      | None => Ok pairs
      end)).

Definition get_similar_indices (data : pyobj matrix)
    : result (list (nat * nat)) :=
  _ ← expect_ndarray data;
  reduced_data ← fit_transform (dimReducer self) data;
  _get_pairs reduced_data.

End Methods.


(** ** The same methods on arrays in memory

    The functional methods above return fresh values by construction.  To
    state what a call does to the array it is given, the methods are run
    here on a store of array objects.  An object of the store is the buffer
    of a two-dimensional array; [data[j]] is a [view] of row [j] that shares
    the buffer ([np.copy] is what allocates a new one), and an assignment
    [minimum[i] = x] writes through the view.  Python lists and dictionaries
    built by the methods are local to the call and stay values. *)

Module Stateful.

Abbreviation heap A := (list (list (list A))).

(** Arrays of floats, and arrays of integers with their dtype. *)
Record store : Type := {
  floats : heap Q;
  ints : list (dtype * list (list Z))
}.

(** The cells of the arrays of integers. *)
Definition int_cells (h : store) : heap Z := snd <$> ints h.

(** [data[j]]: row [row] of the object [obj]. *)
Record view : Type := {
  obj : nat;
  row : nat
}.

(** A computation on the store; the store survives an exception. *)
Definition M (A : Type) : Type := store -> result A * store.

#[global] Instance M_ret : MRet M := fun _ a h => (Ok a, h).
#[global] Instance M_bind : MBind M := fun _ _ f m h =>
  match m h with
  | (Ok a, h') => f a h'
  | (Raise e, h') => (Raise e, h')
  end.

Definition raise {A : Type} (e : exn) : M A := fun h => (Raise e, h).

(** A computation that does not touch the store. *)
Definition lift {A : Type} (r : result A) : M A := fun h => (r, h).

Definition try_except {A : Type} (body : M A) (e : exn) (handler : M A)
    : M A :=
  fun h =>
    match body h with
    | (Ok a, h') => (Ok a, h')
    | (Raise e', h') => if exn_eqb e e' then handler h' else (Raise e', h')
    end.

Fixpoint for_each {A B : Type} (l : list B) (acc : A)
    (body : B -> A -> M A) : M A :=
  match l with
  | [] => mret acc
  | x :: l' => acc' ← body x acc; for_each l' acc' body
  end.

(** The cells that a view denotes in a heap. *)
Definition cells {A : Type} (hp : heap A) (v : view) : option (list A) :=
  a ← hp !! obj v; a !! row v.

(** [data[j]] on the array object [d] of the heap [field]. *)
Definition getitem {A : Type} (field : store -> heap A) (d j : nat)
    : M view :=
  fun h =>
    match cells (field h) {| obj := d; row := j |} with
    | Some _ => (Ok {| obj := d; row := j |}, h)
    | None => (Raise IndexError, h)
    end.

(** [len(data)] *)
Definition len2 {A : Type} (field : store -> heap A) (d : nat) : M nat :=
  fun h =>
    match field h !! d with
    | Some a => (Ok (length a), h)
    | None => (Raise IndexError, h)
    end.

(** [len(vec)] *)
Definition len {A : Type} (field : store -> heap A) (v : view) : M nat :=
  fun h =>
    match cells (field h) v with
    | Some r => (Ok (length r), h)
    | None => (Raise IndexError, h)
    end.

(** The views that [for vec in data] runs over. *)
Definition iter {A : Type} (field : store -> heap A) (d : nat)
    : M (list view) :=
  n ← len2 field d;
  mret ((fun j => {| obj := d; row := j |}) <$> seq 0 n).

(** [vec[i]] *)
Definition read {A : Type} (field : store -> heap A) (v : view) (i : nat)
    : M A :=
  fun h =>
    match r ← cells (field h) v; r !! i with
    | Some x => (Ok x, h)
    | None => (Raise IndexError, h)
    end.

(** [vec[i] = x] on an array of floats. *)
Definition write (v : view) (i : nat) (x : Q) : M unit :=
  fun h =>
    match r ← cells (floats h) v; r !! i with
    | Some _ =>
        (Ok tt,
         {| floats := alter (alter (<[i := x]>) (row v)) (obj v) (floats h);
            ints := ints h |})
    | None => (Raise IndexError, h)
    end.

(** [np.copy(vec)]: a new object with the cells of the view. *)
Definition copy (v : view) : M view :=
  fun h =>
    match cells (floats h) v with
    | Some r =>
        (Ok {| obj := length (floats h); row := 0 |},
         {| floats := floats h ++ [[r]]; ints := ints h |})
    | None => (Raise IndexError, h)
    end.

(** [np.array(rows)] for a list of lists of integers: a new object. *)
Definition array (rows : list (list Z)) : M nat :=
  fun h =>
    (Ok (length (ints h)),
     {| floats := floats h; ints := ints h ++ [np_array rows] |}).

(** The dtype of the array of integers [d]. *)
Definition dtype_of (d : nat) : M dtype :=
  fun h =>
    match ints h !! d with
    | Some (dt, _) => (Ok dt, h)
    | None => (Raise IndexError, h)
    end.

(** An argument: an array object of the store or something else. *)
Definition expect_ndarray (x : pyobj nat) : M nat :=
  match x with
  | ndarray d => mret d
  | other => raise TypeError
  end.

Section Methods.

Variable self : SparseComputation.

Definition _get_min (data : pyobj nat) : M view :=
  d ← expect_ndarray data;
  row0 ← getitem floats d 0;
  n ← len floats row0;
  row0 ← getitem floats d 0;
  minimum ← copy row0;
  vecs ← iter floats d;
  _ ← for_each vecs tt (fun vec _ =>
    for_each (seq 0 n) tt (fun i _ =>
      x ← read floats vec i;
      m ← read floats minimum i;
      if Qltb x m then write minimum i x else mret tt));
  mret minimum.

Definition _get_max (data : pyobj nat) : M view :=
  d ← expect_ndarray data;
  row0 ← getitem floats d 0;
  n ← len floats row0;
  row0 ← getitem floats d 0;
  maximum ← copy row0;
  vecs ← iter floats d;
  _ ← for_each vecs tt (fun vec _ =>
    for_each (seq 0 n) tt (fun i _ =>
      x ← read floats vec i;
      m ← read floats maximum i;
      if Qltb m x then write maximum i x else mret tt));
  mret maximum.

Definition _rescale_data (data : pyobj nat) : M nat :=
  d ← expect_ndarray data;
  row0 ← getitem floats d 0;
  n ← len floats row0;
  maximum ← _get_max data;
  minimum ← _get_min data;
  coef ← for_each (seq 0 n) [] (fun i coef =>
    try_except
      (r ← lift (py_float (gridResolution self));
       M ← read floats maximum i;
       m ← read floats minimum i;
       let toAppend := np_div r (np_sub M m) in
       mret (coef ++ [toAppend]))
      ZeroDivisionError
      (mret (coef ++ [S754_zero false])));
  vecs ← iter floats d;
  rescaled_data ← for_each vecs [] (fun vec rescaled_data =>
    rescaled_vec ← for_each (seq 0 n) [] (fun i rescaled_vec =>
      x ← read floats vec i;
      m ← read floats minimum i;
      c ← lift (index coef i);
      b ← lift (py_int (np_mul (np_sub x m) c));
      mret (rescaled_vec ++ [Z.min b (gridResolution self - 1)]));
    mret (rescaled_data ++ [rescaled_vec]));
  array rescaled_data.

Definition _index_to_boxe_id (array : view) : M Z :=
  _ ← read int_cells array 0;
  dt ← dtype_of (obj array);
  if negb (python_ints dt) then raise TypeError else
  n ← len int_cells array;
  for_each (seq 0 n) 0 (fun i result =>
    x ← read int_cells array i;
    mret (result + x * gridResolution self ^ Z.of_nat i)).

Definition _get_boxes (data : pyobj nat) : M dict :=
  d ← expect_ndarray data;
  row0 ← getitem int_cells d 0;
  n ← len int_cells row0;
  rows ← len2 int_cells d;
  for_each (seq 0 rows) [] (fun i result =>
    vec ← getitem int_cells d i;
    box_id ← _index_to_boxe_id vec;
    let result :=
      if negb (dict_mem box_id result) then dict_set result box_id []
      else result in
    lift (dict_append result box_id i)).

Definition _get_pairs (data : pyobj nat) : M (list (nat * nat)) :=
  d ← expect_ndarray data;
  row0 ← getitem floats d 0;
  k ← len floats row0;
  if (3 <? k)%nat then raise ValueError else
  row0 ← getitem floats d 0;
  n ← len floats row0;
  rescaled_data ← _rescale_data data;
  boxes_dict ← _get_boxes (ndarray rescaled_data);
  for_each boxes_dict [] (fun '(box_id, members) pairs =>
    for_each (product_repeat (range (-1) 2) n) pairs (fun increment pairs =>
      let id_incremented := radix_add self 0 increment box_id in
      match dict_get boxes_dict id_incremented with
      | Some neighbours =>
          for_each (product members neighbours) pairs (fun p pairs =>
            mret (emit p pairs))
      | None => mret pairs
      end)).

End Methods.

(** Every array object of [h] is, cell for cell, an object of [h']. *)
Definition unchanged (h h' : store) : Prop :=
  (forall o a, floats h !! o = Some a -> floats h' !! o = Some a)
  /\ (forall o a, ints h !! o = Some a -> ints h' !! o = Some a).

(** A computation keeps the invariant [I] of the store, whether it returns
    or raises, and the value it returns satisfies [P]. *)
Definition spec {A : Type} (I : store -> Prop) (m : M A) (P : A -> Prop)
    : Prop :=
  forall h, I h -> I (m h).2 /\ forall a, (m h).1 = Ok a -> P a.

(** The array objects of [h0] are unchanged, and new objects were only
    added after them. *)
Definition frame (h0 h : store) : Prop :=
  unchanged h0 h /\ (length (floats h0) <= length (floats h))%nat.

(** In the store [h] the computation [m] only reads, and its outcome is
    [r]. *)
Definition reads_as {A : Type} (m : M A) (r : result A) (h : store) : Prop :=
  m h = (r, h).

(** The store [h] with one more array of floats holding the row [r]. *)
Definition with_row (h : store) (r : list Q) : store :=
  {| floats := floats h ++ [[r]]; ints := ints h |}.

(** The store [h] with one more array of integers. *)
Definition with_grid (h : store) (g : dtype * list (list Z)) : store :=
  {| floats := floats h; ints := ints h ++ [g] |}.

(** The views of the rows of the object [d] when it has [n] rows. *)
Definition views (d n : nat) : list view :=
  (fun j => {| obj := d; row := j |}) <$> seq 0 n.

(** The computation [m] run in [h] has the outcome [r] of the functional
    method: it raises the same exception, or it returns a value and a store
    that [R] relates to the value of [r]. *)
Definition refines {A A' : Type} (R : A -> A' -> store -> Prop) (m : M A')
    (r : result A) (h : store) : Prop :=
  match r with
  | Ok a => exists a' h', m h = (Ok a', h') /\ R a a' h'
  | Raise e => (m h).1 = Raise e
  end.

(** The loop shared by [_get_min] and [_get_max]. *)
Definition scan (better : Q -> Q -> bool) (data : pyobj nat) : M view :=
  d ← expect_ndarray data;
  row0 ← getitem floats d 0;
  n ← len floats row0;
  row0 ← getitem floats d 0;
  bound ← copy row0;
  vecs ← iter floats d;
  _ ← for_each vecs tt (fun vec _ =>
    for_each (seq 0 n) tt (fun i _ =>
      x ← read floats vec i;
      m ← read floats bound i;
      if better x m then write bound i x else mret tt));
  mret bound.

End Stateful.

(** Instances used in the examples: the reducer that returns its argument,
    with resolution 4, with resolution 1 and with resolution 2^70, and the
    five rows of the scenario. *)
Definition sc4 : SparseComputation :=
  {| dimReducer := {| fit_transform := Ok |}; gridResolution := 4 |}.

Definition sc1 : SparseComputation :=
  {| dimReducer := {| fit_transform := Ok |}; gridResolution := 1 |}.

Definition sc_wide : SparseComputation :=
  {| dimReducer := {| fit_transform := Ok |}; gridResolution := 2 ^ 70 |}.

Definition five_rows : matrix := [[0%Q]; [1%Q]; [2%Q]; [3%Q]; [10%Q]].

(** Four rows on one axis that spans 2^70: with resolution 2^70 the scale
    factor is 1 and the last row falls in the bin 2^70 - 1. *)
Definition wide_rows : matrix :=
  [[0%Q]; [1%Q]; [2%Q]; [inject_Z (2 ^ 70)]].

(** ** Specification vocabulary *)

(** Every row has [n] cells, as in a two-dimensional array of shape
    [(len rows, n)]. *)
Definition rectangular {A : Type} (n : nat) (rows : list (list A)) : Prop :=
  Forall (fun row => length row = n) rows.

(** The loop shared by [_get_min] and [_get_max]: [better x m] decides
    whether the cell [x] replaces the recorded bound [m]. *)
Definition scan (better : Q -> Q -> bool) (data : pyobj matrix)
    : result (list Q) :=
  data ← expect_ndarray data;
  row0 ← index data 0;
  let n := length row0 in
  let bound := row0 in
  for_each data bound (fun vec bound =>
    for_each (seq 0 n) bound (fun i bound =>
      x ← index vec i;
      m ← index bound i;
      if better x m then Ok (<[i := x]> bound) else Ok bound)).

(** [bound] has one cell per axis, every cell is a cell of that axis of some
    row of [rows], and it is extremal for [le] among the rows [seen]. *)
Definition scanned (le : Q -> Q -> Prop) (rows seen : matrix) (n : nat)
    (bound : list Q) : Prop :=
  length bound = n /\
  forall i m, bound !! i = Some m ->
    (exists vec, vec ∈ rows /\ vec !! i = Some m) /\
    (forall vec x, vec ∈ seen -> vec !! i = Some x -> le m x).

(** The scale factor of an axis with recorded bounds [M] and [m], for the
    resolution [R] as a float: [R / (M - m)] in float64. *)
Definition scale (R : spec_float) (M m : Q) : spec_float :=
  np_div R (np_sub M m).

(** The product that is truncated to the bin of a cell [x], on an axis with
    minimum [m] and scale factor [c]: [(x - m) * c] in float64. *)
Definition position (m : Q) (c : spec_float) (x : Q) : spec_float :=
  np_mul (np_sub x m) c.

(** The bin of a cell [x] on an axis with minimum [m] and scale factor [c],
    when there is one. *)
Definition bin (r : Z) (m : Q) (c : spec_float) (x : Q) : result Z :=
  b ← py_int (position m c x); Ok (Z.min b (r - 1)).

(** The sign bit of a float is clear, or the float is not a number. *)
Definition unsigned (x : spec_float) : Prop :=
  match x with
  | S754_zero s | S754_infinity s | S754_finite s _ _ => s = false
  | S754_nan => True
  end.


(** Iteration [i] of the first loop of [_rescale_data]: the scale factor of
    axis [i]. *)
Definition coef_of (self : SparseComputation) (maximum minimum : list Q)
    (i : nat) : result spec_float :=
  R ← py_float (gridResolution self);
  M ← index maximum i;
  m ← index minimum i;
  Ok (scale R M m).

(** Iteration [i] of the inner loop of [_rescale_data] on the row [vec]. *)
Definition cell_of (self : SparseComputation) (minimum : list Q)
    (coef : list spec_float) (vec : list Q) (i : nat) : result Z :=
  x ← index vec i;
  m ← index minimum i;
  c ← index coef i;
  bin (gridResolution self) m c x.

(** The box id of a rescaled row, as [_index_to_boxe_id] computes it. *)
Definition box_id (self : SparseComputation) (row : list Z) : Z :=
  radix_add self 0 row 0.

(** [has_id self g k i]: row [i] of the rescaled matrix [g] has box id [k]. *)
Definition has_id (self : SparseComputation) (g : grid) (k : Z) (i : nat)
    : bool :=
  match g !! i with
  | Some row => Z.eqb (box_id self row) k
  | None => false
  end.

(** The value of key [k] in the dictionary of boxes once the rows [seen]
    have been bucketed: the rows with box id [k], in the order they were
    seen, when there is one. *)
Definition bucket (self : SparseComputation) (g : grid) (seen : list nat)
    (k : Z) : option (list nat) :=
  match List.filter (has_id self g k) seen with
  | [] => None
  | v => Some v
  end.

(** The dictionary of boxes after the rows [seen]: its keys are distinct and
    every lookup is the bucket of that key. *)
Definition bucketed (self : SparseComputation) (g : grid) (seen : list nat)
    (boxes : dict) : Prop :=
  NoDup boxes.*1 /\ forall k, dict_get boxes k = bucket self g seen k.

(** The pairs that the loops of [_get_pairs] visit, in the order they are
    visited. *)
Definition candidates (self : SparseComputation) (boxes_dict : dict)
    (n : nat) : list (nat * nat) :=
  flat_map (fun '(box_id, members) =>
    flat_map (fun increment =>
      match dict_get boxes_dict (radix_add self 0 increment box_id) with
      | Some neighbours => product members neighbours
      | None => []
      end) (product_repeat (range (-1) 2) n)) boxes_dict.

(** The innermost loop body of [_get_pairs] run over a list of pairs. *)
Definition emit_all (cs : list (nat * nat)) (pairs : list (nat * nat))
    : list (nat * nat) :=
  fold_left (fun pairs p => emit p pairs) cs pairs.

(** Smaller index first, and no pair twice. *)
Definition ordered_unique (pairs : list (nat * nat)) : Prop :=
  Forall (fun p => (p.1 < p.2)%nat) pairs /\ NoDup pairs.

(** The rescaled coordinates of two rows differ by at most 1 on every
    axis. *)
Definition adjacent (ra rb : list Z) : Prop :=
  forall i x y, ra !! i = Some x -> rb !! i = Some y -> Z.abs (x - y) <= 1.


(** Every coordinate of a rescaled row is a bin of a grid with [r] bins per
    axis. *)
Definition in_grid (r : Z) (row : list Z) : Prop :=
  Forall (fun x => 0 <= x < r) row.

(** The pairs (a, b) with a < b < n, the comparisons of an exhaustive
    pairwise scan of [n] rows. *)
Definition all_pairs (n : nat) : list (nat * nat) :=
  flat_map (fun b => map (fun a => (a, b)) (seq 0 b)) (seq 0 n).

(** ** The dimension reducers

    Shallow embedding of [src/sparsecomputation/dimreducer.py]: the class
    [PCA], and of the class [ApproximatePCA] the constructor and the two
    vectors of weights.  The decomposition itself is the library's
    ([sklearn.decomposition.PCA]); it is a variable of the section.  As for
    [gridResolution], the arguments tested with [isinstance(_, int)] or
    [isinstance(_, float)] are numbers.  The division of an array by a number
    does not raise: on a zero divisor it gives cells that are not finite
    numbers, each written [None]. *)

(** What a method hands back with [return]: a value, or an exception object
    that is returned and not raised. *)
Inductive returned (A : Type) : Type :=
| value (a : A)
| exception_object (e : exn).

Arguments value {A} a.
Arguments exception_object {A} e.

Module PCA.

Record t : Type := { dimLow : Z }.

(** [PCA(dimLow)] for an integer [dimLow]. *)
Definition __init__ (dimLow : Z) : result t :=
  if dimLow <? 1 then Raise ValueError else Ok {| dimLow := dimLow |}.

Section Methods.

(** [sklearn.decomposition.PCA(n_components=n).fit_transform(data)] *)
Variable sklearn_fit_transform : Z -> matrix -> result matrix.

Variable self : t.

Definition fit_transform (data : pyobj matrix) : result (pyobj matrix) :=
  rows ← expect_ndarray data;
  row0 ← index rows 0;
  if Z.of_nat (length row0) <? dimLow self then Raise ValueError else
  reducedData ← sklearn_fit_transform (dimLow self) rows;
  Ok (ndarray reducedData).

(** [PCA] is a subclass of [DimReducer]. *)
Definition as_DimReducer : DimReducer := Build_DimReducer fit_transform.

End Methods.

End PCA.

Module ApproximatePCA.

Record t : Type := {
  dimLow : Z;
  fracRow : Q;
  fracCol : Q;
  minRow : Z;
  minCol : Z
}.

(** The body of [__init__].  Each guard ends in [return], not [raise];
    [value self] is the body run to its end, with the attributes of [self]
    assigned. *)
Definition __init__ (dimLow : Z) (fracRow fracCol : Q) (minRow minCol : Z)
    : returned t :=
  if dimLow <? 1 then exception_object ValueError else
  if Qle_bool fracRow 0 || Qltb 1 fracRow then exception_object ValueError else
  if Qle_bool fracCol 0 || Qltb 1 fracCol then exception_object ValueError else
  if minRow <=? 0 then exception_object ValueError else
  if minCol <=? 0 then exception_object ValueError else
  value {| dimLow := dimLow; fracRow := fracRow; fracCol := fracCol;
           minRow := minRow; minCol := minCol |}.

(** [ApproximatePCA(dimLow, fracRow, fracCol, minRow, minCol)]: calling a
    class runs [__init__], and raises [TypeError] when [__init__] returns
    anything but [None]. *)
Definition new (dimLow : Z) (fracRow fracCol : Q) (minRow minCol : Z)
    : result t :=
  match __init__ dimLow fracRow fracCol minRow minCol with
  | value self => Ok self
  | exception_object _ => Raise TypeError
  end.

(** [data ** 2] *)
Definition square (rows : matrix) : matrix :=
  (fun vec : list Q => (fun x => (x * x)%Q) <$> vec) <$> rows.

(** [a + b] on two rows of one array. *)
Definition add (a b : list Q) : list Q := zip_with Qplus a b.

(** [sum(l)] on the cells of a row: the builtin starts from 0 and adds from
    the left. *)
Definition py_sum (l : list Q) : Q := fold_left Qplus l 0%Q.

(** [sum(rows)] on the rows of an array: [0 + rows[0] + rows[1] + ...];
    [None] is the integer 0 that the builtin returns when there is no row. *)
Definition sum_rows (rows : matrix) : option (list Q) :=
  match rows with
  | [] => None
  | vec :: rows => Some (fold_left add rows vec)
  end.

(** [result /= total] on an array of floats. *)
Definition divide (result : list Q) (total : Q) : list (option Q) :=
  (fun x => if Qeq_bool total 0 then None else Some (x / total)%Q)
    <$> result.

(** With no row, [sum(data ** 2)] is the integer 0 and [sum(0)] raises
    [TypeError]. *)
Definition _get_proba_col (data : pyobj matrix)
    : result (returned (list (option Q))) :=
  match data with
  | other => Ok (exception_object TypeError)
  | ndarray data =>
      match sum_rows (square data) with
      | None => Raise TypeError
      | Some result => Ok (value (divide result (py_sum result)))
      end
  end.

(** [np.sum(data ** 2, axis=1)] is the sum of each row. *)
Definition _get_proba_row (data : pyobj matrix)
    : result (returned (list (option Q))) :=
  match data with
  | other => Ok (exception_object TypeError)
  | ndarray data =>
      let result := py_sum <$> square data in
      Ok (value (divide result (py_sum result)))
  end.

End ApproximatePCA.

(** Column [j] of an array. *)
Definition column (j : nat) (rows : matrix) : list Q :=
  (fun vec : list Q => default 0%Q (vec !! j)) <$> rows.

(** The sum of the squares of all cells. *)
Definition frobenius (rows : matrix) : Q :=
  ApproximatePCA.py_sum
    (ApproximatePCA.py_sum <$> ApproximatePCA.square rows).


(** * Proofs *)

(** ** Loops *)

Lemma bind_Ok {A B : Type} (m : result A) (f : A -> result B) (b : B) :
  (m ≫= f) = Ok b -> exists a, m = Ok a /\ f a = Ok b.
Proof. destruct m as [a|e]; simpl; [eauto | discriminate]. Qed.

Lemma Ok_bind {A B : Type} (a : A) (f : A -> result B) : (Ok a ≫= f) = f a.
Proof. reflexivity. Qed.

(** Runs the binds whose left operand is already a value. *)
Ltac run := repeat (rewrite Ok_bind; cbn beta).

Lemma index_Ok {A : Type} (l : list A) (i : nat) (x : A) :
  index l i = Ok x <-> l !! i = Some x.
Proof. unfold index. destruct (l !! i); split; congruence. Qed.

Lemma index_lt {A : Type} (l : list A) (i : nat) :
  (i < length l)%nat -> exists x, l !! i = Some x /\ index l i = Ok x.
Proof.
  intros Hi. destruct (lookup_lt_is_Some_2 l i Hi) as [x Hx].
  exists x. split; [exact Hx | now apply index_Ok].
Qed.

Lemma elem_of_middle {A : Type} (pre post : list A) (x : A) :
  x ∈ pre ++ x :: post.
Proof. apply elem_of_app. right. left. Qed.

Lemma elem_of_snoc {A : Type} (pre : list A) (x y : A) :
  y ∈ pre ++ [x] <-> y ∈ pre \/ y = x.
Proof. rewrite elem_of_app, list_elem_of_singleton. reflexivity. Qed.

(** Loop invariant rule: an invariant on the processed prefix and the
    accumulator that every iteration re-establishes holds at the end, and the
    loop raises nothing. *)
Lemma for_each_invariant {A B : Type} (I : list B -> A -> Prop)
    (body : B -> A -> result A) (l : list B) (acc : A) :
  I [] acc ->
  (forall pre x post a, l = pre ++ x :: post -> I pre a ->
     exists a', body x a = Ok a' /\ I (pre ++ [x]) a') ->
  exists a', for_each l acc body = Ok a' /\ I l a'.
Proof.
  revert I acc. induction l as [|x l IH]; intros I acc H0 Hstep.
  - exists acc. split; [reflexivity | exact H0].
  - destruct (Hstep [] x l acc eq_refl H0) as (a1 & Hb & HI1).
    destruct (IH (fun pre a => I (x :: pre) a) a1 HI1) as (a' & Hrun & HI').
    + intros pre y post a Hl HI. subst l.
      apply (Hstep (x :: pre) y post a eq_refl HI).
    + exists a'. split; [|exact HI']. simpl. rewrite Hb. exact Hrun.
Qed.

(** A loop whose body never raises is a left fold. *)
Lemma for_each_total {A B : Type} (f : B -> A -> A) (l : list B) (acc : A) :
  for_each l acc (fun x a => Ok (f x a)) = Ok (fold_left (fun a x => f x a) l acc).
Proof. revert acc. induction l as [|x l IH]; intros acc; simpl; auto. Qed.

(** Inversion of a loop: the run is a chain of successful iterations. *)
Lemma for_each_inv_invariant {A B : Type} (I : list B -> A -> Prop)
    (body : B -> A -> result A) (l : list B) (acc res : A) :
  for_each l acc body = Ok res ->
  I [] acc ->
  (forall pre x post a a', l = pre ++ x :: post -> I pre a ->
     body x a = Ok a' -> I (pre ++ [x]) a') ->
  I l res.
Proof.
  revert I acc. induction l as [|x l IH]; intros I acc Hrun H0 Hstep.
  - simpl in Hrun. injection Hrun as <-. exact H0.
  - simpl in Hrun. apply bind_Ok in Hrun as (a1 & Hb & Hrun).
    apply (IH (fun pre a => I (x :: pre) a) a1 Hrun).
    + apply (Hstep [] x l acc a1 eq_refl H0 Hb).
    + intros pre y post a a' Hl HI Hy. subst l.
      apply (Hstep (x :: pre) y post a a' eq_refl HI Hy).
Qed.

(** ** Comparison of cells *)

Lemma Qltb_true (x y : Q) : Qltb x y = true -> (x < y)%Q.
Proof.
  unfold Qltb. intros H. apply negb_true_iff in H.
  apply Qnot_le_lt. intros Hle. apply Qle_bool_iff in Hle. congruence.
Qed.

Lemma Qltb_false (x y : Q) : Qltb x y = false -> (y <= x)%Q.
Proof.
  unfold Qltb. intros H. apply negb_false_iff in H. now apply Qle_bool_iff.
Qed.

(** ** The min/max scan *)

Section Scan.

(** Both scans are one loop, up to the comparison that decides whether the
    cell replaces the recorded bound. *)
Variable better : Q -> Q -> bool.
Variable le : Q -> Q -> Prop.
Hypothesis le_refl : forall x, le x x.
Hypothesis le_trans : forall x y z, le x y -> le y z -> le x z.
Hypothesis better_true : forall x m, better x m = true -> le x m.
Hypothesis better_false : forall x m, better x m = false -> le m x.

Lemma scan_row (rows seen : matrix) (n : nat) (vec : list Q) (bound : list Q) :
  vec ∈ rows -> length vec = n -> scanned le rows seen n bound ->
  exists bound',
    for_each (seq 0 n) bound (fun i bound =>
      x ← index vec i;
      m ← index bound i;
      if better x m then Ok (<[i := x]> bound) else Ok bound) = Ok bound'
    /\ scanned le rows (seen ++ [vec]) n bound'.
Proof.
  intros Hin Hlen Hsc.
  pose (I := fun (pre : list nat) (b : list Q) =>
    length b = n /\
    forall i m, b !! i = Some m ->
      (exists v, v ∈ rows /\ v !! i = Some m) /\
      (forall v x, v ∈ seen -> v !! i = Some x -> le m x) /\
      (i ∈ pre -> forall x, vec !! i = Some x -> le m x)).
  destruct (for_each_invariant I
    (fun i bound => x ← index vec i; m ← index bound i;
       if better x m then Ok (<[i := x]> bound) else Ok bound)
    (seq 0 n) bound) as (bound' & Hrun & HI).
  - destruct Hsc as [Hl Hb]. split; [exact Hl|]. intros i m Him.
    destruct (Hb i m Him) as [Hat Hle]. repeat split; auto.
    intros Hi. inversion Hi.
  - intros pre i post b Hseq [Hl Hb].
    assert (Hi : (i < n)%nat).
    { assert (Hm : i ∈ seq 0 n) by (rewrite Hseq; apply elem_of_middle).
      apply elem_of_seq in Hm. lia. }
    destruct (index_lt vec i) as (x & Hx & Hix); [lia|].
    destruct (index_lt b i) as (m & Hm & Him); [lia|].
    simpl. rewrite Hix. simpl. rewrite Him. simpl.
    destruct (Hb i m Hm) as (Hat & Hseen & Hpre).
    destruct (better x m) eqn:Hbt.
    + eexists. split; [reflexivity|]. split; [now rewrite length_insert|].
      intros j mj Hj. destruct (decide (i = j)) as [<-|Hne].
      * rewrite list_lookup_insert_eq in Hj by lia. injection Hj as <-.
        repeat split.
        -- exists vec. auto.
        -- intros v y Hv Hy. apply le_trans with m; [now apply better_true|].
           now apply (Hseen v y).
        -- intros _ y Hy. rewrite Hx in Hy. injection Hy as <-. apply le_refl.
      * rewrite list_lookup_insert_ne in Hj by exact Hne.
        destruct (Hb j mj Hj) as (Hat' & Hseen' & Hpre').
        repeat split; auto. intros Hjin. apply Hpre'.
        apply elem_of_snoc in Hjin as [Hjin|Hjin]; [exact Hjin | congruence].
    + eexists. split; [reflexivity|]. split; [exact Hl|].
      intros j mj Hj. destruct (Hb j mj Hj) as (Hat' & Hseen' & Hpre').
      repeat split; auto. intros Hjin y Hy.
      destruct (decide (i = j)) as [<-|Hne].
      * rewrite Hm in Hj. injection Hj as <-. rewrite Hx in Hy.
        injection Hy as <-. now apply better_false.
      * apply Hpre'; [|exact Hy].
        apply elem_of_snoc in Hjin as [Hjin|Hjin]; [exact Hjin | congruence].
  - exists bound'. split; [exact Hrun|]. destruct HI as [Hl Hb].
    split; [exact Hl|]. intros i m Him.
    destruct (Hb i m Him) as (Hat & Hseen & Hpre). split; [exact Hat|].
    intros v x Hv Hvx. apply elem_of_app in Hv as [Hv|Hv].
    + now apply (Hseen v x).
    + apply list_elem_of_singleton in Hv. subst v. apply Hpre; [|exact Hvx].
      apply elem_of_seq. apply lookup_lt_Some in Him. lia.
Qed.

Lemma scan_spec (row0 : list Q) (rest : matrix) :
  rectangular (length row0) (row0 :: rest) ->
  exists bound,
    scan better (ndarray (row0 :: rest)) = Ok bound
    /\ scanned le (row0 :: rest) (row0 :: rest) (length row0) bound.
Proof.
  intros Hrect. set (rows := row0 :: rest) in *.
  assert (H0 : index rows 0 = Ok row0) by reflexivity.
  unfold scan. simpl expect_ndarray. run. rewrite H0. run.
  apply (for_each_invariant
    (fun seen bound => scanned le rows seen (length row0) bound)).
  - split; [reflexivity|]. intros i m Him. split.
    + exists row0. split; [left | exact Him].
    + intros v x Hv. inversion Hv.
  - intros pre vec post b Hrows Hsc.
    apply scan_row; [| |exact Hsc].
    + rewrite Hrows. apply elem_of_middle.
    + unfold rectangular in Hrect. rewrite Forall_forall in Hrect.
      apply Hrect. rewrite Hrows. apply elem_of_middle.
Qed.

End Scan.

(** ** [_get_min] and [_get_max] *)

Lemma _get_min_scan (data : pyobj matrix) :
  _get_min data = scan Qltb data.
Proof. reflexivity. Qed.

Lemma _get_max_scan (data : pyobj matrix) :
  _get_max data = scan (fun x m => Qltb m x) data.
Proof. reflexivity. Qed.

Lemma _get_min_spec (row0 : list Q) (rest : matrix) :
  rectangular (length row0) (row0 :: rest) ->
  exists minimum,
    _get_min (ndarray (row0 :: rest)) = Ok minimum
    /\ scanned Qle (row0 :: rest) (row0 :: rest) (length row0) minimum.
Proof.
  intros Hrect. rewrite _get_min_scan. apply scan_spec; [| | | |exact Hrect].
  - apply Qle_refl.
  - apply Qle_trans.
  - intros x m H. apply Qlt_le_weak. now apply Qltb_true.
  - intros x m H. now apply Qltb_false.
Qed.

Lemma _get_max_spec (row0 : list Q) (rest : matrix) :
  rectangular (length row0) (row0 :: rest) ->
  exists maximum,
    _get_max (ndarray (row0 :: rest)) = Ok maximum
    /\ scanned (fun M x => (x <= M)%Q) (row0 :: rest) (row0 :: rest)
         (length row0) maximum.
Proof.
  intros Hrect. rewrite _get_max_scan.
  apply scan_spec with (le := fun M x => (x <= M)%Q); [| | | |exact Hrect].
  - apply Qle_refl.
  - intros x y z H1 H2. now apply Qle_trans with y.
  - intros x m H. apply Qlt_le_weak. now apply Qltb_true.
  - intros x m H. now apply Qltb_false.
Qed.

(** ** Loops that build a list *)

Lemma seq_prefix (n : nat) (pre post : list nat) (i : nat) :
  seq 0 n = pre ++ i :: post -> i = length pre /\ (i < n)%nat.
Proof.
  intros H.
  assert (Hl : seq 0 n !! length pre = Some i).
  { rewrite H. rewrite lookup_app_r by lia. now rewrite Nat.sub_diag. }
  apply lookup_seq in Hl. lia.
Qed.

Lemma for_each_ext {A B : Type} (body body' : B -> A -> result A)
    (l : list B) (acc : A) :
  (forall x a, body x a = body' x a) ->
  for_each l acc body = for_each l acc body'.
Proof.
  intros H. revert acc. induction l as [|x l IH]; intros acc; simpl.
  - reflexivity.
  - rewrite H. destruct (body' x acc); simpl; auto.
Qed.

(** A loop whose iteration appends one computed cell returns exactly when
    every cell is computed, and then returns the cells in order. *)
Lemma for_each_collect_Ok {B C : Type} (f : B -> result C)
    (body : B -> list C -> result (list C)) (l : list B) (acc out : list C) :
  (forall x acc, body x acc = (y ← f x; Ok (acc ++ [y]))) ->
  for_each l acc body = Ok out
  <-> exists ys, out = acc ++ ys /\ Forall2 (fun x y => f x = Ok y) l ys.
Proof.
  intros Hbody. revert acc out.
  induction l as [|x l IH]; intros acc out; simpl.
  - split.
    + intros [= <-]. exists []. split; [now rewrite app_nil_r | constructor].
    + intros (ys & -> & H). inversion H. now rewrite app_nil_r.
  - rewrite Hbody. destruct (f x) as [y|e] eqn:Hf.
    + rewrite !Ok_bind, IH. split.
      * intros (ys & -> & H). exists (y :: ys).
        split; [now rewrite <- app_assoc | now constructor].
      * intros (ys & -> & H).
        inversion H as [|? y' ? ys' Hy Hys]; subst.
        assert (y' = y) by congruence. subst y'.
        exists ys'. split; [now rewrite <- app_assoc | exact Hys].
    + split; [discriminate|].
      intros (ys & _ & H). inversion H; congruence.
Qed.

(** The cells collected over [range(n)], by position. *)
Lemma Forall2_seq {C : Type} (P : nat -> C -> Prop) (n : nat) (ys : list C) :
  Forall2 P (seq 0 n) ys
  <-> length ys = n /\ forall i y, ys !! i = Some y -> P i y.
Proof.
  rewrite Forall2_same_length_lookup, length_seq. split.
  - intros [Hlen H]. split; [lia|]. intros i y Hy.
    apply (H i i y); [|exact Hy].
    apply lookup_seq. apply lookup_lt_Some in Hy. lia.
  - intros [Hlen H]. split; [lia|]. intros i x y Hx Hy.
    apply lookup_seq in Hx as [-> _]. now apply H.
Qed.

Lemma for_each_range_Ok {C : Type} (f : nat -> result C)
    (body : nat -> list C -> result (list C)) (n : nat) (out : list C) :
  (forall i acc, body i acc = (y ← f i; Ok (acc ++ [y]))) ->
  for_each (seq 0 n) [] body = Ok out
  <-> length out = n /\ forall i y, out !! i = Some y -> f i = Ok y.
Proof.
  intros Hbody. rewrite (for_each_collect_Ok f) by exact Hbody.
  split.
  - intros (ys & -> & H). now apply Forall2_seq in H.
  - intros H. exists out. split; [reflexivity | now apply Forall2_seq].
Qed.

(** ** Floating-point arithmetic *)

(** Rounding keeps the sign bit it is given. *)
Lemma binary_round_aux_sign (s : bool) (m e : Z) (l : location) :
  match binary_round_aux prec emax s m e l with
  | S754_zero s' | S754_infinity s' | S754_finite s' _ _ => s' = s
  | S754_nan => True
  end.
Proof.
  unfold binary_round_aux.
  destruct (shr_fexp prec emax m e l) as [mrs' e'].
  destruct (shr_fexp prec emax _ e' loc_Exact) as [mrs'' e''].
  destruct (shr_m mrs''); [reflexivity| |exact I].
  destruct (Z.leb e'' (emax - prec)); reflexivity.
Qed.

Lemma float_of_Q_unsigned (q : Q) : (0 <= q)%Q -> unsigned (float_of_Q q).
Proof.
  destruct q as [n d]. unfold Qle, float_of_Q. simpl. intros H.
  destruct n as [|n|n]; [reflexivity| |lia].
  destruct (SFdiv_core_binary prec emax (Z.pos n) 0 (Z.pos d) 0)
    as [[mz ez] lz].
  pose proof (binary_round_aux_sign false mz ez lz) as Hs.
  destruct (binary_round_aux prec emax false mz ez lz); exact Hs.
Qed.

Lemma float_of_Q_zero (q : Q) : (q == 0)%Q -> float_of_Q q = S754_zero false.
Proof.
  destruct q as [n d]. unfold Qeq, float_of_Q. simpl. intros H.
  assert (n = 0) by lia. subst n. reflexivity.
Qed.

Lemma np_sub_unsigned (x m : Q) : (m <= x)%Q -> unsigned (np_sub x m).
Proof. intros H. apply float_of_Q_unsigned. lra. Qed.

Lemma np_sub_zero (x m : Q) : (x == m)%Q -> np_sub x m = S754_zero false.
Proof. intros H. apply float_of_Q_zero. lra. Qed.

Lemma np_div_unsigned (x y : spec_float) :
  unsigned x -> unsigned y -> unsigned (np_div x y).
Proof.
  unfold np_div, SFdiv.
  destruct x as [sx|sx| |sx mx ex], y as [sy|sy| |sy my ey]; simpl;
    try (intros -> ->; reflexivity); try (intros; exact I).
  intros -> ->.
  destruct (SFdiv_core_binary prec emax (Z.pos mx) ex (Z.pos my) ey)
    as [[mz ez] lz].
  pose proof (binary_round_aux_sign false mz ez lz) as Hs.
  simpl. destruct (binary_round_aux prec emax false mz ez lz); exact Hs.
Qed.

Lemma np_mul_unsigned (x y : spec_float) :
  unsigned x -> unsigned y -> unsigned (np_mul x y).
Proof.
  unfold np_mul, SFmul.
  destruct x as [sx|sx| |sx mx ex], y as [sy|sy| |sy my ey]; simpl;
    try (intros -> ->; reflexivity); try (intros; exact I).
  intros -> ->.
  pose proof (binary_round_aux_sign false (Z.pos (mx * my)) (ex + ey)
                loc_Exact) as Hs.
  simpl.
  destruct (binary_round_aux prec emax false (Z.pos (mx * my)) (ex + ey)
              loc_Exact); exact Hs.
Qed.

Lemma truncate_nonneg (m : positive) (e : Z) : 0 <= truncate m e.
Proof.
  unfold truncate. destruct e as [|p|p]; [lia| |].
  - apply Z.shiftl_nonneg. lia.
  - apply Z.shiftr_nonneg. lia.
Qed.

Lemma py_int_unsigned (x : spec_float) (b : Z) :
  unsigned x -> py_int x = Ok b -> 0 <= b.
Proof.
  destruct x as [s|s| |s m e]; simpl; try discriminate.
  - intros _ [= <-]. lia.
  - intros -> [= <-]. apply truncate_nonneg.
Qed.

Lemma py_float_unsigned (n : Z) (R : spec_float) :
  0 <= n -> py_float n = Ok R -> unsigned R.
Proof.
  intros Hn. unfold py_float.
  assert (H : unsigned (float_of_Q (inject_Z n))).
  { apply float_of_Q_unsigned. change 0%Q with (inject_Z 0).
    now rewrite <- Zle_Qle. }
  destruct (float_of_Q (inject_Z n)); try discriminate;
    intros [= <-]; exact H.
Qed.

Lemma py_float_Raise (n : Z) (e : exn) :
  py_float n = Raise e -> e = OverflowError.
Proof.
  unfold py_float. destruct (float_of_Q (inject_Z n)); congruence.
Qed.

(** On a zero divisor the quotient is an infinity or not a number, and its
    product with zero is not a number. *)
Lemma position_constant (R : spec_float) (M m x : Q) :
  (M == m)%Q -> (x == m)%Q -> position m (scale R M m) x = S754_nan.
Proof.
  intros HM Hx. unfold position, scale.
  rewrite (np_sub_zero M m HM), (np_sub_zero x m Hx).
  destruct R as [s|s| |s mR eR]; reflexivity.
Qed.





(** ** [_rescale_data] *)

Lemma index_Raise {A : Type} (l : list A) (i : nat) (e : exn) :
  index l i = Raise e -> e = IndexError.
Proof. unfold index. destruct (l !! i); congruence. Qed.

Section Rescale.

Variable self : SparseComputation.
Let r : Z := gridResolution self.

(** The handler of the first loop has nothing to catch. *)
Lemma coef_body (maximum minimum : list Q) (i : nat)
    (coef : list spec_float) :
  try_except
    (R ← py_float r;
     M ← index maximum i;
     m ← index minimum i;
     let toAppend := np_div R (np_sub M m) in
     Ok (coef ++ [toAppend]))
    ZeroDivisionError
    (Ok (coef ++ [S754_zero false]))
  = (c ← coef_of self maximum minimum i; Ok (coef ++ [c])).
Proof.
  unfold coef_of. fold r. destruct (py_float r) as [R|e] eqn:HR.
  - rewrite !Ok_bind. destruct (index maximum i) as [M|e] eqn:HM.
    + rewrite !Ok_bind. destruct (index minimum i) as [m|e] eqn:Hm.
      * reflexivity.
      * apply index_Raise in Hm as ->. reflexivity.
    + apply index_Raise in HM as ->. reflexivity.
  - apply py_float_Raise in HR as ->. reflexivity.
Qed.

Lemma _rescale_coef_Ok (maximum minimum : list Q) (n : nat)
    (coef : list spec_float) :
  _rescale_coef self maximum minimum n = Ok coef
  <-> length coef = n
      /\ forall i c, coef !! i = Some c ->
           coef_of self maximum minimum i = Ok c.
Proof.
  unfold _rescale_coef. apply for_each_range_Ok.
  intros i acc. apply coef_body.
Qed.

Lemma cell_body (minimum : list Q) (coef : list spec_float) (vec : list Q)
    (i : nat) (acc : list Z) :
  (x ← index vec i;
   m ← index minimum i;
   c ← index coef i;
   b ← py_int (np_mul (np_sub x m) c);
   Ok (acc ++ [Z.min b (r - 1)]))
  = (y ← cell_of self minimum coef vec i; Ok (acc ++ [y])).
Proof.
  unfold cell_of, bin, position. fold r.
  destruct (index vec i) as [x|]; [|reflexivity]. rewrite !Ok_bind.
  destruct (index minimum i) as [m|]; [|reflexivity]. rewrite !Ok_bind.
  destruct (index coef i) as [c|]; [|reflexivity]. rewrite !Ok_bind.
  destruct (py_int (np_mul (np_sub x m) c)); reflexivity.
Qed.

(** The rows that the second loop of [_rescale_data] builds. *)
Lemma rows_loop_Ok (minimum : list Q) (coef : list spec_float) (n : nat)
    (rows : matrix) (rescaled : grid) :
  for_each rows [] (fun vec rescaled_data =>
    rescaled_vec ← for_each (seq 0 n) [] (fun i rescaled_vec =>
      x ← index vec i;
      m ← index minimum i;
      c ← index coef i;
      b ← py_int (np_mul (np_sub x m) c);
      Ok (rescaled_vec ++ [Z.min b (r - 1)]));
    Ok (rescaled_data ++ [rescaled_vec])) = Ok rescaled
  <-> Forall2 (fun vec row =>
        length row = n
        /\ forall i b, row !! i = Some b ->
             cell_of self minimum coef vec i = Ok b) rows rescaled.
Proof.
  rewrite (for_each_collect_Ok (fun vec =>
    for_each (seq 0 n) [] (fun i rescaled_vec =>
      x ← index vec i;
      m ← index minimum i;
      c ← index coef i;
      b ← py_int (np_mul (np_sub x m) c);
      Ok (rescaled_vec ++ [Z.min b (r - 1)])))) by reflexivity.
  split.
  - intros (ys & -> & H). simpl.
    eapply Forall2_impl; [exact H|]. intros vec row Hrow.
    apply (for_each_range_Ok (cell_of self minimum coef vec)) in Hrow;
      [exact Hrow|].
    intros i acc. apply cell_body.
  - intros H. exists rescaled. split; [reflexivity|].
    eapply Forall2_impl; [exact H|]. intros vec row Hrow.
    apply (for_each_range_Ok (cell_of self minimum coef vec));
      [|exact Hrow].
    intros i acc. apply cell_body.
Qed.

Variable row0 : list Q.
Variable rest : matrix.
Let rows : matrix := row0 :: rest.
Let n : nat := length row0.
Hypothesis Hrect : rectangular n rows.

(** What [_rescale_data] returns on a rectangular matrix with a row, when it
    returns: the array that [np.array] makes of the bins of every cell. *)
Lemma _rescale_data_Ok (out : dtype * grid) :
  _rescale_data self (ndarray rows) = Ok out
  <-> exists maximum minimum coef rescaled,
        _get_max (ndarray rows) = Ok maximum
        /\ _get_min (ndarray rows) = Ok minimum
        /\ _rescale_coef self maximum minimum n = Ok coef
        /\ Forall2 (fun vec row =>
             length row = n
             /\ forall i b, row !! i = Some b ->
                  cell_of self minimum coef vec i = Ok b) rows rescaled
        /\ out = np_array rescaled.
Proof.
  assert (H0 : index rows 0 = Ok row0) by reflexivity.
  unfold _rescale_data. simpl expect_ndarray. rewrite Ok_bind, H0, Ok_bind.
  cbv zeta. fold n r. split.
  - intros H.
    apply bind_Ok in H as (maximum & HM & H).
    apply bind_Ok in H as (minimum & Hm & H).
    apply bind_Ok in H as (coef & Hc & H).
    apply bind_Ok in H as (rescaled & Hr & H).
    exists maximum, minimum, coef, rescaled.
    apply rows_loop_Ok in Hr. injection H as <-. auto.
  - intros (maximum & minimum & coef & rescaled & HM & Hm & Hc & Hr & ->).
    rewrite HM, Ok_bind, Hm, Ok_bind, Hc, Ok_bind.
    apply rows_loop_Ok in Hr. rewrite Hr. reflexivity.
Qed.

(** The cell of row [j] on axis [i] of a matrix that [_rescale_data]
    rescales: the bounds of the axis, its scale factor and the bin. *)
Lemma rescale_cell (out : dtype * grid) :
  _rescale_data self (ndarray rows) = Ok out ->
  exists maximum minimum coef rescaled,
    _get_max (ndarray rows) = Ok maximum
    /\ _get_min (ndarray rows) = Ok minimum
    /\ scanned (fun M x => (x <= M)%Q) rows rows n maximum
    /\ scanned Qle rows rows n minimum
    /\ _rescale_coef self maximum minimum n = Ok coef
    /\ out = np_array rescaled
    /\ length rescaled = length rows
    /\ Forall (fun row => length row = n) rescaled
    /\ forall j vec i x,
         rows !! j = Some vec -> vec !! i = Some x ->
         exists M m R b row,
           maximum !! i = Some M /\ minimum !! i = Some m
           /\ (m <= x)%Q /\ (x <= M)%Q
           /\ py_float r = Ok R
           /\ coef !! i = Some (scale R M m)
           /\ py_int (position m (scale R M m) x) = Ok b
           /\ rescaled !! j = Some row
           /\ row !! i = Some (Z.min b (r - 1)).
Proof.
  intros H.
  apply _rescale_data_Ok in H
    as (maximum & minimum & coef & rescaled & HM & Hm & Hc & Hr & ->).
  destruct (_get_max_spec row0 rest Hrect) as (maximum' & HM' & HsM).
  destruct (_get_min_spec row0 rest Hrect) as (minimum' & Hm' & Hsm).
  fold rows in HM', Hm', HsM, Hsm. fold n in HsM, Hsm.
  assert (maximum' = maximum) by congruence. subst maximum'.
  assert (minimum' = minimum) by congruence. subst minimum'.
  apply _rescale_coef_Ok in Hc as Hc'. destruct Hc' as [Hlc Hcoef].
  exists maximum, minimum, coef, rescaled.
  split; [exact HM|]. split; [exact Hm|]. split; [exact HsM|].
  split; [exact Hsm|]. split; [exact Hc|]. split; [reflexivity|].
  split; [symmetry; eapply Forall2_length; exact Hr|].
  split.
  { apply Forall_forall. intros row Hrow.
    apply list_elem_of_lookup in Hrow as [j Hj].
    destruct (Forall2_lookup_r _ _ _ _ _ Hr Hj) as (vec & _ & Hl & _).
    exact Hl. }
  intros j vec i x Hj Hi.
  destruct (Forall2_lookup_l _ _ _ _ _ Hr Hj) as (row & Hrow & Hl & Hcells).
  assert (Hvec : vec ∈ rows) by (apply list_elem_of_lookup; eauto).
  assert (Hlv : length vec = n).
  { unfold rectangular in Hrect. rewrite Forall_forall in Hrect. auto. }
  assert (Hin : (i < n)%nat) by (apply lookup_lt_Some in Hi; lia).
  destruct (lookup_lt_is_Some_2 row i) as [y Hy]; [lia|].
  destruct (lookup_lt_is_Some_2 coef i) as [c Hci]; [lia|].
  pose proof (Hcoef i c Hci) as Hco. unfold coef_of in Hco. fold r in Hco.
  apply bind_Ok in Hco as (R & HR & Hco).
  apply bind_Ok in Hco as (M & HMi & Hco).
  apply bind_Ok in Hco as (m & Hmi & Hco).
  injection Hco as <-.
  apply index_Ok in HMi, Hmi.
  pose proof (Hcells i y Hy) as Hcell. unfold cell_of in Hcell.
  apply index_Ok in Hi as Hi', Hmi as Hmi', Hci as Hci'.
  rewrite Hi', Ok_bind, Hmi', Ok_bind, Hci', Ok_bind in Hcell.
  unfold bin in Hcell. fold r in Hcell.
  apply bind_Ok in Hcell as (b & Hb & Hcell). injection Hcell as <-.
  exists M, m, R, b, row.
  split; [exact HMi|]. split; [exact Hmi|].
  split; [now apply (proj2 (proj2 Hsm i m Hmi) vec x)|].
  split; [now apply (proj2 (proj2 HsM i M HMi) vec x)|].
  auto 10.
Qed.

End Rescale.

(** ** Cells of the rescaled matrix *)

Lemma __init___valid (d : DimReducer) (g : Z) (self : SparseComputation) :
  __init__ d g = Ok self -> 1 <= gridResolution self.
Proof.
  unfold __init__. destruct (g <? 1) eqn:Hg; [discriminate|].
  intros H. injection H as <-. simpl. lia.
Qed.

(** The product that is truncated has its sign bit clear, for a cell that
    is not below the minimum of an axis whose maximum is not below it. *)
Lemma position_unsigned (r : Z) (R : spec_float) (M m x : Q) :
  0 <= r -> py_float r = Ok R -> (m <= x)%Q -> (m <= M)%Q ->
  unsigned (position m (scale R M m) x).
Proof.
  intros Hr HR Hx HM. unfold position, scale.
  apply np_mul_unsigned; [now apply np_sub_unsigned|].
  apply np_div_unsigned; [now apply (py_float_unsigned r) |
                          now apply np_sub_unsigned].
Qed.

(** [np.array] keeps the cells of lists in which no integer is negative. *)
Lemma np_array_nonneg (g : grid) :
  Forall (Forall (fun z => 0 <= z)) g -> np_array g = (np_dtype g, g).
Proof.
  intros Hnn. unfold np_array.
  destruct (np_dtype g) eqn:E; try reflexivity.
  f_equal. unfold np_dtype in E. destruct (concat g) as [|z0 cells] eqn:Hc.
  - clear E Hnn. induction g as [|row g IH]; [reflexivity|].
    simpl in Hc. apply app_eq_nil in Hc as [-> Hc]. simpl.
    now rewrite IH.
  - exfalso.
    destruct (forallb (fun z => (- 2 ^ 63 <=? z) && (z <? 2 ^ 63))
                (z0 :: cells)); [discriminate|].
    destruct (forallb (fun z => (0 <=? z) && (z <? 2 ^ 64)) (z0 :: cells))
      eqn:E2; [discriminate|].
    destruct (forallb (fun z => (- 2 ^ 63 <=? z) && (z <? 2 ^ 64))
                (z0 :: cells)) eqn:E3; [|discriminate].
    assert (E2' : forallb (fun z => (0 <=? z) && (z <? 2 ^ 64)) (z0 :: cells)
                  = true); [|congruence].
    apply forallb_forall. intros z Hz.
    rewrite forallb_forall in E3. specialize (E3 z Hz).
    apply andb_true_iff in E3 as [_ E3]. rewrite E3, andb_true_r.
    apply Z.leb_le. rewrite <- Hc in Hz. apply in_concat in Hz
      as (row & Hrow & Hz).
    rewrite Forall_forall in Hnn. apply list_elem_of_In in Hrow.
    specialize (Hnn row Hrow). rewrite Forall_forall in Hnn.
    apply Hnn. now apply list_elem_of_In.
Qed.

(** * Properties of the sparsifier *)

(** ** Rescaling *)

(** C3. Degenerate axis: on an axis on which all rows of a non-empty reduced
    dataset share one value, the recorded maximum equals the recorded
    minimum and the scale factor, when it is computed, is an infinity or not
    a number, never zero; [_rescale_data] raises an exception and returns no
    matrix, so no row is assigned bin 0. *)
Theorem degenerate_axis_raises (self : SparseComputation) (row0 : list Q)
    (rest : matrix) (i : nat) :
  rectangular (length row0) (row0 :: rest) ->
  (i < length row0)%nat ->
  (forall vec x y, vec ∈ row0 :: rest -> vec !! i = Some x ->
     row0 !! i = Some y -> (x == y)%Q) ->
  (exists maximum minimum M m,
     _get_max (ndarray (row0 :: rest)) = Ok maximum
     /\ _get_min (ndarray (row0 :: rest)) = Ok minimum
     /\ maximum !! i = Some M /\ minimum !! i = Some m /\ (M == m)%Q
     /\ forall c, coef_of self maximum minimum i = Ok c ->
          c = S754_nan \/ exists s, c = S754_infinity s)
  /\ exists e, _rescale_data self (ndarray (row0 :: rest)) = Raise e.
Proof.
  intros Hrect Hi Hconst.
  destruct (lookup_lt_is_Some_2 row0 i Hi) as [y Hy].
  assert (Hbounds : forall maximum minimum M m,
    scanned (fun M x => (x <= M)%Q) (row0 :: rest) (row0 :: rest)
      (length row0) maximum ->
    scanned Qle (row0 :: rest) (row0 :: rest) (length row0) minimum ->
    maximum !! i = Some M -> minimum !! i = Some m ->
    (M == y)%Q /\ (m == y)%Q).
  { intros maximum minimum M m HsM Hsm HMi Hmi.
    destruct (proj2 HsM i M HMi) as [(v1 & Hv1 & Hx1) _].
    destruct (proj2 Hsm i m Hmi) as [(v2 & Hv2 & Hx2) _].
    split; [apply (Hconst v1 M y Hv1 Hx1 Hy) | apply (Hconst v2 m y Hv2 Hx2 Hy)]. }
  split.
  - destruct (_get_max_spec row0 rest Hrect) as (maximum & HM & HsM).
    destruct (_get_min_spec row0 rest Hrect) as (minimum & Hm & Hsm).
    destruct (lookup_lt_is_Some_2 maximum i) as [M HMi];
      [rewrite (proj1 HsM); exact Hi|].
    destruct (lookup_lt_is_Some_2 minimum i) as [m Hmi];
      [rewrite (proj1 Hsm); exact Hi|].
    destruct (Hbounds maximum minimum M m HsM Hsm HMi Hmi) as [EM Em].
    exists maximum, minimum, M, m.
    split; [exact HM|]. split; [exact Hm|]. split; [exact HMi|].
    split; [exact Hmi|]. split; [now rewrite EM, Em|].
    intros c Hc. unfold coef_of in Hc.
    apply bind_Ok in Hc as (R & HR & Hc).
    apply index_Ok in HMi, Hmi. rewrite HMi, Ok_bind, Hmi, Ok_bind in Hc.
    injection Hc as <-. unfold scale.
    rewrite np_sub_zero by (now rewrite EM, Em).
    destruct R as [s|s| |s mR eR]; simpl; eauto.
  - destruct (_rescale_data self (ndarray (row0 :: rest))) as [out|e] eqn:H;
      [exfalso | eauto].
    apply (rescale_cell self row0 rest Hrect) in H
      as (maximum & minimum & coef & rescaled & _ & _ & HsM & Hsm & _ & _ & _
          & _ & Hcells).
    destruct (Hcells 0%nat row0 i y eq_refl Hy)
      as (M & m & R & b & row & HMi & Hmi & _ & _ & _ & _ & Hb & _).
    destruct (Hbounds maximum minimum M m HsM Hsm HMi Hmi) as [EM Em].
    rewrite position_constant in Hb; [discriminate| |].
    + now rewrite EM, Em.
    + now rewrite Em.
Qed.

Lemma degenerate_axis_raises_witness :
  ((exists maximum minimum M m,
      _get_max (ndarray [[5%Q; 1%Q]; [5%Q; 2%Q]]) = Ok maximum
      /\ _get_min (ndarray [[5%Q; 1%Q]; [5%Q; 2%Q]]) = Ok minimum
      /\ maximum !! 0%nat = Some M /\ minimum !! 0%nat = Some m /\ (M == m)%Q
      /\ forall c, coef_of sc4 maximum minimum 0 = Ok c ->
           c = S754_nan \/ exists s, c = S754_infinity s)
   /\ exists e, _rescale_data sc4 (ndarray [[5%Q; 1%Q]; [5%Q; 2%Q]]) = Raise e)
  /\ coef_of sc4 [5%Q; 2%Q] [5%Q; 1%Q] 0 = Ok (S754_infinity false)
  /\ _rescale_data sc4 (ndarray [[5%Q; 1%Q]; [5%Q; 2%Q]]) = Raise ValueError.
Proof.
  split; [|split; reflexivity].
  apply (degenerate_axis_raises sc4 [5%Q; 1%Q] [[5%Q; 2%Q]] 0%nat).
  - repeat constructor.
  - simpl. lia.
  - intros vec x y Hvec Hx Hy. injection Hy as <-.
    apply list_elem_of_In in Hvec.
    destruct Hvec as [<-|[<-|[]]]; injection Hx as <-; reflexivity.
Defined.




(** ** Dictionaries *)

Lemma dict_get_set (d : dict) (k k' : Z) (v : list nat) :
  dict_get (dict_set d k v) k'
  = if Z.eqb k k' then Some v else dict_get d k'.
Proof.
  induction d as [|[k0 v0] d IH]; simpl.
  - destruct (Z.eqb k k'); reflexivity.
  - destruct (Z.eqb k0 k) eqn:E0; simpl.
    + apply Z.eqb_eq in E0. subst k0. destruct (Z.eqb k k'); reflexivity.
    + destruct (Z.eqb k0 k') eqn:E1; [|exact IH].
      apply Z.eqb_eq in E1. subst k0. now rewrite Z.eqb_sym, E0.
Qed.

Lemma dict_get_elem (d : dict) (k : Z) (v : list nat) :
  dict_get d k = Some v -> (k, v) ∈ d.
Proof.
  induction d as [|[k0 v0] d IH]; simpl; [discriminate|].
  destruct (Z.eqb k0 k) eqn:E.
  - apply Z.eqb_eq in E. intros H. injection H as <-. subst. left.
  - intros H. right. auto.
Qed.

Lemma dict_get_None (d : dict) (k : Z) :
  dict_get d k = None -> k ∉ d.*1.
Proof.
  induction d as [|[k0 v0] d IH]; simpl.
  - intros _ H. inversion H.
  - destruct (Z.eqb k0 k) eqn:E; [discriminate|].
    apply Z.eqb_neq in E. intros Hn Hin.
    apply elem_of_cons in Hin as [->|Hin]; [congruence|]. now apply IH.
Qed.

Lemma elem_dict_get (d : dict) (k : Z) (v : list nat) :
  NoDup d.*1 -> (k, v) ∈ d -> dict_get d k = Some v.
Proof.
  induction d as [|[k0 v0] d IH]; simpl; intros Hnd Hin.
  - inversion Hin.
  - apply NoDup_cons in Hnd as [Hk0 Hnd].
    apply elem_of_cons in Hin as [Heq|Hin].
    + injection Heq as -> ->. now rewrite Z.eqb_refl.
    + destruct (Z.eqb k0 k) eqn:E; [|auto].
      apply Z.eqb_eq in E. subst k0. exfalso. apply Hk0.
      apply list_elem_of_fmap. exists (k, v). auto.
Qed.

Lemma dict_set_keys (d : dict) (k : Z) (v : list nat) :
  (dict_set d k v).*1 = if dict_mem k d then d.*1 else d.*1 ++ [k].
Proof.
  unfold dict_mem. induction d as [|[k0 v0] d IH]; [reflexivity|].
  cbn [dict_set dict_get]. destruct (Z.eqb k0 k) eqn:E; [reflexivity|].
  rewrite !fmap_cons, IH. destruct (dict_get d k); reflexivity.
Qed.

Lemma dict_set_NoDup (d : dict) (k : Z) (v : list nat) :
  NoDup d.*1 -> NoDup (dict_set d k v).*1.
Proof.
  intros Hnd. rewrite dict_set_keys. unfold dict_mem.
  destruct (dict_get d k) eqn:E; [exact Hnd|].
  apply NoDup_app. split; [exact Hnd|]. split.
  - intros x Hx Hx'. apply list_elem_of_singleton in Hx'. subst x.
    now apply (dict_get_None d k).
  - apply NoDup_singleton.
Qed.

(** ** [_index_to_boxe_id] and [_get_boxes] *)

Section Boxes.

Variable self : SparseComputation.
Let r : Z := gridResolution self.

(** [_index_to_boxe_id] returns on the non-empty rows of object arrays, and
    on no other array. *)
Lemma _index_to_boxe_id_Ok (dt : dtype) (row : list Z) (k : Z) :
  _index_to_boxe_id self (ndarray (dt, row)) = Ok k
  <-> dt = object /\ row <> [] /\ k = box_id self row.
Proof.
  unfold _index_to_boxe_id, box_id. simpl expect_ndarray.
  rewrite Ok_bind. cbn beta iota.
  destruct row as [|x row].
  - split; [discriminate | intros (_ & H & _); congruence].
  - change (index (x :: row) 0) with (Ok x). rewrite Ok_bind.
    destruct dt; simpl; split;
      try discriminate; try (intros (H & _); discriminate).
    + intros [= <-]. auto.
    + intros (_ & _ & ->). reflexivity.
Qed.

Lemma _index_to_boxe_id_nonempty (row : list Z) :
  row <> [] ->
  _index_to_boxe_id self (ndarray (object, row)) = Ok (box_id self row).
Proof. intros H. now apply _index_to_boxe_id_Ok. Qed.

(** The cells of an array of another dtype are not Python integers. *)
Lemma _index_to_boxe_id_numpy (dt : dtype) (row : list Z) :
  dt <> object -> row <> [] ->
  _index_to_boxe_id self (ndarray (dt, row)) = Raise TypeError.
Proof.
  intros Hdt Hrow. destruct row as [|x row]; [congruence|].
  destruct dt; try reflexivity. congruence.
Qed.

Lemma bucket_snoc (g : grid) (seen : list nat) (i : nat) (k : Z) :
  bucket self g (seen ++ [i]) k
  = if has_id self g k i
    then Some (from_option id [] (bucket self g seen k) ++ [i])
    else bucket self g seen k.
Proof.
  unfold bucket. rewrite List.filter_app. simpl.
  destruct (has_id self g k i).
  - destruct (List.filter (has_id self g k) seen); reflexivity.
  - now rewrite app_nil_r.
Qed.

Lemma bucket_step (g : grid) (seen : list nat) (i : nat) (vec : list Z)
    (boxes boxes' : dict) :
  bucketed self g seen boxes ->
  g !! i = Some vec ->
  dict_append
    (if negb (dict_mem (box_id self vec) boxes)
     then dict_set boxes (box_id self vec) [] else boxes)
    (box_id self vec) i = Ok boxes' ->
  bucketed self g (seen ++ [i]) boxes'.
Proof.
  intros [Hnd Hget] Hi Happ. set (k0 := box_id self vec) in *.
  assert (Hstep : boxes'
    = dict_set (if negb (dict_mem k0 boxes) then dict_set boxes k0 []
                else boxes) k0
        (from_option id [] (dict_get boxes k0) ++ [i])).
  { unfold dict_append, dict_mem in *.
    destruct (dict_get boxes k0) as [v|] eqn:E; simpl in *.
    - rewrite E in Happ. now injection Happ as <-.
    - rewrite dict_get_set, Z.eqb_refl in Happ. now injection Happ as <-. }
  subst boxes'. split.
  - apply dict_set_NoDup. destruct (negb (dict_mem k0 boxes)); [|exact Hnd].
    now apply dict_set_NoDup.
  - intros k. rewrite bucket_snoc, dict_get_set. unfold has_id.
    rewrite Hi. fold k0. destruct (Z.eqb k0 k) eqn:E.
    + apply Z.eqb_eq in E. subst k. now rewrite Hget.
    + rewrite <- Hget. destruct (negb (dict_mem k0 boxes)); [|reflexivity].
      now rewrite dict_get_set, E.
Qed.

(** What [_get_boxes] returns, when it returns: the array is an object
    array with a row, and the rows are bucketed. *)
Lemma _get_boxes_Ok (dt : dtype) (g : grid) (boxes : dict) :
  _get_boxes self (ndarray (dt, g)) = Ok boxes ->
  dt = object /\ g <> [] /\ Forall (fun row => row <> []) g
  /\ bucketed self g (seq 0 (length g)) boxes.
Proof.
  unfold _get_boxes. simpl expect_ndarray. rewrite Ok_bind. cbn beta iota.
  intros H. apply bind_Ok in H as (row0 & H0 & H).
  assert (Hne : g <> []) by (destruct g; [discriminate | congruence]).
  pose proof (for_each_inv_invariant
    (fun pre boxes =>
       (forall i, i ∈ pre ->
          dt = object /\ exists row, g !! i = Some row /\ row <> [])
       /\ bucketed self g pre boxes) _ _ _ _ H) as Hinv.
  destruct Hinv as [Hrows Hb].
  - split; [|split; [constructor | reflexivity]].
    intros i Hi. inversion Hi.
  - intros pre i post a a' _ [Hpre Ha] Hbody.
    apply bind_Ok in Hbody as (vec & Hvec & Hbody).
    apply bind_Ok in Hbody as (k & Hk & Hbody).
    apply index_Ok in Hvec.
    apply _index_to_boxe_id_Ok in Hk as (Hdt & Hvne & ->). split.
    + intros i' Hi'. apply elem_of_snoc in Hi' as [Hi'| ->]; [auto|].
      split; [exact Hdt | eauto].
    + now apply (bucket_step g pre i vec a a').
  - split; [|split; [exact Hne|split; [|exact Hb]]].
    + destruct g as [|r0 g']; [congruence|].
      apply (Hrows 0%nat). simpl. left.
    + apply Forall_lookup. intros i row Hi.
      destruct (Hrows i) as (_ & row' & Hrow' & Hne').
      { apply elem_of_seq. apply lookup_lt_Some in Hi. lia. }
      congruence.
Qed.

(** [_get_boxes] returns on an object array with a row and a column. *)
Lemma _get_boxes_run (g : grid) :
  g <> [] -> Forall (fun row => row <> []) g ->
  exists boxes, _get_boxes self (ndarray (object, g)) = Ok boxes.
Proof.
  intros Hne Hrows. unfold _get_boxes. simpl expect_ndarray.
  rewrite Ok_bind. cbn beta iota.
  destruct g as [|row0 g']; [congruence|].
  set (g := row0 :: g') in *.
  assert (H0 : index g 0 = Ok row0) by reflexivity. rewrite H0. run.
  destruct (for_each_invariant (fun _ _ => True)
    (fun i result =>
       vec ← index g i;
       box_id ← _index_to_boxe_id self (ndarray (object, vec));
       let result :=
         if negb (dict_mem box_id result) then dict_set result box_id []
         else result in
       dict_append result box_id i)
    (seq 0 (length g)) []) as (boxes & Hrun & _); [exact I| |eauto].
  intros pre i post a Hseq _. apply seq_prefix in Hseq as [_ Hi].
  destruct (index_lt g i Hi) as (vec & Hvec & Hix). rewrite Hix. run.
  rewrite _index_to_boxe_id_nonempty.
  2:{ rewrite Forall_forall in Hrows. apply Hrows.
      apply list_elem_of_lookup. eauto. }
  run. unfold dict_append, dict_mem.
  destruct (dict_get a (box_id self vec)) eqn:E; simpl.
  - rewrite E. eauto.
  - rewrite dict_get_set, Z.eqb_refl. eauto.
Qed.

End Boxes.

(** ** Pair emission *)

Lemma for_each_app {A B : Type} (body : B -> A -> result A) (l1 l2 : list B)
    (acc : A) :
  for_each (l1 ++ l2) acc body
  = (acc' ← for_each l1 acc body; for_each l2 acc' body).
Proof.
  revert acc. induction l1 as [|x l1 IH]; intros acc; simpl; [reflexivity|].
  destruct (body x acc) as [a|e]; simpl; [apply IH | reflexivity].
Qed.

(** Nested loops visit the concatenation of the inner ranges. *)
Lemma for_each_flat_map {A B C : Type} (f : B -> list C)
    (body : C -> A -> result A) (l : list B) (acc : A) :
  for_each l acc (fun x acc => for_each (f x) acc body)
  = for_each (flat_map f l) acc body.
Proof.
  revert acc. induction l as [|x l IH]; intros acc; simpl; [reflexivity|].
  rewrite for_each_app.
  destruct (for_each (f x) acc body); simpl; [apply IH | reflexivity].
Qed.

Lemma pair_mem_spec (p : nat * nat) (pairs : list (nat * nat)) :
  pair_mem p pairs = true <-> p ∈ pairs.
Proof.
  unfold pair_mem. rewrite existsb_exists. split.
  - intros (q & Hq & Heq). apply andb_true_iff in Heq as [H1 H2].
    apply Nat.eqb_eq in H1, H2. destruct p, q. simpl in *. subst.
    now apply list_elem_of_In.
  - intros Hp. exists p. split; [now apply list_elem_of_In|].
    now rewrite !Nat.eqb_refl.
Qed.

Lemma emit_elem (c p : nat * nat) (pairs : list (nat * nat)) :
  p ∈ emit c pairs <-> p ∈ pairs \/ (p = c /\ (c.1 < c.2)%nat).
Proof.
  unfold emit. destruct c as [a b]. simpl.
  destruct (Nat.ltb a b) eqn:Hlt; simpl.
  - apply Nat.ltb_lt in Hlt.
    destruct (pair_mem (a, b) pairs) eqn:Hm; simpl.
    + apply pair_mem_spec in Hm. split; [auto|].
      intros [H|[-> _]]; assumption.
    + rewrite elem_of_snoc. split; intros [H|H]; auto. tauto.
  - apply Nat.ltb_ge in Hlt. split; [auto|]. intros [H|[_ H]]; [auto|lia].
Qed.

Lemma emit_NoDup (c : nat * nat) (pairs : list (nat * nat)) :
  NoDup pairs -> NoDup (emit c pairs).
Proof.
  intros Hnd. unfold emit. destruct c as [a b].
  destruct (Nat.ltb a b); simpl; [|exact Hnd].
  destruct (pair_mem (a, b) pairs) eqn:Hm; simpl; [exact Hnd|].
  apply NoDup_app. split; [exact Hnd|]. split; [|apply NoDup_singleton].
  intros x Hx Hx'. apply list_elem_of_singleton in Hx'. subst x.
  apply pair_mem_spec in Hx. congruence.
Qed.

Lemma emit_all_elem (cs pairs : list (nat * nat)) (p : nat * nat) :
  p ∈ emit_all cs pairs <-> p ∈ pairs \/ (p ∈ cs /\ (p.1 < p.2)%nat).
Proof.
  unfold emit_all. revert pairs.
  induction cs as [|c cs IH]; intros pairs; simpl.
  - split; [auto|]. intros [H|[H _]]; [exact H | inversion H].
  - rewrite IH, emit_elem, elem_of_cons. split.
    + intros [[H|[-> H]]|[H1 H2]]; auto.
    + intros [H|[[->|H1] H2]]; auto.
Qed.

Lemma emit_all_NoDup (cs pairs : list (nat * nat)) :
  NoDup pairs -> NoDup (emit_all cs pairs).
Proof.
  unfold emit_all. revert pairs.
  induction cs as [|c cs IH]; intros pairs Hnd; simpl; [exact Hnd|].
  apply IH. now apply emit_NoDup.
Qed.

Lemma elem_of_product {A B : Type} (xs : list A) (ys : list B) (a : A)
    (b : B) :
  (a, b) ∈ product xs ys <-> a ∈ xs /\ b ∈ ys.
Proof.
  unfold product. rewrite !list_elem_of_In, in_flat_map. split.
  - intros (x & Hx & Hin). apply in_map_iff in Hin as (y & Heq & Hy).
    injection Heq as -> ->. auto.
  - intros [Ha Hb]. exists a. split; [exact Ha|].
    apply in_map_iff. exists b. auto.
Qed.

Lemma elem_of_product_repeat {A : Type} (xs : list A) (n : nat)
    (v : list A) :
  v ∈ product_repeat xs n <-> length v = n /\ Forall (fun x => x ∈ xs) v.
Proof.
  revert v. induction n as [|n IH]; intros v; simpl.
  - rewrite list_elem_of_singleton. split.
    + intros ->. split; [reflexivity | constructor].
    + intros [H _]. now destruct v.
  - rewrite list_elem_of_In, in_flat_map. split.
    + intros (x & Hx & Hin). apply in_map_iff in Hin as (w & <- & Hw).
      apply list_elem_of_In, IH in Hw as [Hl Hall]. simpl.
      split; [now rewrite Hl|]. constructor; [now apply list_elem_of_In|].
      exact Hall.
    + intros [Hl Hall]. destruct v as [|x w]; [discriminate|].
      apply Forall_cons in Hall as [Hx Hw]. exists x.
      split; [now apply list_elem_of_In|]. apply in_map_iff. exists w.
      split; [reflexivity|]. apply list_elem_of_In, IH.
      simpl in Hl. split; [lia | exact Hw].
Qed.

Section Pairs.

Variable self : SparseComputation.

(** The pair stage of [_get_pairs] never raises: its result is the list of
    candidates filtered by the innermost loop body. *)
Lemma pair_loops (boxes_dict : dict) (n : nat) :
  for_each boxes_dict []
    (fun '(box_id, members) pairs =>
       for_each (product_repeat (range (-1) 2) n) pairs
         (fun increment pairs =>
            let id_incremented := radix_add self 0 increment box_id in
            match dict_get boxes_dict id_incremented with
            | Some neighbours =>
                for_each (product members neighbours) pairs
                  (fun p pairs => Ok (emit p pairs))
            | None => Ok pairs
            end))
  = Ok (emit_all (candidates self boxes_dict n) []).
Proof.
  unfold emit_all, candidates. rewrite <- for_each_total.
  rewrite <- for_each_flat_map. apply for_each_ext.
  intros [box_id members] pairs. rewrite <- for_each_flat_map.
  apply for_each_ext. intros increment acc. cbn zeta.
  destruct (dict_get boxes_dict (radix_add self 0 increment box_id));
    reflexivity.
Qed.

Lemma _get_pairs_run (rows : matrix) (row0 : list Q) (g : dtype * grid)
    (boxes_dict : dict) :
  rows !! 0%nat = Some row0 ->
  (length row0 <= 3)%nat ->
  _rescale_data self (ndarray rows) = Ok g ->
  _get_boxes self (ndarray g) = Ok boxes_dict ->
  _get_pairs self (ndarray rows)
  = Ok (emit_all (candidates self boxes_dict (length row0)) []).
Proof.
  intros H0 Hk Hg Hb. apply index_Ok in H0.
  unfold _get_pairs. simpl expect_ndarray. run. rewrite H0. run.
  assert (Hlt : (3 <? length row0)%nat = false) by (apply Nat.ltb_ge; lia).
  rewrite Hlt, Hg. run. rewrite Hb. run. apply pair_loops.
Qed.

(** What [_get_pairs] returns, when it returns. *)
Lemma _get_pairs_Ok (rows : matrix) (pairs : list (nat * nat)) :
  _get_pairs self (ndarray rows) = Ok pairs ->
  exists row0 g boxes_dict,
    rows !! 0%nat = Some row0
    /\ (length row0 <= 3)%nat
    /\ _rescale_data self (ndarray rows) = Ok (object, g)
    /\ _get_boxes self (ndarray (object, g)) = Ok boxes_dict
    /\ pairs = emit_all (candidates self boxes_dict (length row0)) [].
Proof.
  intros H. pose proof H as Hrun. unfold _get_pairs in H.
  simpl expect_ndarray in H. rewrite Ok_bind in H.
  apply bind_Ok in H as (row0 & H0 & H). apply index_Ok in H0.
  destruct (3 <? length row0)%nat eqn:Hlt; [discriminate|].
  apply Nat.ltb_ge in Hlt.
  apply bind_Ok in H as ([dt g] & Hg & H).
  apply bind_Ok in H as (boxes_dict & Hb & _).
  pose proof (_get_boxes_Ok self dt g boxes_dict Hb) as (-> & _).
  exists row0, g, boxes_dict. repeat (split; [assumption|]).
  rewrite (_get_pairs_run rows row0 _ boxes_dict H0 Hlt Hg Hb) in Hrun.
  now injection Hrun as <-.
Qed.

End Pairs.

(** ** The pairs that are emitted *)

Section Emitted.

Variable self : SparseComputation.

Lemma has_id_spec (g : grid) (k : Z) (a : nat) :
  has_id self g k a = true
  <-> exists row, g !! a = Some row /\ box_id self row = k.
Proof.
  unfold has_id. destruct (g !! a) as [row|].
  - rewrite Z.eqb_eq. split; [eauto|]. intros (row' & Heq & H).
    now injection Heq as ->.
  - split; [discriminate|]. intros (row & Heq & _). discriminate.
Qed.

Lemma bucket_elem (g : grid) (seen : list nat) (k : Z) (v : list nat)
    (a : nat) :
  bucket self g seen k = Some v ->
  (a ∈ v <-> a ∈ seen /\ has_id self g k a = true).
Proof.
  unfold bucket. intros H.
  assert (Hv : v = List.filter (has_id self g k) seen).
  { destruct (List.filter (has_id self g k) seen); [discriminate|].
    now injection H as <-. }
  subst v. rewrite !list_elem_of_In. apply filter_In.
Qed.

Lemma bucket_has (g : grid) (seen : list nat) (k : Z) (a : nat) :
  a ∈ seen -> has_id self g k a = true ->
  exists v, bucket self g seen k = Some v /\ a ∈ v.
Proof.
  intros Ha Hid.
  assert (Hin : In a (List.filter (has_id self g k) seen)).
  { apply filter_In. split; [now apply list_elem_of_In | exact Hid]. }
  unfold bucket. destruct (List.filter (has_id self g k) seen) as [|x v].
  - destruct Hin.
  - exists (x :: v). split; [reflexivity | now apply list_elem_of_In].
Qed.

(** The candidate pairs, from the rescaled matrix: the rows of the pair are
    rows of the matrix, and some increment added to the box id of the first
    gives the box id of the second. *)
Lemma candidates_elem (g : grid) (boxes_dict : dict) (n a b : nat) :
  bucketed self g (seq 0 (length g)) boxes_dict ->
  (a, b) ∈ candidates self boxes_dict n
  <-> exists ra rb increment,
        g !! a = Some ra /\ g !! b = Some rb
        /\ increment ∈ product_repeat (range (-1) 2) n
        /\ radix_add self 0 increment (box_id self ra) = box_id self rb.
Proof.
  intros [Hnd Hget]. unfold candidates.
  rewrite list_elem_of_In, in_flat_map. split.
  - intros ([k members] & Hkm & Hin). apply in_flat_map in Hin
      as (increment & Hinc & Hin).
    apply list_elem_of_In in Hkm, Hinc.
    destruct (dict_get boxes_dict (radix_add self 0 increment k))
      as [neighbours|] eqn:Hnb; [|destruct Hin].
    apply list_elem_of_In, elem_of_product in Hin as [Ha Hb].
    apply elem_dict_get in Hkm; [|exact Hnd].
    rewrite Hget in Hkm, Hnb.
    apply (bucket_elem _ _ _ _ a Hkm) in Ha as [_ Ha].
    apply (bucket_elem _ _ _ _ b Hnb) in Hb as [_ Hb].
    apply has_id_spec in Ha as (ra & Hra & Hka), Hb as (rb & Hrb & Hkb).
    exists ra, rb, increment. subst k. auto.
  - intros (ra & rb & increment & Hra & Hrb & Hinc & Hid).
    assert (Hin : forall i row, g !! i = Some row -> i ∈ seq 0 (length g)).
    { intros i row Hi. apply elem_of_seq. apply lookup_lt_Some in Hi. lia. }
    destruct (bucket_has g (seq 0 (length g)) (box_id self ra) a)
      as (members & Hm & Ha); [eauto | apply has_id_spec; eauto |].
    destruct (bucket_has g (seq 0 (length g)) (box_id self rb) b)
      as (neighbours & Hn & Hb); [eauto | apply has_id_spec; eauto |].
    rewrite <- Hget in Hm, Hn.
    exists (box_id self ra, members).
    split; [now apply list_elem_of_In, dict_get_elem|].
    apply in_flat_map. exists increment.
    split; [now apply list_elem_of_In|].
    rewrite Hid, Hn. now apply list_elem_of_In, elem_of_product.
Qed.

(** The list returned by [_get_pairs]: it has no duplicates, and [(a, b)]
    is in it exactly when [a < b], both are rows, and some increment added
    to the box id of row [a] gives the box id of row [b]. *)
Lemma _get_pairs_spec (rows : matrix) (pairs : list (nat * nat)) :
  _get_pairs self (ndarray rows) = Ok pairs ->
  exists row0 g,
    rows !! 0%nat = Some row0
    /\ _rescale_data self (ndarray rows) = Ok (object, g)
    /\ NoDup pairs
    /\ forall a b,
         (a, b) ∈ pairs
         <-> (a < b)%nat
             /\ exists ra rb increment,
                  g !! a = Some ra /\ g !! b = Some rb
                  /\ increment ∈ product_repeat (range (-1) 2) (length row0)
                  /\ radix_add self 0 increment (box_id self ra)
                     = box_id self rb.
Proof.
  intros H.
  apply _get_pairs_Ok in H as (row0 & g & boxes_dict & H0 & _ & Hg & Hb & ->).
  exists row0, g. split; [exact H0|]. split; [exact Hg|]. split.
  - apply emit_all_NoDup. constructor.
  - intros a b. apply _get_boxes_Ok in Hb as (_ & _ & _ & Hb).
    rewrite emit_all_elem, (candidates_elem g boxes_dict _ a b Hb). simpl.
    split.
    + intros [H|[H1 H2]]; [inversion H | auto].
    + intros [H1 H2]. right. auto.
Qed.

(** Adding the increments to a box id is linear in the coordinates. *)
Lemma radix_add_shift (i : nat) (v : list Z) (acc c : Z) :
  radix_add self i v (acc + c) = radix_add self i v acc + c.
Proof.
  revert i acc. induction v as [|x v IH]; intros i acc; simpl; [reflexivity|].
  rewrite <- IH. f_equal. ring.
Qed.

Lemma radix_add_difference (i : nat) (ra rb : list Z) (acc : Z) :
  length ra = length rb ->
  radix_add self i (zip_with Z.sub rb ra) (radix_add self i ra acc)
  = radix_add self i rb acc.
Proof.
  revert i rb acc. induction ra as [|x ra IH]; intros i [|y rb] acc Hl;
    simpl in *; try discriminate; [reflexivity|].
  rewrite <- (radix_add_shift (S i) ra).
  rewrite <- (IH (S i) rb (acc + y * gridResolution self ^ Z.of_nat i))
    by lia.
  f_equal. f_equal. ring.
Qed.

End Emitted.

(** ** Candidate pairs *)

Lemma adjacent_increment (ra rb : list Z) (n : nat) :
  length ra = n -> length rb = n -> adjacent ra rb ->
  zip_with Z.sub rb ra ∈ product_repeat (range (-1) 2) n.
Proof.
  intros Ha Hb Hadj. apply elem_of_product_repeat.
  split; [rewrite length_zip_with; lia|].
  apply Forall_lookup. intros i d Hd.
  apply lookup_zip_with_Some in Hd as (y & x & -> & Hy & Hx).
  specialize (Hadj i x y Hx Hy). change (range (-1) 2) with [-1; 0; 1].
  assert (Hc : y - x = -1 \/ y - x = 0 \/ y - x = 1) by lia.
  rewrite !elem_of_cons. tauto.
Qed.

(** ** The dtype of the rescaled matrix *)

(** Integers that fit in 64 unsigned bits never make an object array. *)
Lemma np_dtype_unsigned (g : grid) :
  Forall (Forall (fun z => 0 <= z < 2 ^ 64)) g -> np_dtype g <> object.
Proof.
  intros Hg. unfold np_dtype. destruct (concat g) as [|z0 cells] eqn:Hc;
    [discriminate|].
  assert (E : forallb (fun z => (0 <=? z) && (z <? 2 ^ 64)) (z0 :: cells)
              = true).
  { apply forallb_forall. intros z Hz. rewrite <- Hc in Hz.
    apply in_concat in Hz as (row & Hrow & Hz).
    rewrite Forall_forall in Hg. apply list_elem_of_In in Hrow.
    specialize (Hg row Hrow). rewrite Forall_forall in Hg.
    apply list_elem_of_In in Hz. specialize (Hg z Hz).
    apply andb_true_iff. split; [apply Z.leb_le | apply Z.ltb_lt]; lia. }
  rewrite E.
  destruct (forallb (fun z => (- 2 ^ 63 <=? z) && (z <? 2 ^ 63))
              (z0 :: cells)); discriminate.
Qed.

(** An object array holds the integers it was built from. *)
Lemma np_array_object (bins g : grid) :
  np_array bins = (object, g) -> g = bins /\ np_dtype bins = object.
Proof.
  unfold np_array. destruct (np_dtype bins); intros [= <-]; auto.
Qed.

(** The matrix that [_rescale_data] returns for a constructed sparsifier:
    the bins, one row per row of the dataset and one bin per axis, each
    between 0 and resolution-1. *)
Lemma rescale_bins (self : SparseComputation) (row0 : list Q)
    (rest : matrix) (out : dtype * grid) :
  1 <= gridResolution self ->
  rectangular (length row0) (row0 :: rest) ->
  _rescale_data self (ndarray (row0 :: rest)) = Ok out ->
  exists bins,
    out = (np_dtype bins, bins)
    /\ length bins = length (row0 :: rest)
    /\ Forall (fun row =>
         length row = length row0 /\ in_grid (gridResolution self) row) bins.
Proof.
  intros Hr Hrect H.
  apply (rescale_cell self row0 rest Hrect) in H
    as (maximum & minimum & coef & bins & _ & _ & _ & _ & _ & Hout
        & Hlen & Hshape & Hcells).
  assert (Hgrid : Forall (fun row =>
    length row = length row0 /\ in_grid (gridResolution self) row) bins).
  { apply Forall_lookup. intros j row Hj.
    rewrite Forall_forall in Hshape.
    assert (Hlrow : length row = length row0).
    { apply Hshape. apply list_elem_of_lookup. eauto. }
    split; [exact Hlrow|].
    apply Forall_lookup. intros i z Hz.
    destruct (lookup_lt_is_Some_2 (row0 :: rest) j) as [vec Hvec].
    { rewrite <- Hlen. now apply lookup_lt_Some in Hj. }
    assert (Hlv : length vec = length row0).
    { unfold rectangular in Hrect. rewrite Forall_forall in Hrect.
      apply Hrect. apply list_elem_of_lookup. eauto. }
    destruct (lookup_lt_is_Some_2 vec i) as [x Hx].
    { rewrite Hlv, <- Hlrow. now apply lookup_lt_Some in Hz. }
    destruct (Hcells j vec i x Hvec Hx)
      as (M & m & R & b & row' & _ & _ & Hmx & HxM & HR & _ & Hb & Hj' & Hz').
    assert (row' = row) by congruence. subst row'.
    assert (z = Z.min b (gridResolution self - 1)) by congruence. subst z.
    assert (0 <= b).
    { apply (py_int_unsigned _ _
               (position_unsigned (gridResolution self) R M m x
                  ltac:(lia) HR Hmx (Qle_trans _ _ _ Hmx HxM)) Hb). }
    lia. }
  exists bins. split; [|split; [exact Hlen | exact Hgrid]].
  rewrite Hout. apply np_array_nonneg.
  eapply Forall_impl; [exact Hgrid|]. intros row [_ Hrow].
  eapply Forall_impl; [exact Hrow|]. simpl. intros z Hz. lia.
Qed.

(** With a resolution of at most 2^64 the rescaled matrix is never an
    object array, so [_get_pairs] returns no list. *)
Lemma _get_pairs_numpy (self : SparseComputation) (row0 : list Q)
    (rest : matrix) :
  1 <= gridResolution self <= 2 ^ 64 ->
  rectangular (length row0) (row0 :: rest) ->
  exists e, _get_pairs self (ndarray (row0 :: rest)) = Raise e.
Proof.
  intros Hr Hrect.
  destruct (_get_pairs self (ndarray (row0 :: rest))) as [pairs|e] eqn:H;
    [exfalso | eauto].
  apply _get_pairs_Ok in H as (row0' & g & boxes & _ & _ & Hg & _).
  apply (rescale_bins self row0 rest _ ltac:(lia) Hrect) in Hg
    as (bins & Hout & _ & Hgrid).
  injection Hout as Hdt _. symmetry in Hdt. revert Hdt.
  apply np_dtype_unsigned.
  eapply Forall_impl; [exact Hgrid|]. intros row [_ Hrow].
  eapply Forall_impl; [exact Hrow|]. simpl. intros z Hz. lia.
Qed.

(** ** Pairs *)

(** C1. Neighbor closure assumes that [_get_pairs] returns a list.  For a
    constructed sparsifier with a resolution of at most 2^64 it does not:
    on every non-empty reduced dataset the call raises an exception, because
    the rescaled matrix is an array of numpy integers and the test
    [isinstance(array[0], int)] of [_index_to_boxe_id] rejects its rows.  No
    list is returned in which the pair of two neighbouring rows could be. *)
Theorem neighbor_closure_no_list (d : DimReducer) (g : Z)
    (self : SparseComputation) (row0 : list Q) (rest : matrix) :
  __init__ d g = Ok self ->
  gridResolution self <= 2 ^ 64 ->
  rectangular (length row0) (row0 :: rest) ->
  exists e, _get_pairs self (ndarray (row0 :: rest)) = Raise e.
Proof.
  intros Hinit Hr Hrect. apply __init___valid in Hinit.
  apply _get_pairs_numpy; [lia | exact Hrect].
Qed.

Lemma neighbor_closure_no_list_witness :
  (exists e,
     _get_pairs sc4
       (ndarray ([0%Q; 0%Q] :: [[1%Q; 1%Q]; [10%Q; 10%Q]])) = Raise e)
  /\ _rescale_data sc4 (ndarray ([0%Q; 0%Q] :: [[1%Q; 1%Q]; [10%Q; 10%Q]]))
     = Ok (int64, [[0; 0]; [0; 0]; [3; 3]])
  /\ adjacent [0; 0] [0; 0]
  /\ _get_pairs sc4 (ndarray ([0%Q; 0%Q] :: [[1%Q; 1%Q]; [10%Q; 10%Q]]))
     = Raise TypeError.
Proof.
  split; [|split; [vm_compute; reflexivity|split; [|vm_compute; reflexivity]]].
  - apply (neighbor_closure_no_list {| fit_transform := Ok |} 4 sc4
             [0%Q; 0%Q] [[1%Q; 1%Q]; [10%Q; 10%Q]]).
    + reflexivity.
    + simpl. lia.
    + repeat constructor.
  - intros i x y Hx Hy.
    destruct i as [|[|i]]; simpl in Hx, Hy; try discriminate;
      injection Hx as <-; injection Hy as <-; simpl; lia.
Defined.

Lemma get_similar_indices_Ok (self : SparseComputation)
    (data : pyobj matrix) (pairs : list (nat * nat)) :
  get_similar_indices self data = Ok pairs ->
  exists reduced_data,
    fit_transform (dimReducer self) data = Ok reduced_data
    /\ _get_pairs self reduced_data = Ok pairs.
Proof.
  unfold get_similar_indices. intros H.
  apply bind_Ok in H as (raw & _ & H).
  apply bind_Ok in H as (reduced_data & Hfit & H). eauto.
Qed.

(** C2. Every pair (a, b) of the list returned by [_get_pairs], and hence by
    [get_similar_indices], has a < b, and the list has no duplicates, so an
    unordered pair of row indices appears at most once. *)
Theorem pairs_ordered_unique (self : SparseComputation)
    (data : pyobj matrix) (pairs : list (nat * nat)) :
  _get_pairs self data = Ok pairs \/ get_similar_indices self data = Ok pairs ->
  ordered_unique pairs
  /\ forall a b, (a, b) ∈ pairs -> (b, a) ∉ pairs.
Proof.
  assert (Hmain : forall data, _get_pairs self data = Ok pairs ->
    ordered_unique pairs).
  { intros [rows|] H; [|discriminate].
    destruct (_get_pairs_spec self rows pairs H)
      as (row0 & g & _ & _ & Hnd & Hspec).
    split; [|exact Hnd]. apply Forall_forall. intros [a b] Hab.
    now apply Hspec in Hab as [Hlt _]. }
  intros H.
  assert (Hou : ordered_unique pairs).
  { destruct H as [H|H]; [now apply (Hmain data)|].
    apply get_similar_indices_Ok in H as (reduced_data & _ & H).
    now apply (Hmain reduced_data). }
  split; [exact Hou|]. destruct Hou as [Hlt _].
  rewrite Forall_forall in Hlt. intros a b Hab Hba.
  apply Hlt in Hab, Hba. simpl in *. lia.
Qed.

Lemma pairs_ordered_unique_witness :
  ordered_unique [(0, 1); (1, 2)]%nat
  /\ forall a b,
       (a, b) ∈ [(0, 1); (1, 2)]%nat -> (b, a) ∉ [(0, 1); (1, 2)]%nat.
Proof.
  apply (pairs_ordered_unique sc_wide (ndarray wide_rows)).
  left. vm_compute. reflexivity.
Defined.

(** C5. Scenario: with resolution 4 the one-column dataset 0, 1, 2, 3, 10
    rescales to the bins 0, 0, 0, 1, 3, held in an array of dtype int64;
    [_index_to_boxe_id] raises a type error on its rows, and so do
    [_get_boxes] and [_get_pairs]: no pair is returned. *)
Theorem scenario_five_rows (reducer : DimReducer) :
  let self := {| dimReducer := reducer; gridResolution := 4 |} in
  _rescale_data self (ndarray five_rows)
  = Ok (int64, [[0]; [0]; [0]; [1]; [3]])
  /\ _index_to_boxe_id self (ndarray (int64, [0])) = Raise TypeError
  /\ _get_boxes self (ndarray (int64, [[0]; [0]; [0]; [1]; [3]]))
     = Raise TypeError
  /\ _get_pairs self (ndarray five_rows) = Raise TypeError
  /\ get_similar_indices sc4 (ndarray five_rows) = Raise TypeError.
Proof.
  intros self. repeat split; vm_compute; reflexivity.
Qed.

(** C6. Non-adjacency exclusion: when the boxes of rows a and b differ by
    more than 1 on some axis and no offset vector of -1, 0, +1 added through
    the mixed-radix arithmetic to the id of either box yields the id of the
    other, the pair (a, b) is absent from the list returned by
    [_get_pairs]. *)
Theorem non_adjacent_excluded (self : SparseComputation) (rows : matrix)
    (row0 : list Q) (dt : dtype) (g : grid) (pairs : list (nat * nat))
    (a b : nat) (ra rb : list Z) (ida idb : Z) :
  rows !! 0%nat = Some row0 ->
  _rescale_data self (ndarray rows) = Ok (dt, g) ->
  _get_pairs self (ndarray rows) = Ok pairs ->
  g !! a = Some ra -> g !! b = Some rb ->
  (exists i x y, ra !! i = Some x /\ rb !! i = Some y /\ 1 < Z.abs (x - y)) ->
  _index_to_boxe_id self (ndarray (dt, ra)) = Ok ida ->
  _index_to_boxe_id self (ndarray (dt, rb)) = Ok idb ->
  (forall offset,
     offset ∈ product_repeat (range (-1) 2) (length row0) ->
     radix_add self 0 offset ida <> idb /\ radix_add self 0 offset idb <> ida) ->
  (a, b) ∉ pairs.
Proof.
  intros H0 Hg Hpairs Hra Hrb _ Hida Hidb Hfree Hab.
  destruct (_get_pairs_spec self rows pairs Hpairs)
    as (row0' & g' & H0' & Hg' & _ & Hspec).
  rewrite H0 in H0'. injection H0' as <-.
  rewrite Hg in Hg'. injection Hg' as -> <-.
  apply Hspec in Hab as (_ & ra' & rb' & increment & Hra' & Hrb' & Hinc & Hid).
  rewrite Hra in Hra'. injection Hra' as <-.
  rewrite Hrb in Hrb'. injection Hrb' as <-.
  apply _index_to_boxe_id_Ok in Hida as (_ & _ & ->).
  apply _index_to_boxe_id_Ok in Hidb as (_ & _ & ->).
  destruct (Hfree increment Hinc) as [Hne _]. apply Hne. exact Hid.
Qed.

Lemma non_adjacent_excluded_witness :
  (0, 2)%nat ∉ [(0, 1); (1, 2)]%nat.
Proof.
  apply (non_adjacent_excluded sc_wide wide_rows [0%Q] object
           [[0]; [1]; [2]; [2 ^ 70 - 1]] _ 0%nat 2%nat [0] [2] 0 2).
  - reflexivity.
  - vm_compute. reflexivity.
  - vm_compute. reflexivity.
  - reflexivity.
  - reflexivity.
  - exists 0%nat, 0, 2. split; [reflexivity|]. split; [reflexivity|].
    simpl. lia.
  - reflexivity.
  - reflexivity.
  - intros offset Hoff. change (length [0%Q]) with 1%nat in Hoff.
    apply list_elem_of_In in Hoff. simpl in Hoff.
    destruct Hoff as [<-|[<-|[<-|[]]]]; vm_compute; split; discriminate.
Defined.

(** C8 as stated fails: on a dataset without rows the scan raises an index
    error, not an input-type error. *)
Lemma empty_dataset_counterexample :
  ~ (_get_min (ndarray []) = Raise TypeError
     /\ _get_max (ndarray []) = Raise TypeError).
Proof. intros [H _]. discriminate H. Qed.

(** C8, amended. Given a dataset without rows, [_get_min] and [_get_max],
    and hence [_rescale_data], [_get_pairs] and [get_similar_indices] with
    any reducer that returns such a dataset, fail with an index error rather
    than returning a result. *)
Theorem empty_dataset_index_error (self : SparseComputation) :
  _get_min (ndarray []) = Raise IndexError
  /\ _get_max (ndarray []) = Raise IndexError
  /\ _rescale_data self (ndarray []) = Raise IndexError
  /\ _get_pairs self (ndarray []) = Raise IndexError
  /\ (forall raw,
        fit_transform (dimReducer self) (ndarray raw) = Ok (ndarray []) ->
        get_similar_indices self (ndarray raw) = Raise IndexError).
Proof.
  repeat (split; [reflexivity|]).
  intros raw Hfit. unfold get_similar_indices. simpl expect_ndarray. run.
  rewrite Hfit. reflexivity.
Qed.

Lemma empty_dataset_index_error_witness :
  _get_min (ndarray []) = Raise IndexError
  /\ _get_max (ndarray []) = Raise IndexError
  /\ _rescale_data sc4 (ndarray []) = Raise IndexError
  /\ _get_pairs sc4 (ndarray []) = Raise IndexError
  /\ (forall raw,
        fit_transform (dimReducer sc4) (ndarray raw) = Ok (ndarray []) ->
        get_similar_indices sc4 (ndarray raw) = Raise IndexError).
Proof. apply (empty_dataset_index_error sc4). Defined.

(** C10. With resolution 1, when [_rescale_data] returns, every row of a
    non-empty reduced dataset is assigned bin 0 on every axis, as the claim
    says; the matrix of zeros is an array of numpy integers, never an object
    array, and [_get_pairs] raises an exception instead of returning the
    pairs (a, b) with a < b. *)
Theorem resolution_one_no_list (self : SparseComputation) (row0 : list Q)
    (rest : matrix) :
  gridResolution self = 1 ->
  rectangular (length row0) (row0 :: rest) ->
  (forall dt g,
     _rescale_data self (ndarray (row0 :: rest)) = Ok (dt, g) ->
     dt <> object
     /\ length g = length (row0 :: rest)
     /\ forall row, row ∈ g ->
          length row = length row0 /\ Forall (fun x => x = 0) row)
  /\ exists e, _get_pairs self (ndarray (row0 :: rest)) = Raise e.
Proof.
  intros Hr Hrect. split.
  - intros dt g Hg.
    apply (rescale_bins self row0 rest _ ltac:(lia) Hrect) in Hg
      as (bins & Hout & Hlen & Hgrid).
    injection Hout as -> ->. split; [|split; [exact Hlen|]].
    + apply np_dtype_unsigned.
      eapply Forall_impl; [exact Hgrid|]. intros row [_ Hrow].
      eapply Forall_impl; [exact Hrow|]. simpl. intros z Hz. lia.
    + intros row Hrow. rewrite Forall_forall in Hgrid.
      destruct (Hgrid row Hrow) as [Hl Hin]. split; [exact Hl|].
      eapply Forall_impl; [exact Hin|]. simpl. intros z Hz. lia.
  - apply _get_pairs_numpy; [lia | exact Hrect].
Qed.

Lemma resolution_one_no_list_witness :
  ((forall dt g,
      _rescale_data sc1
        (ndarray ([0%Q; 7%Q] :: [[3%Q; 8%Q]; [10%Q; 9%Q]])) = Ok (dt, g) ->
      dt <> object
      /\ length g = length ([0%Q; 7%Q] :: [[3%Q; 8%Q]; [10%Q; 9%Q]])
      /\ forall row, row ∈ g ->
           length row = length [0%Q; 7%Q] /\ Forall (fun x => x = 0) row)
   /\ exists e,
        _get_pairs sc1 (ndarray ([0%Q; 7%Q] :: [[3%Q; 8%Q]; [10%Q; 9%Q]]))
        = Raise e)
  /\ _rescale_data sc1 (ndarray ([0%Q; 7%Q] :: [[3%Q; 8%Q]; [10%Q; 9%Q]]))
     = Ok (int64, [[0; 0]; [0; 0]; [0; 0]])
  /\ _get_pairs sc1 (ndarray ([0%Q; 7%Q] :: [[3%Q; 8%Q]; [10%Q; 9%Q]]))
     = Raise TypeError
  /\ _get_pairs sc1 (ndarray ([0%Q; 7%Q] :: [[3%Q; 7%Q]; [10%Q; 7%Q]]))
     = Raise ValueError.
Proof.
  split; [|repeat split; vm_compute; reflexivity].
  apply (resolution_one_no_list sc1 [0%Q; 7%Q] [[3%Q; 8%Q]; [10%Q; 9%Q]]).
  - reflexivity.
  - repeat constructor.
Defined.

(** ** Arrays in memory: what a call leaves unchanged *)

Module StatefulFacts.
Import Stateful.

Section Rules.

Context {A : Type}.
Variable I : store -> Prop.

Lemma spec_pure (m : M A) :
  (forall h, (m h).2 = h) -> spec I m (fun _ => True).
Proof. intros Hm h Ih. rewrite Hm. auto. Qed.

Lemma spec_ret (a : A) (P : A -> Prop) : P a -> spec I (mret a) P.
Proof. intros Pa h Ih. split; [exact Ih|]. intros a' H. now injection H as <-. Qed.

Lemma spec_raise (e : exn) (P : A -> Prop) : spec I (raise e) P.
Proof. intros h Ih. split; [exact Ih | discriminate]. Qed.

Lemma spec_weaken (m : M A) (P Q : A -> Prop) :
  spec I m P -> (forall a, P a -> Q a) -> spec I m Q.
Proof.
  intros Hm HPQ h Ih. destruct (Hm h Ih) as [Ih' HP]. split; auto.
Qed.

Lemma spec_bind {B : Type} (m : M B) (f : B -> M A) (P : B -> Prop)
    (Q : A -> Prop) :
  spec I m P -> (forall b, P b -> spec I (f b) Q) -> spec I (m ≫= f) Q.
Proof.
  intros Hm Hf h Ih. destruct (Hm h Ih) as [Ih' HP].
  unfold mbind, M_bind. destruct (m h) as [[b|e] h']; simpl in *.
  - apply Hf; auto.
  - split; [exact Ih' | discriminate].
Qed.

Lemma spec_try_except (body handler : M A) (e : exn) (P : A -> Prop) :
  spec I body P -> spec I handler P -> spec I (try_except body e handler) P.
Proof.
  intros Hb Hh h Ih. destruct (Hb h Ih) as [Ih' HP].
  unfold try_except. destruct (body h) as [[a|e'] h']; simpl in *.
  - split; auto.
  - destruct (exn_eqb e e'); [now apply Hh|].
    split; [exact Ih' | discriminate].
Qed.

Lemma spec_for_each {B : Type} (l : list B) (acc : A)
    (body : B -> A -> M A) (P : A -> Prop) :
  P acc -> (forall x acc, P acc -> spec I (body x acc) P) ->
  spec I (for_each l acc body) P.
Proof.
  intros Pacc Hbody. revert acc Pacc.
  induction l as [|x l IH]; intros acc Pacc; simpl.
  - now apply spec_ret.
  - apply spec_bind with P; [now apply Hbody | exact IH].
Qed.

End Rules.

Section Reads.

Context {A : Type}.
Variable I : store -> Prop.
Variable field : store -> heap A.

Lemma spec_getitem (d j : nat) : spec I (getitem field d j) (fun _ => True).
Proof.
  apply spec_pure. intros h. unfold getitem.
  destruct (cells (field h) _); reflexivity.
Qed.

Lemma spec_len2 (d : nat) : spec I (len2 field d) (fun _ => True).
Proof.
  apply spec_pure. intros h. unfold len2.
  destruct (field h !! d); reflexivity.
Qed.

Lemma spec_len (v : view) : spec I (len field v) (fun _ => True).
Proof.
  apply spec_pure. intros h. unfold len.
  destruct (cells (field h) v); reflexivity.
Qed.

Lemma spec_iter (d : nat) : spec I (iter field d) (fun _ => True).
Proof.
  unfold iter. apply spec_bind with (fun _ => True); [apply spec_len2|].
  intros n _. now apply spec_ret.
Qed.

Lemma spec_read (v : view) (i : nat) : spec I (read field v i) (fun _ => True).
Proof.
  apply spec_pure. intros h. unfold read.
  destruct (_ ← cells (field h) v; _); reflexivity.
Qed.

Lemma spec_lift (r : result A) : spec I (lift r) (fun _ => True).
Proof. apply spec_pure. reflexivity. Qed.

End Reads.

Lemma spec_expect_ndarray (I : store -> Prop) (x : pyobj nat) :
  spec I (expect_ndarray x) (fun _ => True).
Proof. destruct x; [now apply spec_ret | apply spec_raise]. Qed.

Section Frame.

Variable h0 : store.

Lemma frame_refl : frame h0 h0.
Proof. repeat split; auto. Qed.

(** A new object is allocated after the objects of [h0]. *)
Lemma spec_copy (v : view) :
  spec (frame h0) (copy v)
    (fun v' => (length (floats h0) <= obj v')%nat).
Proof.
  intros h [[Hf Hi] Hl]. unfold copy.
  destruct (cells (floats h) v) as [r|]; simpl.
  - split; [|intros a H; injection H as <-; simpl; lia].
    split; [split; simpl; [|exact Hi]|simpl; rewrite length_app; lia].
    intros o a Ho. rewrite lookup_app_l; [auto|].
    apply Hf in Ho. now apply lookup_lt_Some in Ho.
  - split; [repeat split; auto | discriminate].
Qed.

(** A write through a view of an object allocated after those of [h0]
    leaves them as they are. *)
Lemma spec_write (v : view) (i : nat) (x : Q) :
  (length (floats h0) <= obj v)%nat ->
  spec (frame h0) (write v i x) (fun _ => True).
Proof.
  intros Hv h [[Hf Hi] Hl]. unfold write.
  destruct (_ ← cells (floats h) v; _); simpl.
  - split; [|auto]. split; [split; simpl; [|exact Hi]|].
    + intros o a Ho. rewrite list_lookup_alter_ne; [auto|].
      apply lookup_lt_Some in Ho. lia.
    + simpl. rewrite length_alter. exact Hl.
  - split; [repeat split; auto | auto].
Qed.

Lemma spec_array (rows : list (list Z)) :
  spec (frame h0) (array rows) (fun _ => True).
Proof.
  intros h [[Hf Hi] Hl]. unfold array. simpl. split; [|auto].
  split; [split; simpl; [exact Hf|]|exact Hl].
  intros o a Ho. rewrite lookup_app_l; [auto|].
  apply Hi in Ho. now apply lookup_lt_Some in Ho.
Qed.

Lemma spec_dtype_of (d : nat) : spec (frame h0) (dtype_of d) (fun _ => True).
Proof.
  intros h Ih. unfold dtype_of. destruct (ints h !! d) as [[dt g]|]; auto.
Qed.

(** One step of a method that only reads. *)
Ltac reads :=
  first
    [ apply spec_expect_ndarray | apply spec_getitem | apply spec_len
    | apply spec_len2 | apply spec_iter | apply spec_read | apply spec_lift
    | apply spec_dtype_of ].

Ltac read_then :=
  apply spec_bind with (fun _ => True); [reads | intros ? _].

(** The scan loop writes to the copy only. *)
Lemma scan_loop_frame (better : Q -> Q -> bool) (vecs : list view) (n : nat)
    (bound : view) :
  (length (floats h0) <= obj bound)%nat ->
  spec (frame h0)
    (for_each vecs tt (fun vec _ =>
       for_each (seq 0 n) tt (fun i _ =>
         x ← read floats vec i;
         m ← read floats bound i;
         if better x m then write bound i x else mret tt)))
    (fun _ => True).
Proof.
  intros Hfresh. apply spec_for_each; [exact Logic.I|]. intros vec _ _.
  apply spec_for_each; [exact Logic.I|]. intros i _ _.
  do 2 read_then. destruct (better _ _).
  - now apply spec_write.
  - now apply spec_ret.
Qed.

Lemma _get_min_frame (data : pyobj nat) :
  spec (frame h0) (_get_min data)
    (fun v => (length (floats h0) <= obj v)%nat).
Proof.
  unfold _get_min. do 4 read_then.
  eapply spec_bind; [apply spec_copy|]. intros minimum Hfresh. read_then.
  apply spec_bind with (fun _ => True).
  - now apply (scan_loop_frame Qltb).
  - intros _ _. now apply spec_ret.
Qed.

Lemma _get_max_frame (data : pyobj nat) :
  spec (frame h0) (_get_max data)
    (fun v => (length (floats h0) <= obj v)%nat).
Proof.
  unfold _get_max. do 4 read_then.
  eapply spec_bind; [apply spec_copy|]. intros maximum Hfresh. read_then.
  apply spec_bind with (fun _ => True).
  - now apply (scan_loop_frame (fun x m => Qltb m x)).
  - intros _ _. now apply spec_ret.
Qed.

Variable self : SparseComputation.

Lemma _rescale_data_frame (data : pyobj nat) :
  spec (frame h0) (_rescale_data self data) (fun _ => True).
Proof.
  unfold _rescale_data. do 3 read_then.
  eapply spec_bind; [apply _get_max_frame|]. intros maximum _.
  eapply spec_bind; [apply _get_min_frame|]. intros minimum _.
  apply spec_bind with (fun _ => True).
  { apply spec_for_each; [exact Logic.I|]. intros i coef _.
    apply spec_try_except; [|now apply spec_ret].
    do 3 read_then. now apply spec_ret. }
  intros coef _. read_then.
  apply spec_bind with (fun _ => True); [|intros; apply spec_array].
  apply spec_for_each; [exact Logic.I|]. intros vec rescaled_data _.
  apply spec_bind with (fun _ => True); [|intros; now apply spec_ret].
  apply spec_for_each; [exact Logic.I|]. intros i rescaled_vec _.
  do 4 read_then. now apply spec_ret.
Qed.

Lemma _index_to_boxe_id_frame (array : view) :
  spec (frame h0) (_index_to_boxe_id self array) (fun _ => True).
Proof.
  unfold _index_to_boxe_id. do 2 read_then.
  destruct (negb _); [apply spec_raise|]. read_then.
  apply spec_for_each; [exact Logic.I|]. intros i result _.
  read_then. now apply spec_ret.
Qed.

Lemma _get_boxes_frame (data : pyobj nat) :
  spec (frame h0) (_get_boxes self data) (fun _ => True).
Proof.
  unfold _get_boxes. do 4 read_then.
  apply spec_for_each; [exact Logic.I|]. intros i result _.
  read_then.
  apply spec_bind with (fun _ => True); [apply _index_to_boxe_id_frame|].
  intros box_id _. apply spec_lift.
Qed.

Lemma _get_pairs_frame (data : pyobj nat) :
  spec (frame h0) (_get_pairs self data) (fun _ => True).
Proof.
  unfold _get_pairs. do 3 read_then.
  destruct (3 <? _)%nat; [apply spec_raise|]. do 2 read_then.
  apply spec_bind with (fun _ => True); [apply _rescale_data_frame|].
  intros rescaled_data _.
  apply spec_bind with (fun _ => True); [apply _get_boxes_frame|].
  intros boxes_dict _.
  apply spec_for_each; [exact Logic.I|]. intros [box_id members] pairs _.
  apply spec_for_each; [exact Logic.I|]. intros increment acc _. cbn zeta.
  destruct (dict_get _ _); [|now apply spec_ret].
  apply spec_for_each; [exact Logic.I|]. intros p acc' _. now apply spec_ret.
Qed.

End Frame.

End StatefulFacts.

(** ** Frame *)

(** C9. None of [_get_min], [_get_max], [_rescale_data], [_get_boxes] and
    [_get_pairs] mutates the matrix it is given: after the call, whether it
    returned or raised, every array object that existed before it, the
    argument among them, is cell for cell what it was; the results live in
    newly allocated objects. *)
Theorem calls_leave_input_unchanged (self : SparseComputation)
    (h : Stateful.store) (data : pyobj nat) :
  Stateful.unchanged h (Stateful._get_min data h).2
  /\ Stateful.unchanged h (Stateful._get_max data h).2
  /\ Stateful.unchanged h (Stateful._rescale_data self data h).2
  /\ Stateful.unchanged h (Stateful._get_boxes self data h).2
  /\ Stateful.unchanged h (Stateful._get_pairs self data h).2.
Proof.
  pose proof (StatefulFacts.frame_refl h) as Hh.
  split; [apply (StatefulFacts._get_min_frame h data h Hh)|].
  split; [apply (StatefulFacts._get_max_frame h data h Hh)|].
  split; [apply (StatefulFacts._rescale_data_frame h self data h Hh)|].
  split; [apply (StatefulFacts._get_boxes_frame h self data h Hh)|].
  apply (StatefulFacts._get_pairs_frame h self data h Hh).
Qed.

(** ** Arrays in memory: the methods compute what the functional ones do *)

Module Refinement.

Lemma run_bind {A B : Type} (m : Stateful.M A) (f : A -> Stateful.M B)
    (h h' : Stateful.store) (r : result A) :
  m h = (r, h') ->
  (m ≫= f) h = match r with Ok a => f a h' | Raise e => (Raise e, h') end.
Proof. intros H. unfold mbind, Stateful.M_bind. now rewrite H. Qed.

Section ReadOnly.

Variable h : Stateful.store.

Lemma reads_as_ret {A : Type} (a : A) : Stateful.reads_as (mret a) (Ok a) h.
Proof. reflexivity. Qed.

Lemma reads_as_lift {A : Type} (r : result A) :
  Stateful.reads_as (Stateful.lift r) r h.
Proof. reflexivity. Qed.

Lemma reads_as_bind {A B : Type} (m : Stateful.M A) (r : result A)
    (f' : A -> Stateful.M B) (f : A -> result B) :
  Stateful.reads_as m r h ->
  (forall a, r = Ok a -> Stateful.reads_as (f' a) (f a) h) ->
  Stateful.reads_as (m ≫= f') (r ≫= f) h.
Proof.
  unfold Stateful.reads_as. intros Hm Hf. rewrite (run_bind _ _ _ _ _ Hm).
  destruct r; simpl; auto.
Qed.

Lemma reads_as_try_except {A : Type} (body handler : Stateful.M A)
    (rb rh : result A) (e : exn) :
  Stateful.reads_as body rb h -> Stateful.reads_as handler rh h ->
  Stateful.reads_as (Stateful.try_except body e handler)
    (try_except rb e rh) h.
Proof.
  unfold Stateful.reads_as, Stateful.try_except, try_except.
  intros -> Hh. destruct rb as [a|e']; [reflexivity|].
  destruct (exn_eqb e e'); [exact Hh | reflexivity].
Qed.

Lemma reads_as_for_each {A B B' : Type} (rel : B' -> B -> Prop)
    (sbody : B' -> A -> Stateful.M A) (body : B -> A -> result A)
    (l' : list B') (l : list B) :
  Forall2 rel l' l ->
  (forall x' x acc, rel x' x ->
     Stateful.reads_as (sbody x' acc) (body x acc) h) ->
  forall acc,
    Stateful.reads_as (Stateful.for_each l' acc sbody) (for_each l acc body) h.
Proof.
  intros Hl Hbody. induction Hl as [|x' x l' l Hx Hl IH]; intros acc; simpl.
  - reflexivity.
  - apply reads_as_bind; [now apply Hbody | intros a _; apply IH].
Qed.

Lemma reads_as_read {A : Type} (field : Stateful.store -> Stateful.heap A)
    (v : Stateful.view) (r : list A) (i : nat) :
  Stateful.cells (field h) v = Some r ->
  Stateful.reads_as (Stateful.read field v i) (index r i) h.
Proof.
  intros Hv. unfold Stateful.reads_as, Stateful.read, index.
  rewrite Hv. simpl. destruct (r !! i); reflexivity.
Qed.

Lemma reads_as_getitem {A : Type} (field : Stateful.store -> Stateful.heap A)
    (d j : nat) (a : list (list A)) :
  field h !! d = Some a ->
  Stateful.reads_as (Stateful.getitem field d j)
    (_ ← index a j; Ok {| Stateful.obj := d; Stateful.row := j |}) h.
Proof.
  intros Hd. unfold Stateful.reads_as, Stateful.getitem, Stateful.cells, index.
  simpl. rewrite Hd. simpl. destruct (a !! j); reflexivity.
Qed.

Lemma reads_as_len {A : Type} (field : Stateful.store -> Stateful.heap A)
    (v : Stateful.view) (r : list A) :
  Stateful.cells (field h) v = Some r ->
  Stateful.reads_as (Stateful.len field v) (Ok (length r)) h.
Proof.
  intros Hv. unfold Stateful.reads_as, Stateful.len. now rewrite Hv.
Qed.

Lemma reads_as_iter {A : Type} (field : Stateful.store -> Stateful.heap A)
    (d : nat) (a : list (list A)) :
  field h !! d = Some a ->
  Stateful.reads_as (Stateful.iter field d)
    (Ok (Stateful.views d (length a))) h.
Proof.
  intros Hd. unfold Stateful.reads_as, Stateful.iter.
  rewrite (run_bind _ _ h h (Ok (length a))); [reflexivity|].
  unfold Stateful.len2. now rewrite Hd.
Qed.

(** The views of the rows of an object, and its rows. *)
Lemma views_rows {A : Type} (field : Stateful.store -> Stateful.heap A)
    (d : nat) (a : list (list A)) :
  field h !! d = Some a ->
  Forall2 (fun v r => Stateful.cells (field h) v = Some r)
    (Stateful.views d (length a)) a.
Proof.
  intros Hd. apply Forall2_same_length_lookup. split.
  - unfold Stateful.views. now rewrite length_fmap, length_seq.
  - intros j v r Hv Hr. unfold Stateful.views in Hv.
    apply list_lookup_fmap_Some in Hv as (j' & -> & Hj).
    apply lookup_seq in Hj as [-> _]. unfold Stateful.cells. simpl.
    rewrite Hd. exact Hr.
Qed.

End ReadOnly.

Lemma refines_for_each {A A' B B' : Type}
    (R : A -> A' -> Stateful.store -> Prop) (rel : B' -> B -> Prop)
    (sbody : B' -> A' -> Stateful.M A') (body : B -> A -> result A)
    (l' : list B') (l : list B) :
  Forall2 rel l' l ->
  (forall x' x acc acc' h, rel x' x -> R acc acc' h ->
     Stateful.refines R (sbody x' acc') (body x acc) h) ->
  forall acc acc' h, R acc acc' h ->
    Stateful.refines R (Stateful.for_each l' acc' sbody)
      (for_each l acc body) h.
Proof.
  intros Hl Hbody.
  induction Hl as [|x' x l' l Hx Hl IH]; intros acc acc' h HR; simpl.
  - exists acc', h. auto.
  - specialize (Hbody x' x acc acc' h Hx HR). unfold Stateful.refines in *.
    destruct (body x acc) as [a|e]; simpl.
    + destruct Hbody as (a' & h' & Hrun & HR').
      rewrite (run_bind _ _ _ _ _ Hrun). now apply IH.
    + destruct (sbody x' acc' h) as [r h'] eqn:Hrun. simpl in Hbody.
      subst r. now rewrite (run_bind _ _ _ _ _ Hrun).
Qed.

Section Scan.

Variable better : Q -> Q -> bool.
Variable h : Stateful.store.
Variable d : nat.
Variable rows : matrix.
Hypothesis Hd : Stateful.floats h !! d = Some rows.

(** The view of the copy that the scan allocates. *)
Let bound_view : Stateful.view :=
  {| Stateful.obj := length (Stateful.floats h); Stateful.row := 0 |}.

Lemma cells_with_row (bound : list Q) (v : Stateful.view) (r : list Q) :
  Stateful.cells (Stateful.floats h) v = Some r ->
  Stateful.cells (Stateful.floats (Stateful.with_row h bound)) v = Some r.
Proof.
  unfold Stateful.cells. simpl. intros H.
  destruct (Stateful.floats h !! Stateful.obj v) as [a|] eqn:Ha;
    [|discriminate].
  rewrite lookup_app_l by (now apply lookup_lt_Some in Ha). now rewrite Ha.
Qed.

Lemma cells_bound (bound : list Q) :
  Stateful.cells (Stateful.floats (Stateful.with_row h bound)) bound_view
  = Some bound.
Proof.
  unfold Stateful.cells. simpl. rewrite lookup_app_r by lia.
  now rewrite Nat.sub_diag.
Qed.

Lemma write_bound (bound : list Q) (i : nat) (x m : Q) :
  bound !! i = Some m ->
  Stateful.write bound_view i x (Stateful.with_row h bound)
  = (Ok tt, Stateful.with_row h (<[i := x]> bound)).
Proof.
  intros Hi. unfold Stateful.write. rewrite cells_bound. simpl. rewrite Hi.
  f_equal. unfold Stateful.with_row. simpl. f_equal.
  rewrite <- (Nat.add_0_r (length (Stateful.floats h))) at 1.
  now rewrite alter_app_r.
Qed.

Lemma scan_loop_refines (n : nat) (bound : list Q) :
  Stateful.refines (fun bound' _ h' => h' = Stateful.with_row h bound')
    (Stateful.for_each (Stateful.views d (length rows)) tt (fun vec _ =>
       Stateful.for_each (seq 0 n) tt (fun i _ =>
         x ← Stateful.read Stateful.floats vec i;
         m ← Stateful.read Stateful.floats bound_view i;
         if better x m then Stateful.write bound_view i x else mret tt)))
    (for_each rows bound (fun vec bound =>
       for_each (seq 0 n) bound (fun i bound =>
         x ← index vec i;
         m ← index bound i;
         if better x m then Ok (<[i := x]> bound) else Ok bound)))
    (Stateful.with_row h bound).
Proof.
  apply (refines_for_each _
    (fun v r => Stateful.cells (Stateful.floats h) v = Some r));
    [now apply (views_rows h Stateful.floats) | | reflexivity].
  intros vec r acc [] h1 Hvec ->.
  apply (refines_for_each _ eq); [reflexivity | | reflexivity].
  intros i ? acc1 [] h2 <- ->. unfold Stateful.refines.
  rewrite (run_bind _ _ _ _ _
    (reads_as_read _ Stateful.floats vec r i (cells_with_row acc1 vec r Hvec))).
  destruct (index r i) as [x|e]; simpl; [|reflexivity].
  rewrite (run_bind _ _ _ _ _
    (reads_as_read _ Stateful.floats bound_view acc1 i (cells_bound acc1))).
  destruct (index acc1 i) as [m|e] eqn:Hm; simpl; [|reflexivity].
  apply index_Ok in Hm. destruct (better x m).
  - exists tt. eexists. split; [now apply (write_bound acc1 i x m)|].
    reflexivity.
  - exists tt. eexists. split; reflexivity.
Qed.

(** The scan returns a view of a new object that holds the bounds computed
    by the functional scan, and raises when the functional scan raises. *)
Lemma scan_refines :
  Stateful.refines
    (fun bound v h' => v = bound_view /\ h' = Stateful.with_row h bound)
    (Stateful.scan better (ndarray d)) (scan better (ndarray rows)) h.
Proof.
  assert (Hret : forall (f : nat -> Stateful.M Stateful.view),
    (mret d ≫= f) h = f d h) by reflexivity.
  pose proof (reads_as_getitem h Stateful.floats d 0 rows Hd) as Hget.
  unfold Stateful.refines, Stateful.scan, scan.
  simpl Stateful.expect_ndarray. simpl expect_ndarray.
  rewrite Ok_bind, Hret, (run_bind _ _ _ _ _ Hget).
  destruct (index rows 0) as [row0|e] eqn:H0; [|reflexivity].
  rewrite !Ok_bind. cbn beta iota zeta. apply index_Ok in H0.
  assert (Hc0 : Stateful.cells (Stateful.floats h)
                  {| Stateful.obj := d; Stateful.row := 0 |} = Some row0).
  { unfold Stateful.cells. simpl. rewrite Hd. exact H0. }
  rewrite (run_bind _ _ _ _ _ (reads_as_len h Stateful.floats _ row0 Hc0)).
  rewrite (run_bind _ _ _ _ _ Hget), Ok_bind. cbn beta iota.
  assert (Hcopy : Stateful.copy {| Stateful.obj := d; Stateful.row := 0 |} h
                  = (Ok bound_view, Stateful.with_row h row0)).
  { unfold Stateful.copy. now rewrite Hc0. }
  rewrite (run_bind _ _ _ _ _ Hcopy).
  assert (Hd' : Stateful.floats (Stateful.with_row h row0) !! d = Some rows).
  { simpl. rewrite lookup_app_l by (now apply lookup_lt_Some in Hd).
    exact Hd. }
  rewrite (run_bind _ _ _ _ _
    (reads_as_iter _ Stateful.floats d rows Hd')).
  pose proof (scan_loop_refines (length row0) row0) as Hloop.
  unfold Stateful.refines in Hloop.
  destruct (for_each rows row0 _) as [bound|e].
  - destruct Hloop as ([] & h' & Hrun & ->).
    rewrite (run_bind _ _ _ _ _ Hrun). exists bound_view. eexists.
    split; [reflexivity|]. auto.
  - destruct (Stateful.for_each _ _ _ _) as [r h'] eqn:Hrun.
    simpl in Hloop. subst r. now rewrite (run_bind _ _ _ _ _ Hrun).
Qed.

End Scan.

Lemma refines_bind {A A' B B' : Type}
    (R1 : A -> A' -> Stateful.store -> Prop)
    (R2 : B -> B' -> Stateful.store -> Prop)
    (m : Stateful.M A') (r : result A) (f' : A' -> Stateful.M B')
    (f : A -> result B) (h : Stateful.store) :
  Stateful.refines R1 m r h ->
  (forall a a' h', R1 a a' h' -> Stateful.refines R2 (f' a') (f a) h') ->
  Stateful.refines R2 (m ≫= f') (r ≫= f) h.
Proof.
  unfold Stateful.refines. intros Hm Hf. destruct r as [a|e]; simpl.
  - destruct Hm as (a' & h' & Hrun & HR).
    rewrite (run_bind _ _ _ _ _ Hrun). now apply Hf.
  - destruct (m h) as [r h'] eqn:Hrun. simpl in Hm. subst r.
    now rewrite (run_bind _ _ _ _ _ Hrun).
Qed.

Lemma reads_refines {A : Type} (m : Stateful.M A) (r : result A)
    (h : Stateful.store) :
  Stateful.reads_as m r h ->
  Stateful.refines (fun a a' h' => a' = a /\ h' = h) m r h.
Proof.
  unfold Stateful.reads_as, Stateful.refines. intros ->.
  destruct r; [eauto | reflexivity].
Qed.

Lemma refines_weaken {A A' : Type}
    (R R' : A -> A' -> Stateful.store -> Prop) (m : Stateful.M A')
    (r : result A) (h : Stateful.store) :
  Stateful.refines R m r h ->
  (forall a a' h', R a a' h' -> R' a a' h') ->
  Stateful.refines R' m r h.
Proof.
  unfold Stateful.refines. intros Hm HR. destruct r; [|exact Hm].
  destruct Hm as (a' & h' & Hrun & Ha). eauto.
Qed.

Lemma _get_min_refines (h : Stateful.store) (d : nat) (rows : matrix) :
  Stateful.floats h !! d = Some rows ->
  Stateful.refines
    (fun minimum v h' =>
       v = {| Stateful.obj := length (Stateful.floats h); Stateful.row := 0 |}
       /\ h' = Stateful.with_row h minimum)
    (Stateful._get_min (ndarray d)) (_get_min (ndarray rows)) h.
Proof. intros Hd. exact (scan_refines Qltb h d rows Hd). Qed.

Lemma _get_max_refines (h : Stateful.store) (d : nat) (rows : matrix) :
  Stateful.floats h !! d = Some rows ->
  Stateful.refines
    (fun maximum v h' =>
       v = {| Stateful.obj := length (Stateful.floats h); Stateful.row := 0 |}
       /\ h' = Stateful.with_row h maximum)
    (Stateful._get_max (ndarray d)) (_get_max (ndarray rows)) h.
Proof.
  intros Hd. exact (scan_refines (fun x m => Qltb m x) h d rows Hd).
Qed.

(** A step of the method on the store that only reads and has no
    counterpart in the functional method. *)
Lemma refines_read_bind {A' B B' : Type}
    (R : B -> B' -> Stateful.store -> Prop) (m : Stateful.M A') (a : A')
    (f : A' -> Stateful.M B') (r : result B) (h : Stateful.store) :
  Stateful.reads_as m (Ok a) h ->
  Stateful.refines R (f a) r h ->
  Stateful.refines R (m ≫= f) r h.
Proof.
  unfold Stateful.reads_as, Stateful.refines. intros Hm Hf.
  now rewrite (run_bind _ _ _ _ _ Hm).
Qed.

Lemma refines_read_raise {A' B B' : Type}
    (R : B -> B' -> Stateful.store -> Prop) (m : Stateful.M A') (e : exn)
    (f : A' -> Stateful.M B') (h : Stateful.store) :
  Stateful.reads_as m (Raise e) h ->
  Stateful.refines R (m ≫= f) (Raise e) h.
Proof.
  unfold Stateful.reads_as, Stateful.refines. intros Hm.
  now rewrite (run_bind _ _ _ _ _ Hm).
Qed.

(** A step that only reads and computes what a step of the functional
    method computes. *)
Lemma refines_reads_bind {A B B' : Type}
    (R : B -> B' -> Stateful.store -> Prop) (m : Stateful.M A)
    (r : result A) (f' : A -> Stateful.M B') (f : A -> result B)
    (h : Stateful.store) :
  Stateful.reads_as m r h ->
  (forall a, r = Ok a -> Stateful.refines R (f' a) (f a) h) ->
  Stateful.refines R (m ≫= f') (r ≫= f) h.
Proof.
  unfold Stateful.reads_as. intros Hm Hf. unfold Stateful.refines at 1.
  rewrite (run_bind _ _ _ _ _ Hm). destruct r as [a|e]; [|reflexivity].
  now apply Hf.
Qed.

Section Rescale.

Variable self : SparseComputation.
Variable h : Stateful.store.
Variable d : nat.
Variable rows : matrix.
Hypothesis Hd : Stateful.floats h !! d = Some rows.
Variables maxv minv : Stateful.view.
Variables maximum minimum : list Q.
Hypothesis HM : Stateful.cells (Stateful.floats h) maxv = Some maximum.
Hypothesis Hm : Stateful.cells (Stateful.floats h) minv = Some minimum.

(** After the two scans the loops of [_rescale_data] only read. *)
Lemma coef_loop_reads (n : nat) :
  Stateful.reads_as
    (Stateful.for_each (seq 0 n) [] (fun i coef =>
       Stateful.try_except
         (r ← Stateful.lift (py_float (gridResolution self));
          M ← Stateful.read Stateful.floats maxv i;
          m ← Stateful.read Stateful.floats minv i;
          let toAppend := np_div r (np_sub M m) in
          mret (coef ++ [toAppend]))
         ZeroDivisionError
         (mret (coef ++ [S754_zero false]))))
    (_rescale_coef self maximum minimum n) h.
Proof.
  unfold _rescale_coef. apply (reads_as_for_each h eq); [reflexivity|].
  intros i ? coef <-. apply reads_as_try_except; [|reflexivity].
  apply reads_as_bind; [apply reads_as_lift|]. intros r _.
  apply reads_as_bind; [now apply reads_as_read|]. intros M _.
  apply reads_as_bind; [now apply reads_as_read|]. intros m _.
  reflexivity.
Qed.

Lemma rows_loop_reads (n : nat) (coef : list spec_float) :
  Stateful.reads_as
    (Stateful.for_each (Stateful.views d (length rows)) []
       (fun vec rescaled_data =>
          rescaled_vec ← Stateful.for_each (seq 0 n) []
            (fun i rescaled_vec =>
               x ← Stateful.read Stateful.floats vec i;
               m ← Stateful.read Stateful.floats minv i;
               c ← Stateful.lift (index coef i);
               b ← Stateful.lift (py_int (np_mul (np_sub x m) c));
               mret (rescaled_vec ++ [Z.min b (gridResolution self - 1)]));
          mret (rescaled_data ++ [rescaled_vec])))
    (for_each rows [] (fun vec rescaled_data =>
       rescaled_vec ← for_each (seq 0 n) [] (fun i rescaled_vec =>
         x ← index vec i;
         m ← index minimum i;
         c ← index coef i;
         b ← py_int (np_mul (np_sub x m) c);
         Ok (rescaled_vec ++ [Z.min b (gridResolution self - 1)]));
       Ok (rescaled_data ++ [rescaled_vec])))
    h.
Proof.
  apply (reads_as_for_each h
    (fun v r => Stateful.cells (Stateful.floats h) v = Some r));
    [now apply (views_rows h Stateful.floats)|].
  intros vec r rescaled_data Hvec.
  apply reads_as_bind; [|intros; reflexivity].
  apply (reads_as_for_each h eq); [reflexivity|].
  intros i ? rescaled_vec <-.
  apply reads_as_bind; [now apply reads_as_read|]. intros x _.
  apply reads_as_bind; [now apply reads_as_read|]. intros m _.
  apply reads_as_bind; [apply reads_as_lift|]. intros c _.
  apply reads_as_bind; [apply reads_as_lift|]. intros b _. reflexivity.
Qed.

End Rescale.

(** [_rescale_data] returns a new array of integers that holds the matrix
    computed by the functional method; the only other new objects are the
    two arrays of bounds. *)
Lemma _rescale_data_refines (self : SparseComputation) (h : Stateful.store)
    (d : nat) (rows : matrix) :
  Stateful.floats h !! d = Some rows ->
  Stateful.refines
    (fun g o h' =>
       o = length (Stateful.ints h)
       /\ exists maximum minimum,
            h' = Stateful.with_grid
                   (Stateful.with_row (Stateful.with_row h maximum) minimum) g)
    (Stateful._rescale_data self (ndarray d))
    (_rescale_data self (ndarray rows)) h.
Proof.
  intros Hd.
  pose proof (reads_as_getitem h Stateful.floats d 0 rows Hd) as Hget.
  unfold Stateful._rescale_data, _rescale_data.
  simpl Stateful.expect_ndarray. simpl expect_ndarray. rewrite Ok_bind.
  apply (refines_read_bind _ _ d); [reflexivity|].
  destruct (index rows 0) as [row0|e] eqn:H0;
    [|now apply refines_read_raise].
  rewrite !Ok_bind in *. cbn beta iota zeta. apply index_Ok in H0.
  assert (Hc0 : Stateful.cells (Stateful.floats h)
                  {| Stateful.obj := d; Stateful.row := 0 |} = Some row0).
  { unfold Stateful.cells. simpl. rewrite Hd. exact H0. }
  eapply refines_read_bind; [exact Hget|].
  eapply refines_read_bind; [exact (reads_as_len h _ _ row0 Hc0)|].
  eapply refines_bind; [exact (_get_max_refines h d rows Hd)|].
  intros maximum maxv h1 [-> ->].
  assert (Hd1 : Stateful.floats (Stateful.with_row h maximum) !! d
                = Some rows).
  { simpl. rewrite lookup_app_l by (now apply lookup_lt_Some in Hd).
    exact Hd. }
  eapply refines_bind; [exact (_get_min_refines _ d rows Hd1)|].
  intros minimum minv h2 [-> ->].
  set (h1 := Stateful.with_row h maximum) in *.
  set (h2 := Stateful.with_row h1 minimum).
  assert (Hd2 : Stateful.floats h2 !! d = Some rows).
  { unfold h2. simpl.
    rewrite lookup_app_l by (now apply lookup_lt_Some in Hd1). exact Hd1. }
  assert (HM : Stateful.cells (Stateful.floats h2)
      {| Stateful.obj := length (Stateful.floats h); Stateful.row := 0 |}
      = Some maximum).
  { apply cells_with_row, cells_bound. }
  assert (Hm : Stateful.cells (Stateful.floats h2)
      {| Stateful.obj := length (Stateful.floats h1); Stateful.row := 0 |}
      = Some minimum).
  { apply cells_bound. }
  apply refines_reads_bind;
    [exact (coef_loop_reads self h2 _ _ maximum minimum HM Hm (length row0))|].
  intros coef _.
  eapply refines_read_bind;
    [exact (reads_as_iter h2 Stateful.floats d rows Hd2)|].
  apply refines_reads_bind;
    [exact (rows_loop_reads self h2 d rows Hd2 _ minimum Hm (length row0)
              coef)|].
  intros g _. eexists. eexists. split; [reflexivity|].
  split; [reflexivity|]. exists maximum, minimum. reflexivity.
Qed.

Section Boxes.

Variable self : SparseComputation.
Variable h : Stateful.store.

Lemma int_cells_lookup (d : nat) (dt : dtype) (g : grid) :
  Stateful.ints h !! d = Some (dt, g) -> Stateful.int_cells h !! d = Some g.
Proof.
  intros Hd. unfold Stateful.int_cells. now rewrite list_lookup_fmap, Hd.
Qed.

Lemma radix_loop_reads (v : Stateful.view) (r : list Z) :
  Stateful.cells (Stateful.int_cells h) v = Some r ->
  forall rest pre acc,
    r = pre ++ rest ->
    Stateful.for_each (seq (length pre) (length rest)) acc (fun i result =>
      x ← Stateful.read Stateful.int_cells v i;
      mret (result + x * gridResolution self ^ Z.of_nat i)) h
    = (Ok (radix_add self (length pre) rest acc), h).
Proof.
  intros Hv. induction rest as [|x rest IH]; intros pre acc Hr; simpl.
  - reflexivity.
  - assert (Hx : index r (length pre) = Ok x).
    { apply index_Ok. rewrite Hr, lookup_app_r by lia.
      now rewrite Nat.sub_diag. }
    pose proof (reads_as_read h Stateful.int_cells v r (length pre) Hv)
      as Hread.
    rewrite Hx in Hread.
    rewrite (run_bind _ _ _ _ _
      (reads_as_bind h _ _ _ (fun x => Ok _) Hread
         (fun a _ => reads_as_ret h _))).
    rewrite Ok_bind.
    specialize (IH (pre ++ [x]) (acc + x * gridResolution self
                                         ^ Z.of_nat (length pre))).
    rewrite length_app, Nat.add_1_r in IH. apply IH.
    now rewrite <- app_assoc.
Qed.

Lemma _index_to_boxe_id_reads (v : Stateful.view) (dt : dtype) (g : grid)
    (r : list Z) :
  Stateful.ints h !! Stateful.obj v = Some (dt, g) ->
  g !! Stateful.row v = Some r ->
  Stateful.reads_as (Stateful._index_to_boxe_id self v)
    (_index_to_boxe_id self (ndarray (dt, r))) h.
Proof.
  intros Hd Hr.
  assert (Hv : Stateful.cells (Stateful.int_cells h) v = Some r).
  { unfold Stateful.cells. rewrite (int_cells_lookup _ dt g Hd). exact Hr. }
  assert (Hdt : Stateful.dtype_of (Stateful.obj v) h = (Ok dt, h)).
  { unfold Stateful.dtype_of. now rewrite Hd. }
  unfold Stateful._index_to_boxe_id, _index_to_boxe_id.
  simpl expect_ndarray. rewrite Ok_bind. cbn beta iota.
  apply reads_as_bind; [now apply reads_as_read|]. intros x _.
  unfold Stateful.reads_as. rewrite (run_bind _ _ _ _ _ Hdt).
  destruct (negb (python_ints dt)); [reflexivity|].
  rewrite (run_bind _ _ _ _ _ (reads_as_len h Stateful.int_cells v r Hv)).
  exact (radix_loop_reads v r Hv r [] 0 eq_refl).
Qed.

Lemma _get_boxes_reads (d : nat) (dt : dtype) (g : grid) :
  Stateful.ints h !! d = Some (dt, g) ->
  Stateful.reads_as (Stateful._get_boxes self (ndarray d))
    (_get_boxes self (ndarray (dt, g))) h.
Proof.
  intros Hd0. pose proof (int_cells_lookup d dt g Hd0) as Hd.
  assert (Hret : forall (f : nat -> Stateful.M dict),
    (mret d ≫= f) h = f d h) by reflexivity.
  unfold Stateful.reads_as, Stateful._get_boxes, _get_boxes.
  simpl Stateful.expect_ndarray. simpl expect_ndarray.
  rewrite Ok_bind, Hret. cbn beta iota.
  rewrite (run_bind _ _ _ _ _
             (reads_as_getitem h Stateful.int_cells d 0 g Hd)).
  destruct (index g 0) as [row0|e] eqn:H0; [|reflexivity].
  rewrite !Ok_bind. cbn beta iota. apply index_Ok in H0.
  assert (Hc0 : Stateful.cells (Stateful.int_cells h)
                  {| Stateful.obj := d; Stateful.row := 0 |} = Some row0).
  { unfold Stateful.cells. simpl. rewrite Hd. exact H0. }
  rewrite (run_bind _ _ _ _ _
             (reads_as_len h Stateful.int_cells _ row0 Hc0)).
  cbn beta iota.
  assert (Hlen : Stateful.len2 Stateful.int_cells d h = (Ok (length g), h)).
  { unfold Stateful.len2. now rewrite Hd. }
  rewrite (run_bind _ _ _ _ _ Hlen).
  apply (reads_as_for_each h eq); [reflexivity|].
  intros i ? result <-. unfold Stateful.reads_as.
  rewrite (run_bind _ _ _ _ _
             (reads_as_getitem h Stateful.int_cells d i g Hd)).
  destruct (index g i) as [vec|e] eqn:Hi; [|reflexivity].
  rewrite !Ok_bind. cbn beta iota. apply index_Ok in Hi.
  apply reads_as_bind; [|intros; apply reads_as_lift].
  now apply (_index_to_boxe_id_reads _ dt g vec).
Qed.

(** The loops of [_get_pairs] work on the dictionary only. *)
Lemma pair_loops_read (boxes_dict : dict) (n : nat) :
  Stateful.reads_as
    (Stateful.for_each boxes_dict []
       (fun '(box_id, members) pairs =>
          Stateful.for_each (product_repeat (range (-1) 2) n) pairs
            (fun increment pairs =>
               let id_incremented := radix_add self 0 increment box_id in
               match dict_get boxes_dict id_incremented with
               | Some neighbours =>
                   Stateful.for_each (product members neighbours) pairs
                     (fun p pairs => mret (emit p pairs))
               | None => mret pairs
               end)))
    (for_each boxes_dict []
       (fun '(box_id, members) pairs =>
          for_each (product_repeat (range (-1) 2) n) pairs
            (fun increment pairs =>
               let id_incremented := radix_add self 0 increment box_id in
               match dict_get boxes_dict id_incremented with
               | Some neighbours =>
                   for_each (product members neighbours) pairs
                     (fun p pairs => Ok (emit p pairs))
               | None => Ok pairs
               end)))
    h.
Proof.
  apply (reads_as_for_each h eq); [reflexivity|].
  intros [box_id members] ? pairs <-.
  apply (reads_as_for_each h eq); [reflexivity|].
  intros increment ? acc <-. cbn zeta.
  destruct (dict_get boxes_dict _); [|reflexivity].
  apply (reads_as_for_each h eq); [reflexivity|].
  intros p ? acc' <-. reflexivity.
Qed.

End Boxes.

(** [_get_pairs] on an array of the store has the outcome of the functional
    [_get_pairs] on the rows of the array. *)
Lemma _get_pairs_refines (self : SparseComputation) (h : Stateful.store)
    (d : nat) (rows : matrix) :
  Stateful.floats h !! d = Some rows ->
  (Stateful._get_pairs self (ndarray d) h).1
  = _get_pairs self (ndarray rows).
Proof.
  intros Hd.
  assert (Href : Stateful.refines (fun pairs pairs' _ => pairs' = pairs)
    (Stateful._get_pairs self (ndarray d)) (_get_pairs self (ndarray rows)) h).
  { pose proof (reads_as_getitem h Stateful.floats d 0 rows Hd) as Hget.
    unfold Stateful._get_pairs, _get_pairs.
    simpl Stateful.expect_ndarray. simpl expect_ndarray. rewrite Ok_bind.
    apply (refines_read_bind _ _ d); [reflexivity|].
    destruct (index rows 0) as [row0|e] eqn:H0;
      [|now apply refines_read_raise].
    rewrite !Ok_bind in *. cbn beta iota zeta. apply index_Ok in H0.
    assert (Hc0 : Stateful.cells (Stateful.floats h)
                    {| Stateful.obj := d; Stateful.row := 0 |} = Some row0).
    { unfold Stateful.cells. simpl. rewrite Hd. exact H0. }
    eapply refines_read_bind; [exact Hget|].
    eapply refines_read_bind; [exact (reads_as_len h _ _ row0 Hc0)|].
    destruct (3 <? length row0)%nat; [reflexivity|].
    eapply refines_read_bind; [exact Hget|].
    eapply refines_read_bind; [exact (reads_as_len h _ _ row0 Hc0)|].
    eapply refines_bind; [exact (_rescale_data_refines self h d rows Hd)|].
    intros [dt g] o h3 (-> & maximum & minimum & ->).
    apply refines_reads_bind.
    { apply _get_boxes_reads. simpl. rewrite lookup_app_r by lia.
      now rewrite Nat.sub_diag. }
    intros boxes_dict _.
    eapply refines_weaken; [apply reads_refines, pair_loops_read|].
    now intros pairs pairs' h' [-> _]. }
  unfold Stateful.refines in Href.
  destruct (_get_pairs self (ndarray rows)) as [pairs|e]; [|exact Href].
  destruct Href as (pairs' & h' & -> & ->). reflexivity.
Qed.

End Refinement.

(** ** Failure before the first stage *)

(** A view shares the cells of its array: a write through [data[0]] changes
    [data], which is why the scans work on a copy. *)
Lemma write_through_view :
  (Stateful.write {| Stateful.obj := 0; Stateful.row := 0 |} 1 7%Q
     {| Stateful.floats := [[[1%Q; 2%Q]; [3%Q; 4%Q]]]; Stateful.ints := [] |}).2
  = {| Stateful.floats := [[[1%Q; 7%Q]; [3%Q; 4%Q]]]; Stateful.ints := [] |}.
Proof. reflexivity. Qed.

(** C7. A reduced dataset with more than three columns makes [_get_pairs],
    and hence [get_similar_indices], fail with a value error before any
    rescaling, bucketing or pair computation: the result is the value error
    whatever the later stages would do on the dataset, and on the store no
    array has been allocated when the call raises (rescaling allocates the
    arrays of bounds and the rescaled matrix). *)
Theorem too_many_columns (self : SparseComputation) (row0 : list Q)
    (rest : matrix) :
  (3 < length row0)%nat ->
  _get_pairs self (ndarray (row0 :: rest)) = Raise ValueError
  /\ (forall raw,
        fit_transform (dimReducer self) (ndarray raw)
        = Ok (ndarray (row0 :: rest)) ->
        get_similar_indices self (ndarray raw) = Raise ValueError)
  /\ forall h d,
       Stateful.floats h !! d = Some (row0 :: rest) ->
       Stateful._get_pairs self (ndarray d) h = (Raise ValueError, h).
Proof.
  intros Hk.
  assert (H : _get_pairs self (ndarray (row0 :: rest)) = Raise ValueError).
  { unfold _get_pairs. simpl expect_ndarray. run.
    assert (H0 : index (row0 :: rest) 0 = Ok row0) by reflexivity.
    rewrite H0. run. apply Nat.ltb_lt in Hk. now rewrite Hk. }
  split; [exact H|]. split.
  - intros raw Hfit.
    unfold get_similar_indices. simpl expect_ndarray. run.
    rewrite Hfit. run. exact H.
  - intros h d Hd.
    assert (Hret : forall (f : nat -> Stateful.M (list (nat * nat))),
      (mret d ≫= f) h = f d h) by reflexivity.
    assert (Hc0 : Stateful.cells (Stateful.floats h)
                    {| Stateful.obj := d; Stateful.row := 0 |} = Some row0).
    { unfold Stateful.cells. simpl. now rewrite Hd. }
    unfold Stateful._get_pairs. simpl Stateful.expect_ndarray.
    rewrite Hret.
    rewrite (Refinement.run_bind _ _ _ _ _
      (Refinement.reads_as_getitem h Stateful.floats d 0 _ Hd)).
    assert (H0 : index (row0 :: rest) 0 = Ok row0) by reflexivity.
    rewrite H0, Ok_bind.
    rewrite (Refinement.run_bind _ _ _ _ _
      (Refinement.reads_as_len h Stateful.floats _ row0 Hc0)).
    apply Nat.ltb_lt in Hk. now rewrite Hk.
Qed.

Lemma too_many_columns_witness :
  _get_pairs sc4 (ndarray ([1%Q; 2%Q; 3%Q; 4%Q] :: [[5%Q]]))
  = Raise ValueError
  /\ (forall raw,
        fit_transform (dimReducer sc4) (ndarray raw)
        = Ok (ndarray ([1%Q; 2%Q; 3%Q; 4%Q] :: [[5%Q]])) ->
        get_similar_indices sc4 (ndarray raw) = Raise ValueError)
  /\ forall h d,
       Stateful.floats h !! d = Some ([1%Q; 2%Q; 3%Q; 4%Q] :: [[5%Q]]) ->
       Stateful._get_pairs sc4 (ndarray d) h = (Raise ValueError, h).
Proof.
  apply (too_many_columns sc4 [1%Q; 2%Q; 3%Q; 4%Q] [[5%Q]]). simpl. lia.
Defined.

(** * Further properties of the methods *)

(** ** The scans and the rescaling *)

(** X1. On a non-empty rectangular dataset [_get_min] and [_get_max] return
    one bound per column; every cell of a column lies between its two
    bounds, and each bound is the cell of some row on that column. *)
Theorem scan_bounds (row0 : list Q) (rest : matrix) :
  rectangular (length row0) (row0 :: rest) ->
  exists minimum maximum,
    _get_min (ndarray (row0 :: rest)) = Ok minimum
    /\ _get_max (ndarray (row0 :: rest)) = Ok maximum
    /\ length minimum = length row0
    /\ length maximum = length row0
    /\ forall i m M,
         minimum !! i = Some m -> maximum !! i = Some M ->
         (forall vec x, vec ∈ row0 :: rest -> vec !! i = Some x ->
            (m <= x)%Q /\ (x <= M)%Q)
         /\ (exists vec, vec ∈ row0 :: rest /\ vec !! i = Some m)
         /\ (exists vec, vec ∈ row0 :: rest /\ vec !! i = Some M).
Proof.
  intros Hrect.
  destruct (_get_min_spec row0 rest Hrect) as (minimum & Hm & Hlm & Hsm).
  destruct (_get_max_spec row0 rest Hrect) as (maximum & HM & HlM & HsM).
  exists minimum, maximum. split; [exact Hm|]. split; [exact HM|].
  split; [exact Hlm|]. split; [exact HlM|]. intros i m M Hmi HMi.
  destruct (Hsm i m Hmi) as [Hatm Hlem].
  destruct (HsM i M HMi) as [HatM HleM].
  split; [|split; assumption].
  intros vec x Hvec Hx. split; [now apply (Hlem vec) | now apply (HleM vec)].
Qed.

Lemma scan_bounds_witness :
  exists minimum maximum,
    _get_min (ndarray ([3%Q; 1%Q] :: [[0%Q; 5%Q]; [2%Q; 2%Q]])) = Ok minimum
    /\ _get_max (ndarray ([3%Q; 1%Q] :: [[0%Q; 5%Q]; [2%Q; 2%Q]]))
       = Ok maximum
    /\ length minimum = length [3%Q; 1%Q]
    /\ length maximum = length [3%Q; 1%Q]
    /\ forall i m M,
         minimum !! i = Some m -> maximum !! i = Some M ->
         (forall vec x,
            vec ∈ [3%Q; 1%Q] :: [[0%Q; 5%Q]; [2%Q; 2%Q]] ->
            vec !! i = Some x -> (m <= x)%Q /\ (x <= M)%Q)
         /\ (exists vec,
               vec ∈ [3%Q; 1%Q] :: [[0%Q; 5%Q]; [2%Q; 2%Q]]
               /\ vec !! i = Some m)
         /\ (exists vec,
               vec ∈ [3%Q; 1%Q] :: [[0%Q; 5%Q]; [2%Q; 2%Q]]
               /\ vec !! i = Some M).
Proof.
  apply (scan_bounds [3%Q; 1%Q] [[0%Q; 5%Q]; [2%Q; 2%Q]]).
  repeat constructor.
Defined.



(** ** Box ids and boxes *)

Section BoxIds.

Variable self : SparseComputation.
Let r : Z := gridResolution self.

Lemma radix_add_succ (i : nat) (v : list Z) (acc : Z) :
  radix_add self (S i) v acc = acc + r * radix_add self i v 0.
Proof.
  revert i acc. induction v as [|x v IH]; intros i acc; simpl; [lia|].
  rewrite (IH (S i)), (radix_add_shift self (S i) v 0).
  rewrite Nat2Z.inj_succ, Z.pow_succ_r by lia. unfold r. lia.
Qed.

Lemma box_id_cons (x : Z) (v : list Z) :
  box_id self (x :: v) = x + r * box_id self v.
Proof.
  unfold box_id. simpl. rewrite radix_add_succ. unfold r. lia.
Qed.

Lemma box_id_range (v : list Z) :
  1 <= r -> in_grid r v -> 0 <= box_id self v < r ^ Z.of_nat (length v).
Proof.
  intros Hr. induction v as [|x v IH]; intros Hv.
  - unfold box_id. simpl. lia.
  - apply Forall_cons in Hv as [Hx Hv]. specialize (IH Hv).
    rewrite box_id_cons. cbn [length].
    rewrite Nat2Z.inj_succ, Z.pow_succ_r by lia. nia.
Qed.

Lemma box_id_inj (ra rb : list Z) :
  1 <= r -> length ra = length rb -> in_grid r ra -> in_grid r rb ->
  box_id self ra = box_id self rb -> ra = rb.
Proof.
  intros Hr. revert rb.
  induction ra as [|x ra IH]; intros [|y rb] Hl Ha Hb Heq;
    try discriminate; [reflexivity|].
  apply Forall_cons in Ha as [Hx Ha]. apply Forall_cons in Hb as [Hy Hb].
  rewrite !box_id_cons in Heq.
  assert (Hrest : box_id self ra = box_id self rb).
  { destruct (Z.lt_total (box_id self ra) (box_id self rb)) as [H|[H|H]];
      [nia | exact H | nia]. }
  assert (x = y) by nia. subst y.
  f_equal. apply IH; auto.
Qed.

End BoxIds.

(** X4. The box id is a mixed-radix code: for a constructed sparsifier the
    id of a row of bins lies between 0 and resolution^k - 1, and two rows of
    bins of the same length with the same id are the same row. *)
Theorem box_id_injective_bounded (d : DimReducer) (g : Z)
    (self : SparseComputation) (dta dtb : dtype) (ra rb : list Z)
    (ia ib : Z) :
  __init__ d g = Ok self ->
  in_grid (gridResolution self) ra -> in_grid (gridResolution self) rb ->
  length ra = length rb ->
  _index_to_boxe_id self (ndarray (dta, ra)) = Ok ia ->
  _index_to_boxe_id self (ndarray (dtb, rb)) = Ok ib ->
  0 <= ia < gridResolution self ^ Z.of_nat (length ra)
  /\ (ia = ib -> ra = rb).
Proof.
  intros Hinit Ha Hb Hl Hia Hib. apply __init___valid in Hinit.
  apply _index_to_boxe_id_Ok in Hia as (_ & _ & ->).
  apply _index_to_boxe_id_Ok in Hib as (_ & _ & ->). split.
  - now apply box_id_range.
  - now apply box_id_inj.
Qed.

Lemma box_id_injective_bounded_witness :
  0 <= 14 < gridResolution sc4 ^ Z.of_nat (length [2; 3])
  /\ (14 = 7 -> [2; 3] = [3; 1]).
Proof.
  apply (box_id_injective_bounded {| fit_transform := Ok |} 4 sc4
           object object [2; 3] [3; 1] 14 7); try reflexivity.
  - repeat (constructor; [simpl; lia|]). constructor.
  - repeat (constructor; [simpl; lia|]). constructor.
Defined.

Lemma filter_seq_sorted (f : nat -> bool) (a n : nat) :
  StronglySorted lt (List.filter f (seq a n)).
Proof.
  revert a. induction n as [|n IH]; intros a; simpl; [constructor|].
  destruct (f a); [|apply IH]. constructor; [apply IH|].
  apply Forall_forall. intros x Hx. apply list_elem_of_In, filter_In in Hx.
  destruct Hx as [Hx _]. apply in_seq in Hx. lia.
Qed.

(** X5. [_get_boxes] partitions the rows of an object array: on an object
    array of Python integers with at least one row and one column it returns
    a dictionary with distinct keys in which no box is empty, every box
    lists, in increasing order, exactly the rows whose id is its key, and
    every row is in the box of its id.  On an array of any other dtype with
    a row and a column it raises a type error. *)
Theorem boxes_partition (self : SparseComputation) (g : grid) :
  g <> [] -> Forall (fun row => row <> []) g ->
  (exists boxes,
     _get_boxes self (ndarray (object, g)) = Ok boxes
     /\ NoDup boxes.*1
     /\ (forall k v, (k, v) ∈ boxes ->
           v <> [] /\ StronglySorted lt v
           /\ forall i, i ∈ v
                <-> exists row,
                      g !! i = Some row
                      /\ _index_to_boxe_id self (ndarray (object, row))
                         = Ok k)
     /\ (forall i row, g !! i = Some row ->
           exists k v,
             _index_to_boxe_id self (ndarray (object, row)) = Ok k
             /\ (k, v) ∈ boxes /\ i ∈ v))
  /\ forall dt, dt <> object ->
       _get_boxes self (ndarray (dt, g)) = Raise TypeError.
Proof.
  intros Hne Hrows. split.
  - assert (Hid : forall i row, g !! i = Some row ->
      _index_to_boxe_id self (ndarray (object, row))
      = Ok (box_id self row)).
    { intros i row Hi. apply _index_to_boxe_id_nonempty.
      rewrite Forall_forall in Hrows. apply Hrows.
      apply list_elem_of_lookup. eauto. }
    destruct (_get_boxes_run self g Hne Hrows) as [boxes Hrun].
    exists boxes. split; [exact Hrun|].
    apply _get_boxes_Ok in Hrun as (_ & _ & _ & Hnd & Hget).
    split; [exact Hnd|]. split.
    + intros k v Hkv. apply elem_dict_get in Hkv; [|exact Hnd].
      rewrite Hget in Hkv. pose proof Hkv as Hv. unfold bucket in Hv.
      assert (Hfil : v = List.filter (has_id self g k) (seq 0 (length g))).
      { destruct (List.filter _ _); [discriminate | now injection Hv as <-]. }
      split; [|split].
      * intros ->. rewrite <- Hfil in Hv. discriminate.
      * rewrite Hfil. apply filter_seq_sorted.
      * intros i. rewrite (bucket_elem self g _ k v i Hkv), has_id_spec.
        split.
        -- intros (_ & row & Hi & <-). eauto.
        -- intros (row & Hi & Hk). split.
           ++ apply elem_of_seq. apply lookup_lt_Some in Hi. lia.
           ++ exists row. split; [exact Hi|].
              rewrite (Hid i row Hi) in Hk. now injection Hk as <-.
    + intros i row Hi.
      destruct (bucket_has self g (seq 0 (length g)) (box_id self row) i)
        as (v & Hv & Hiv).
      * apply elem_of_seq. apply lookup_lt_Some in Hi. lia.
      * apply has_id_spec. eauto.
      * exists (box_id self row), v. split; [eauto|].
        split; [|exact Hiv]. apply dict_get_elem. now rewrite Hget.
  - intros dt Hdt. destruct g as [|row0 g']; [congruence|].
    apply Forall_cons in Hrows as [Hrow0 _].
    unfold _get_boxes. simpl expect_ndarray. rewrite Ok_bind. cbn beta iota.
    change (index (row0 :: g') 0) with (Ok row0). rewrite Ok_bind.
    change (seq 0 (length (row0 :: g')))
      with (0%nat :: seq 1 (length g')).
    cbn [for_each].
    change (index (row0 :: g') 0) with (Ok row0). rewrite Ok_bind.
    now rewrite (_index_to_boxe_id_numpy self dt row0 Hdt Hrow0).
Qed.

Lemma boxes_partition_witness :
  (exists boxes,
     _get_boxes sc4 (ndarray (object, [[0]; [0]; [0]; [1]; [3]])) = Ok boxes
     /\ NoDup boxes.*1
     /\ (forall k v, (k, v) ∈ boxes ->
           v <> [] /\ StronglySorted lt v
           /\ forall i, i ∈ v
                <-> exists row,
                      [[0]; [0]; [0]; [1]; [3]] !! i = Some row
                      /\ _index_to_boxe_id sc4 (ndarray (object, row))
                         = Ok k)
     /\ (forall i row, [[0]; [0]; [0]; [1]; [3]] !! i = Some row ->
           exists k v,
             _index_to_boxe_id sc4 (ndarray (object, row)) = Ok k
             /\ (k, v) ∈ boxes /\ i ∈ v))
  /\ forall dt, dt <> object ->
       _get_boxes sc4 (ndarray (dt, [[0]; [0]; [0]; [1]; [3]]))
       = Raise TypeError.
Proof.
  apply (boxes_partition sc4 [[0]; [0]; [0]; [1]; [3]]).
  - discriminate.
  - repeat (constructor; [discriminate|]). constructor.
Defined.

(** ** The list of pairs *)

Lemma np_array_length (g : grid) : length (np_array g).2 = length g.
Proof.
  unfold np_array. destruct (np_dtype g); simpl; try reflexivity.
  apply length_map.
Qed.

(** When [_rescale_data] returns, its result has one row per row of the
    dataset. *)
Lemma _rescale_data_length (self : SparseComputation) (rows : matrix)
    (dt : dtype) (g : grid) :
  _rescale_data self (ndarray rows) = Ok (dt, g) -> length g = length rows.
Proof.
  unfold _rescale_data. simpl expect_ndarray. rewrite Ok_bind. intros H.
  apply bind_Ok in H as (row0 & _ & H). cbn zeta in H.
  apply bind_Ok in H as (maximum & _ & H).
  apply bind_Ok in H as (minimum & _ & H).
  apply bind_Ok in H as (coef & _ & H).
  apply bind_Ok in H as (rescaled & H & Hout).
  assert (Hlen : length rescaled = length rows).
  { apply (for_each_inv_invariant (fun pre acc => length acc = length pre)
             _ _ _ _ H); [reflexivity|].
    intros pre vec post a a' _ Hlen Hbody.
    apply bind_Ok in Hbody as (rescaled_vec & _ & Hbody).
    injection Hbody as <-. rewrite !length_app, Hlen. reflexivity. }
  injection Hout as Hout. rewrite <- Hlen, <- (np_array_length rescaled).
  now rewrite Hout.
Qed.

(** X6. The list returned by [_get_pairs] is exactly this: (a, b) is in it
    if and only if a < b, both are rows of the rescaled matrix, and some
    offset vector of -1, 0, +1 added through the mixed-radix arithmetic to
    the box id of row a gives the box id of row b. *)
Theorem pairs_exact (self : SparseComputation) (rows : matrix)
    (pairs : list (nat * nat)) :
  _get_pairs self (ndarray rows) = Ok pairs ->
  exists row0 dt rescaled,
    rows !! 0%nat = Some row0
    /\ _rescale_data self (ndarray rows) = Ok (dt, rescaled)
    /\ forall a b,
         (a, b) ∈ pairs
         <-> (a < b)%nat
             /\ exists ra rb ia ib offset,
                  rescaled !! a = Some ra /\ rescaled !! b = Some rb
                  /\ _index_to_boxe_id self (ndarray (dt, ra)) = Ok ia
                  /\ _index_to_boxe_id self (ndarray (dt, rb)) = Ok ib
                  /\ offset ∈ product_repeat (range (-1) 2) (length row0)
                  /\ radix_add self 0 offset ia = ib.
Proof.
  intros H.
  destruct (_get_pairs_spec self rows pairs H)
    as (row0 & g & H0 & Hg & _ & Hspec).
  apply _get_pairs_Ok in H as (row0' & g' & boxes & _ & _ & Hg' & Hboxes & _).
  rewrite Hg in Hg'. injection Hg' as <-.
  apply _get_boxes_Ok in Hboxes as (_ & _ & Hrows & _).
  assert (Hid : forall i row, g !! i = Some row ->
    _index_to_boxe_id self (ndarray (object, row)) = Ok (box_id self row)).
  { intros i row Hi. apply _index_to_boxe_id_nonempty.
    rewrite Forall_forall in Hrows. apply Hrows.
    apply list_elem_of_lookup. eauto. }
  exists row0, object, g. split; [exact H0|]. split; [exact Hg|].
  intros a b. rewrite Hspec. split.
  - intros (Hab & ra & rb & offset & Hra & Hrb & Hoff & Heq).
    split; [exact Hab|].
    exists ra, rb, (box_id self ra), (box_id self rb), offset.
    repeat (split; eauto).
  - intros (Hab & ra & rb & ia & ib & offset & Hra & Hrb & Hia & Hib
            & Hoff & Heq).
    split; [exact Hab|]. exists ra, rb, offset.
    apply _index_to_boxe_id_Ok in Hia as (_ & _ & ->).
    apply _index_to_boxe_id_Ok in Hib as (_ & _ & ->). auto.
Qed.

Lemma pairs_exact_witness :
  exists row0 dt rescaled,
    wide_rows !! 0%nat = Some row0
    /\ _rescale_data sc_wide (ndarray wide_rows) = Ok (dt, rescaled)
    /\ forall a b,
         (a, b) ∈ [(0, 1); (1, 2)]%nat
         <-> (a < b)%nat
             /\ exists ra rb ia ib offset,
                  rescaled !! a = Some ra /\ rescaled !! b = Some rb
                  /\ _index_to_boxe_id sc_wide (ndarray (dt, ra)) = Ok ia
                  /\ _index_to_boxe_id sc_wide (ndarray (dt, rb)) = Ok ib
                  /\ offset ∈ product_repeat (range (-1) 2) (length row0)
                  /\ radix_add sc_wide 0 offset ia = ib.
Proof.
  apply (pairs_exact sc_wide wide_rows). vm_compute. reflexivity.
Defined.

Lemma elem_of_all_pairs (n a b : nat) :
  (a, b) ∈ all_pairs n <-> (a < b < n)%nat.
Proof.
  unfold all_pairs. rewrite list_elem_of_In, in_flat_map. split.
  - intros (b' & Hb' & Hin). apply in_map_iff in Hin as (a' & Heq & Ha').
    injection Heq as -> ->. apply in_seq in Hb', Ha'. lia.
  - intros [Hab Hbn]. exists b. split; [apply in_seq; lia|].
    apply in_map_iff. exists a. split; [reflexivity | apply in_seq; lia].
Qed.

Lemma all_pairs_length (n : nat) :
  (2 * length (all_pairs n) = n * (n - 1))%nat.
Proof.
  unfold all_pairs. induction n as [|n IH]; [reflexivity|].
  rewrite seq_S, flat_map_app, length_app. simpl.
  rewrite app_nil_r, length_map, length_seq. nia.
Qed.

(** X7. Every pair returned by [_get_pairs] names two rows of the dataset,
    the smaller index first, and the list is never longer than the
    n(n-1)/2 comparisons of an exhaustive pairwise scan of the n rows. *)
Theorem pairs_in_range_bounded (self : SparseComputation) (rows : matrix)
    (pairs : list (nat * nat)) :
  _get_pairs self (ndarray rows) = Ok pairs ->
  (forall a b, (a, b) ∈ pairs -> (a < b < length rows)%nat)
  /\ (2 * length pairs <= length rows * (length rows - 1))%nat.
Proof.
  intros H.
  destruct (_get_pairs_spec self rows pairs H)
    as (row0 & g & _ & Hg & Hnd & Hspec).
  apply _rescale_data_length in Hg.
  assert (Hrange : forall a b, (a, b) ∈ pairs -> (a < b < length rows)%nat).
  { intros a b Hab. apply Hspec in Hab as (Hlt & ra & rb & _ & _ & Hrb & _).
    apply lookup_lt_Some in Hrb. lia. }
  split; [exact Hrange|].
  rewrite <- all_pairs_length. apply Nat.mul_le_mono_l.
  apply submseteq_length, NoDup_submseteq; [exact Hnd|].
  intros [a b] Hab. apply elem_of_all_pairs. now apply Hrange.
Qed.

Lemma pairs_in_range_bounded_witness :
  (forall a b,
     (a, b) ∈ [(0, 1); (1, 2)]%nat -> (a < b < length wide_rows)%nat)
  /\ (2 * length [(0, 1); (1, 2)]%nat
      <= length wide_rows * (length wide_rows - 1))%nat.
Proof.
  apply (pairs_in_range_bounded sc_wide wide_rows). vm_compute. reflexivity.
Defined.

(** The rows of an object array that [_rescale_data] returns have one bin
    per axis. *)
Lemma rescale_object_shape (self : SparseComputation) (row0 : list Q)
    (rest : matrix) (g : grid) :
  rectangular (length row0) (row0 :: rest) ->
  _rescale_data self (ndarray (row0 :: rest)) = Ok (object, g) ->
  length g = length (row0 :: rest)
  /\ Forall (fun row => length row = length row0) g.
Proof.
  intros Hrect H.
  apply (rescale_cell self row0 rest Hrect) in H
    as (maximum & minimum & coef & bins & _ & _ & _ & _ & _ & Hout
        & Hlen & Hshape & _).
  symmetry in Hout. apply np_array_object in Hout as [-> _]. auto.
Qed.

(** X20. The list that [_get_pairs] returns is closed under neighbourhood:
    when the call returns a list on a non-empty rectangular dataset, the
    rescaled matrix is an object array, and every two distinct rows whose
    bins differ by at most 1 on every axis, the rows of one box included,
    are paired in the list, the smaller index first. *)
Theorem returned_pairs_closed (self : SparseComputation) (row0 : list Q)
    (rest : matrix) (pairs : list (nat * nat)) :
  rectangular (length row0) (row0 :: rest) ->
  _get_pairs self (ndarray (row0 :: rest)) = Ok pairs ->
  exists g,
    _rescale_data self (ndarray (row0 :: rest)) = Ok (object, g)
    /\ forall a b ra rb,
         a <> b -> g !! a = Some ra -> g !! b = Some rb -> adjacent ra rb ->
         (Nat.min a b, Nat.max a b) ∈ pairs.
Proof.
  intros Hrect Hpairs.
  destruct (_get_pairs_spec self _ pairs Hpairs)
    as (row0' & g & H0 & Hg & _ & Hspec).
  injection H0 as <-. exists g. split; [exact Hg|].
  destruct (rescale_object_shape self row0 rest g Hrect Hg) as [_ Hshape].
  assert (Hlen : forall i row, g !! i = Some row -> length row = length row0).
  { intros i row Hi. rewrite Forall_forall in Hshape. apply Hshape.
    apply list_elem_of_lookup. eauto. }
  assert (Hlt : forall a b ra rb, (a < b)%nat ->
    g !! a = Some ra -> g !! b = Some rb -> adjacent ra rb -> (a, b) ∈ pairs).
  { intros a b ra rb Hab Hra Hrb Hadj. apply Hspec. split; [exact Hab|].
    exists ra, rb, (zip_with Z.sub rb ra). split; [exact Hra|].
    split; [exact Hrb|]. split.
    - apply adjacent_increment; eauto.
    - apply radix_add_difference.
      rewrite (Hlen a ra Hra), (Hlen b rb Hrb). reflexivity. }
  intros a b ra rb Hne Hra Hrb Hadj.
  destruct (Nat.lt_total a b) as [Hab|[Hab|Hab]]; [|congruence|].
  - rewrite Nat.min_l, Nat.max_r by lia. now apply (Hlt a b ra rb).
  - rewrite Nat.min_r, Nat.max_l by lia. apply (Hlt b a rb ra); auto.
    intros i x y Hx Hy. specialize (Hadj i y x Hy Hx). lia.
Qed.

Lemma returned_pairs_closed_witness :
  exists g,
    _rescale_data sc_wide
      (ndarray ([0%Q] :: [[1%Q]; [2%Q]; [inject_Z (2 ^ 70)]]))
    = Ok (object, g)
    /\ forall a b ra rb,
         a <> b -> g !! a = Some ra -> g !! b = Some rb -> adjacent ra rb ->
         (Nat.min a b, Nat.max a b) ∈ [(0, 1); (1, 2)]%nat.
Proof.
  apply (returned_pairs_closed sc_wide [0%Q]
           [[1%Q]; [2%Q]; [inject_Z (2 ^ 70)]]).
  - repeat constructor.
  - vm_compute. reflexivity.
Defined.

(** X21. When [_get_pairs] returns a list: on a non-empty rectangular
    dataset with one, two or three columns the call returns a list if and
    only if [_rescale_data] returns an object array, that is an array whose
    cells are Python integers. *)
Theorem pairs_returned_iff_object (self : SparseComputation)
    (row0 : list Q) (rest : matrix) :
  rectangular (length row0) (row0 :: rest) ->
  (1 <= length row0 <= 3)%nat ->
  (exists pairs, _get_pairs self (ndarray (row0 :: rest)) = Ok pairs)
  <-> exists g, _rescale_data self (ndarray (row0 :: rest)) = Ok (object, g).
Proof.
  intros Hrect Hk. split.
  - intros [pairs H].
    apply _get_pairs_Ok in H as (_ & g & _ & _ & _ & Hg & _). eauto.
  - intros [g Hg].
    destruct (rescale_object_shape self row0 rest g Hrect Hg)
      as [Hlen Hshape].
    destruct (_get_boxes_run self g) as [boxes Hboxes].
    + intros ->. discriminate Hlen.
    + eapply Forall_impl; [exact Hshape|]. simpl. intros row Hrow ->.
      simpl in Hrow. lia.
    + eexists.
      apply (_get_pairs_run self (row0 :: rest) row0 (object, g) boxes);
        [reflexivity | lia | exact Hg | exact Hboxes].
Qed.

Lemma pairs_returned_iff_object_witness :
  (exists pairs,
     _get_pairs sc_wide
       (ndarray ([0%Q] :: [[1%Q]; [2%Q]; [inject_Z (2 ^ 70)]])) = Ok pairs)
  <-> exists g,
        _rescale_data sc_wide
          (ndarray ([0%Q] :: [[1%Q]; [2%Q]; [inject_Z (2 ^ 70)]]))
        = Ok (object, g).
Proof.
  apply (pairs_returned_iff_object sc_wide [0%Q]
           [[1%Q]; [2%Q]; [inject_Z (2 ^ 70)]]).
  - repeat constructor.
  - simpl. lia.
Defined.

(** ** Edge cases and the pipeline *)

Lemma _get_boxes_no_columns (self : SparseComputation) (dt : dtype)
    (g : grid) :
  _get_boxes self (ndarray (dt, [] :: g)) = Raise IndexError.
Proof. reflexivity. Qed.

(** [np.array] on rows without cells. *)
Lemma np_array_no_columns (rows : matrix) :
  np_array ((fun _ : list Q => @nil Z) <$> rows)
  = (float64, (fun _ : list Q => @nil Z) <$> rows).
Proof.
  assert (Hc : concat ((fun _ : list Q => @nil Z) <$> rows) = []).
  { induction rows as [|vec rows IH]; [reflexivity | exact IH]. }
  unfold np_array, np_dtype. rewrite Hc. f_equal.
  induction rows as [|vec rows IH]; [reflexivity|].
  rewrite fmap_cons. simpl. f_equal. apply IH.
  clear -Hc. exact Hc.
Qed.

(** X8. A dataset with rows but no columns rescales to rows without bins,
    and [_get_pairs], hence [get_similar_indices], raises an index error on
    it, whatever the resolution and the number of rows. *)
Theorem no_columns_index_error (self : SparseComputation) (row0 : list Q)
    (rest : matrix) :
  length row0 = 0%nat ->
  rectangular 0 (row0 :: rest) ->
  _rescale_data self (ndarray (row0 :: rest))
  = Ok (float64, (fun _ : list Q => @nil Z) <$> row0 :: rest)
  /\ _get_pairs self (ndarray (row0 :: rest)) = Raise IndexError
  /\ forall raw,
       fit_transform (dimReducer self) (ndarray raw)
       = Ok (ndarray (row0 :: rest)) ->
       get_similar_indices self (ndarray raw) = Raise IndexError.
Proof.
  intros Hk Hrect. rewrite <- Hk in Hrect.
  destruct (_get_max_spec row0 rest Hrect) as (maximum & HM & HsM).
  destruct (_get_min_spec row0 rest Hrect) as (minimum & Hm & Hsm).
  assert (Hres : _rescale_data self (ndarray (row0 :: rest))
                 = Ok (float64, (fun _ : list Q => @nil Z) <$> row0 :: rest)).
  { apply (_rescale_data_Ok self row0 rest).
    exists maximum, minimum, [], ((fun _ : list Q => @nil Z) <$> row0 :: rest).
    split; [exact HM|]. split; [exact Hm|].
    split; [rewrite Hk; reflexivity|]. split.
    - apply Forall2_fmap_r, Forall_Forall2_diag, Forall_forall.
      intros vec _. split; [now rewrite Hk|]. intros i b Hb. inversion Hb.
    - symmetry. apply np_array_no_columns. }
  assert (H : _get_pairs self (ndarray (row0 :: rest)) = Raise IndexError).
  { unfold _get_pairs. simpl expect_ndarray. run.
    assert (H0 : index (row0 :: rest) 0 = Ok row0) by reflexivity.
    rewrite H0. run. rewrite Hk. cbn [Nat.ltb Nat.leb]. rewrite Hres. run.
    rewrite fmap_cons, _get_boxes_no_columns. reflexivity. }
  split; [exact Hres|]. split; [exact H|]. intros raw Hfit.
  unfold get_similar_indices. simpl expect_ndarray. run.
  rewrite Hfit. run. exact H.
Qed.

Lemma no_columns_index_error_witness :
  _rescale_data sc1 (ndarray (@nil Q :: [[]; []]))
  = Ok (float64, (fun _ : list Q => @nil Z) <$> [] :: [[]; []])
  /\ _get_pairs sc1 (ndarray (@nil Q :: [[]; []])) = Raise IndexError
  /\ forall raw,
       fit_transform (dimReducer sc1) (ndarray raw)
       = Ok (ndarray (@nil Q :: [[]; []])) ->
       get_similar_indices sc1 (ndarray raw) = Raise IndexError.
Proof.
  apply (no_columns_index_error sc1 [] [[]; []]).
  - reflexivity.
  - repeat constructor.
Defined.

(** X9. [get_similar_indices] raises a type error on an argument that is
    not an array whatever the reducer does, passes on unchanged the
    exception the reducer raises, and, when the reducer keeps the number of
    rows, returns pairs (a, b) with a < b that both index rows of the raw
    dataset. *)
Theorem pipeline_errors_and_indices (self : SparseComputation) :
  get_similar_indices self other = Raise TypeError
  /\ (forall raw e,
        fit_transform (dimReducer self) (ndarray raw) = Raise e ->
        get_similar_indices self (ndarray raw) = Raise e)
  /\ (forall raw reduced pairs,
        fit_transform (dimReducer self) (ndarray raw) = Ok (ndarray reduced) ->
        length reduced = length raw ->
        get_similar_indices self (ndarray raw) = Ok pairs ->
        forall a b, (a, b) ∈ pairs -> (a < b < length raw)%nat).
Proof.
  split; [reflexivity|]. split.
  - intros raw e Hfit. unfold get_similar_indices. simpl expect_ndarray.
    run. now rewrite Hfit.
  - intros raw reduced pairs Hfit Hlen H a b Hab.
    apply get_similar_indices_Ok in H as (reduced' & Hfit' & H).
    rewrite Hfit in Hfit'. injection Hfit' as <-.
    destruct (_get_pairs_spec self reduced pairs H)
      as (row0 & g & _ & Hg & _ & Hspec).
    apply _rescale_data_length in Hg.
    destruct (proj1 (Hspec a b) Hab)
      as (Hlt & ra & rb & offset & Hra & Hrb & _).
    apply lookup_lt_Some in Hrb. lia.
Qed.

Lemma pipeline_errors_and_indices_witness :
  get_similar_indices sc4 other = Raise TypeError
  /\ (forall raw e,
        fit_transform (dimReducer sc4) (ndarray raw) = Raise e ->
        get_similar_indices sc4 (ndarray raw) = Raise e)
  /\ (forall raw reduced pairs,
        fit_transform (dimReducer sc4) (ndarray raw) = Ok (ndarray reduced) ->
        length reduced = length raw ->
        get_similar_indices sc4 (ndarray raw) = Ok pairs ->
        forall a b, (a, b) ∈ pairs -> (a < b < length raw)%nat).
Proof. apply (pipeline_errors_and_indices sc4). Defined.

(** ** Arrays in memory: what is allocated *)

(** X11. [_get_min] and [_get_max] return a view of a newly allocated
    array, not of their argument: on a non-empty rectangular array of the
    store the call adds one object, after the existing ones, that holds the
    bounds the functional method computes, and the result is a view of that
    object. *)
Theorem scans_return_new_arrays (h : Stateful.store) (d : nat)
    (row0 : list Q) (rest : matrix) :
  Stateful.floats h !! d = Some (row0 :: rest) ->
  rectangular (length row0) (row0 :: rest) ->
  exists minimum maximum,
    _get_min (ndarray (row0 :: rest)) = Ok minimum
    /\ _get_max (ndarray (row0 :: rest)) = Ok maximum
    /\ Stateful._get_min (ndarray d) h
       = (Ok {| Stateful.obj := length (Stateful.floats h);
                Stateful.row := 0 |},
          Stateful.with_row h minimum)
    /\ Stateful._get_max (ndarray d) h
       = (Ok {| Stateful.obj := length (Stateful.floats h);
                Stateful.row := 0 |},
          Stateful.with_row h maximum).
Proof.
  intros Hd Hrect.
  destruct (_get_min_spec row0 rest Hrect) as (minimum & Hm & _).
  destruct (_get_max_spec row0 rest Hrect) as (maximum & HM & _).
  exists minimum, maximum. split; [exact Hm|]. split; [exact HM|].
  pose proof (Refinement._get_min_refines h d _ Hd) as Hrm.
  pose proof (Refinement._get_max_refines h d _ Hd) as HrM.
  unfold Stateful.refines in Hrm, HrM. rewrite Hm in Hrm. rewrite HM in HrM.
  destruct Hrm as (v & h' & -> & -> & ->).
  destruct HrM as (v' & h'' & -> & -> & ->). split; reflexivity.
Qed.

Lemma scans_return_new_arrays_witness :
  exists minimum maximum,
    _get_min (ndarray ([3%Q; 1%Q] :: [[0%Q; 5%Q]])) = Ok minimum
    /\ _get_max (ndarray ([3%Q; 1%Q] :: [[0%Q; 5%Q]])) = Ok maximum
    /\ Stateful._get_min (ndarray 0%nat)
         {| Stateful.floats := [[3%Q; 1%Q] :: [[0%Q; 5%Q]]];
            Stateful.ints := [] |}
       = (Ok {| Stateful.obj := 1; Stateful.row := 0 |},
          Stateful.with_row
            {| Stateful.floats := [[3%Q; 1%Q] :: [[0%Q; 5%Q]]];
               Stateful.ints := [] |} minimum)
    /\ Stateful._get_max (ndarray 0%nat)
         {| Stateful.floats := [[3%Q; 1%Q] :: [[0%Q; 5%Q]]];
            Stateful.ints := [] |}
       = (Ok {| Stateful.obj := 1; Stateful.row := 0 |},
          Stateful.with_row
            {| Stateful.floats := [[3%Q; 1%Q] :: [[0%Q; 5%Q]]];
               Stateful.ints := [] |} maximum).
Proof.
  apply (scans_return_new_arrays
           {| Stateful.floats := [[3%Q; 1%Q] :: [[0%Q; 5%Q]]];
              Stateful.ints := [] |} 0 [3%Q; 1%Q] [[0%Q; 5%Q]]).
  - reflexivity.
  - repeat constructor.
Defined.

Lemma refines_bind_value {A A' B B' : Type}
    (R1 : A -> A' -> Stateful.store -> Prop)
    (R2 : B -> B' -> Stateful.store -> Prop)
    (m : Stateful.M A') (r : result A) (f' : A' -> Stateful.M B')
    (f : A -> result B) (h : Stateful.store) :
  Stateful.refines R1 m r h ->
  (forall a a' h', r = Ok a -> R1 a a' h' ->
     Stateful.refines R2 (f' a') (f a) h') ->
  Stateful.refines R2 (m ≫= f') (r ≫= f) h.
Proof.
  unfold Stateful.refines. intros Hm Hf. destruct r as [a|e]; simpl.
  - destruct Hm as (a' & h' & Hrun & HR).
    rewrite (Refinement.run_bind _ _ _ _ _ Hrun). now apply Hf.
  - destruct (m h) as [r h'] eqn:Hrun. simpl in Hm. subst r.
    now rewrite (Refinement.run_bind _ _ _ _ _ Hrun).
Qed.

(** The store that [_rescale_data] leaves: the arrays of the bounds that
    the functional scans compute, and the result. *)
Lemma _rescale_data_store (self : SparseComputation) (h : Stateful.store)
    (d : nat) (rows : matrix) :
  Stateful.floats h !! d = Some rows ->
  Stateful.refines
    (fun g o h' =>
       o = length (Stateful.ints h)
       /\ exists maximum minimum,
            _get_max (ndarray rows) = Ok maximum
            /\ _get_min (ndarray rows) = Ok minimum
            /\ h' = Stateful.with_grid
                      (Stateful.with_row (Stateful.with_row h maximum)
                         minimum) g)
    (Stateful._rescale_data self (ndarray d))
    (_rescale_data self (ndarray rows)) h.
Proof.
  intros Hd.
  pose proof (Refinement.reads_as_getitem h Stateful.floats d 0 rows Hd)
    as Hget.
  unfold Stateful._rescale_data, _rescale_data.
  simpl Stateful.expect_ndarray. simpl expect_ndarray. rewrite Ok_bind.
  apply (Refinement.refines_read_bind _ _ d); [reflexivity|].
  destruct (index rows 0) as [row0|e] eqn:H0;
    [|now apply Refinement.refines_read_raise].
  rewrite !Ok_bind in *. cbn beta iota zeta. apply index_Ok in H0.
  assert (Hc0 : Stateful.cells (Stateful.floats h)
                  {| Stateful.obj := d; Stateful.row := 0 |} = Some row0).
  { unfold Stateful.cells. simpl. rewrite Hd. exact H0. }
  eapply Refinement.refines_read_bind; [exact Hget|].
  eapply Refinement.refines_read_bind;
    [exact (Refinement.reads_as_len h _ _ row0 Hc0)|].
  eapply refines_bind_value;
    [exact (Refinement._get_max_refines h d rows Hd)|].
  intros maximum maxv h1 HM [-> ->].
  assert (Hd1 : Stateful.floats (Stateful.with_row h maximum) !! d
                = Some rows).
  { simpl. rewrite lookup_app_l by (now apply lookup_lt_Some in Hd).
    exact Hd. }
  eapply refines_bind_value;
    [exact (Refinement._get_min_refines _ d rows Hd1)|].
  intros minimum minv h2 Hm [-> ->].
  set (h1 := Stateful.with_row h maximum) in *.
  set (h2 := Stateful.with_row h1 minimum).
  assert (Hd2 : Stateful.floats h2 !! d = Some rows).
  { unfold h2. simpl.
    rewrite lookup_app_l by (now apply lookup_lt_Some in Hd1). exact Hd1. }
  assert (HcM : Stateful.cells (Stateful.floats h2)
      {| Stateful.obj := length (Stateful.floats h); Stateful.row := 0 |}
      = Some maximum).
  { apply Refinement.cells_with_row, Refinement.cells_bound. }
  assert (Hcm : Stateful.cells (Stateful.floats h2)
      {| Stateful.obj := length (Stateful.floats h1); Stateful.row := 0 |}
      = Some minimum).
  { apply Refinement.cells_bound. }
  apply Refinement.refines_reads_bind;
    [exact (Refinement.coef_loop_reads self h2 _ _ maximum minimum HcM Hcm
              (length row0))|].
  intros coef _.
  eapply Refinement.refines_read_bind;
    [exact (Refinement.reads_as_iter h2 Stateful.floats d rows Hd2)|].
  apply Refinement.refines_reads_bind;
    [exact (Refinement.rows_loop_reads self h2 d rows Hd2 _ minimum Hcm
              (length row0) coef)|].
  intros g _. eexists. eexists. split; [reflexivity|].
  split; [reflexivity|]. exists maximum, minimum. auto.
Qed.

(** X12. When it returns, [_rescale_data] has allocated three arrays and
    nothing else: on a non-empty rectangular array of the store, if the
    functional method returns a matrix then the call leaves the store with
    the array of maxima, the array of minima and one new array of integers
    that holds that matrix with its dtype, and returns that new array; if
    the functional method raises, the call raises the same exception. *)
Theorem rescale_allocates_three (self : SparseComputation)
    (h : Stateful.store) (d : nat) (row0 : list Q) (rest : matrix) :
  Stateful.floats h !! d = Some (row0 :: rest) ->
  rectangular (length row0) (row0 :: rest) ->
  exists maximum minimum,
    _get_max (ndarray (row0 :: rest)) = Ok maximum
    /\ _get_min (ndarray (row0 :: rest)) = Ok minimum
    /\ (forall rescaled,
          _rescale_data self (ndarray (row0 :: rest)) = Ok rescaled ->
          Stateful._rescale_data self (ndarray d) h
          = (Ok (length (Stateful.ints h)),
             Stateful.with_grid
               (Stateful.with_row (Stateful.with_row h maximum) minimum)
               rescaled))
    /\ (forall e,
          _rescale_data self (ndarray (row0 :: rest)) = Raise e ->
          (Stateful._rescale_data self (ndarray d) h).1 = Raise e).
Proof.
  intros Hd Hrect.
  destruct (_get_max_spec row0 rest Hrect) as (maximum & HM & _).
  destruct (_get_min_spec row0 rest Hrect) as (minimum & Hm & _).
  exists maximum, minimum. split; [exact HM|]. split; [exact Hm|].
  pose proof (_rescale_data_store self h d _ Hd) as Href.
  unfold Stateful.refines in Href. split.
  - intros rescaled Hres. rewrite Hres in Href.
    destruct Href as (o & h' & Hrun & -> & maximum' & minimum' & HM' & Hm'
                      & ->).
    rewrite HM in HM'. injection HM' as <-.
    rewrite Hm in Hm'. injection Hm' as <-. exact Hrun.
  - intros e Hres. rewrite Hres in Href. exact Href.
Qed.

Lemma rescale_allocates_three_witness :
  exists maximum minimum,
    _get_max (ndarray ([3%Q; 1%Q] :: [[0%Q; 5%Q]])) = Ok maximum
    /\ _get_min (ndarray ([3%Q; 1%Q] :: [[0%Q; 5%Q]])) = Ok minimum
    /\ (forall rescaled,
          _rescale_data sc4 (ndarray ([3%Q; 1%Q] :: [[0%Q; 5%Q]]))
          = Ok rescaled ->
          Stateful._rescale_data sc4 (ndarray 0%nat)
            {| Stateful.floats := [[3%Q; 1%Q] :: [[0%Q; 5%Q]]];
               Stateful.ints := [] |}
          = (Ok (length (@nil (dtype * grid))),
             Stateful.with_grid
               (Stateful.with_row
                  (Stateful.with_row
                     {| Stateful.floats := [[3%Q; 1%Q] :: [[0%Q; 5%Q]]];
                        Stateful.ints := [] |} maximum) minimum)
               rescaled))
    /\ (forall e,
          _rescale_data sc4 (ndarray ([3%Q; 1%Q] :: [[0%Q; 5%Q]]))
          = Raise e ->
          (Stateful._rescale_data sc4 (ndarray 0%nat)
             {| Stateful.floats := [[3%Q; 1%Q] :: [[0%Q; 5%Q]]];
                Stateful.ints := [] |}).1 = Raise e).
Proof.
  apply (rescale_allocates_three sc4
           {| Stateful.floats := [[3%Q; 1%Q] :: [[0%Q; 5%Q]]];
              Stateful.ints := [] |} 0 [3%Q; 1%Q] [[0%Q; 5%Q]]).
  - reflexivity.
  - repeat constructor.
Defined.

(** X13. [_get_boxes] and [_index_to_boxe_id] only read: run on an array of
    integers of the store they leave the store exactly as it was, no object
    added and none changed, and their outcome (the value or the exception)
    is that of the functional method on the rows of the array. *)
Theorem boxes_only_read (self : SparseComputation) (h : Stateful.store)
    (d : nat) (dt : dtype) (g : grid) :
  Stateful.ints h !! d = Some (dt, g) ->
  Stateful._get_boxes self (ndarray d) h
  = (_get_boxes self (ndarray (dt, g)), h)
  /\ forall j row,
       g !! j = Some row ->
       Stateful._index_to_boxe_id self
         {| Stateful.obj := d; Stateful.row := j |} h
       = (_index_to_boxe_id self (ndarray (dt, row)), h).
Proof.
  intros Hd. split.
  - exact (Refinement._get_boxes_reads self h d dt g Hd).
  - intros j row Hj.
    exact (Refinement._index_to_boxe_id_reads self h
             {| Stateful.obj := d; Stateful.row := j |} dt g row Hd Hj).
Qed.

Lemma boxes_only_read_witness :
  Stateful._get_boxes sc4 (ndarray 0%nat)
    {| Stateful.floats := [];
       Stateful.ints := [(object, [[0]; [1]; [0]])] |}
  = (_get_boxes sc4 (ndarray (object, [[0]; [1]; [0]])),
     {| Stateful.floats := [];
        Stateful.ints := [(object, [[0]; [1]; [0]])] |})
  /\ forall j row,
       [[0]; [1]; [0]] !! j = Some row ->
       Stateful._index_to_boxe_id sc4
         {| Stateful.obj := 0; Stateful.row := j |}
         {| Stateful.floats := [];
            Stateful.ints := [(object, [[0]; [1]; [0]])] |}
       = (_index_to_boxe_id sc4 (ndarray (object, row)),
          {| Stateful.floats := [];
             Stateful.ints := [(object, [[0]; [1]; [0]])] |}).
Proof.
  apply (boxes_only_read sc4
           {| Stateful.floats := [];
              Stateful.ints := [(object, [[0]; [1]; [0]])] |}
           0 object [[0]; [1]; [0]]).
  reflexivity.
Defined.

(** ** The pipeline behind a reducer *)

(** [_get_pairs] reads its argument twice: the length of the first row,
    and the whole array through [_rescale_data]. *)
Lemma _get_pairs_first (self : SparseComputation) (rows : matrix)
    (row0 : list Q) :
  index rows 0 = Ok row0 ->
  _get_pairs self (ndarray rows)
  = if (3 <? length row0)%nat then Raise ValueError else
    rescaled_data ← _rescale_data self (ndarray rows);
    boxes_dict ← _get_boxes self (ndarray rescaled_data);
    for_each boxes_dict [] (fun '(box_id, members) pairs =>
      for_each (product_repeat (range (-1) 2) (length row0)) pairs
        (fun increment pairs =>
          match dict_get boxes_dict (radix_add self 0 increment box_id) with
          | Some neighbours =>
              for_each (product members neighbours) pairs (fun p pairs =>
                Ok (emit p pairs))
          | None => Ok pairs
          end)).
Proof.
  intros H. unfold _get_pairs. simpl expect_ndarray.
  rewrite Ok_bind, H, Ok_bind. reflexivity.
Qed.

(** ** The weights of [ApproximatePCA] *)

Section Weights.

Local Open Scope Q_scope.

Local Abbreviation py_sum := ApproximatePCA.py_sum.
Local Abbreviation add := ApproximatePCA.add.
Local Abbreviation square := ApproximatePCA.square.
Local Abbreviation divide := ApproximatePCA.divide.

Lemma py_sum_acc (l : list Q) (a : Q) :
  fold_left Qplus l a == a + py_sum l.
Proof.
  unfold ApproximatePCA.py_sum. revert a.
  induction l as [|x l IH]; intros a; simpl.
  - lra.
  - rewrite (IH (a + x)), (IH (0 + x)). lra.
Qed.

Lemma py_sum_cons (x : Q) (l : list Q) : py_sum (x :: l) == x + py_sum l.
Proof.
  unfold ApproximatePCA.py_sum at 1. simpl. rewrite py_sum_acc. lra.
Qed.

Lemma py_sum_nil : py_sum [] == 0.
Proof. reflexivity. Qed.

Lemma py_sum_nonneg (l : list Q) :
  Forall (fun x => 0 <= x) l -> 0 <= py_sum l.
Proof.
  induction 1 as [|x l Hx _ IH].
  - rewrite py_sum_nil. lra.
  - rewrite py_sum_cons. lra.
Qed.


Lemma py_sum_zeros (l : list Q) :
  Forall (fun x => x == 0) l -> py_sum l == 0.
Proof.
  induction 1 as [|x l Hx _ IH].
  - reflexivity.
  - rewrite py_sum_cons. lra.
Qed.

Lemma py_sum_add (a b : list Q) :
  length a = length b -> py_sum (add a b) == py_sum a + py_sum b.
Proof.
  revert b. induction a as [|x a IH]; intros [|y b] Hlen;
    try discriminate Hlen.
  - reflexivity.
  - change (add (x :: a) (y :: b)) with ((x + y) :: add a b).
    rewrite !py_sum_cons, IH by (simpl in Hlen; lia). lra.
Qed.


Lemma square_nonneg (x : Q) : 0 <= x * x.
Proof. nra. Qed.

Lemma squares_nonneg (vec : list Q) :
  Forall (fun x => 0 <= x) ((fun x => x * x) <$> vec).
Proof.
  apply Forall_fmap, Forall_forall. intros x _. apply square_nonneg.
Qed.

Lemma row_sums_nonneg (rows : matrix) :
  Forall (fun x => 0 <= x) (py_sum <$> square rows).
Proof.
  unfold ApproximatePCA.square. rewrite <- list_fmap_compose.
  apply Forall_fmap, Forall_forall. intros vec _. simpl.
  apply py_sum_nonneg, squares_nonneg.
Qed.

Lemma frobenius_nonneg (rows : matrix) : 0 <= frobenius rows.
Proof. apply py_sum_nonneg, row_sums_nonneg. Qed.


Lemma frobenius_zero (rows : matrix) :
  Forall (Forall (fun x => x == 0)) rows -> frobenius rows == 0.
Proof.
  intros H. apply py_sum_zeros.
  unfold ApproximatePCA.square. rewrite <- list_fmap_compose.
  apply Forall_fmap. eapply Forall_impl; [exact H|].
  intros vec Hvec. simpl. apply py_sum_zeros, Forall_fmap.
  eapply Forall_impl; [exact Hvec|]. intros x Hx. simpl. rewrite Hx. ring.
Qed.

(** The sum of the rows of an array, as the builtin adds them: one cell per
    column, holding the sum of the column. *)
Lemma fold_add_spec (k : nat) (rest : matrix) :
  forall vec : list Q,
  length vec = k -> rectangular k rest ->
  length (fold_left add rest vec) = k
  /\ py_sum (fold_left add rest vec) == py_sum vec + py_sum (py_sum <$> rest)
  /\ forall j s, fold_left add rest vec !! j = Some s ->
       s == default 0 (vec !! j) + py_sum (column j rest).
Proof.
  induction rest as [|r rest IH]; intros vec Hlen Hrect.
  - simpl. split; [exact Hlen|]. split.
    + rewrite py_sum_nil. lra.
    + intros j s Hs. rewrite Hs. simpl. rewrite py_sum_nil. lra.
  - apply Forall_cons in Hrect as [Hr Hrect].
    assert (Hadd : length (add vec r) = k).
    { unfold ApproximatePCA.add. rewrite length_zip_with. lia. }
    destruct (IH (add vec r) Hadd Hrect) as (IH1 & IH2 & IH3).
    simpl fold_left. split; [exact IH1|]. split.
    + rewrite IH2, fmap_cons, py_sum_cons, py_sum_add by lia. lra.
    + intros j s Hs. rewrite (IH3 j s Hs).
      unfold column at 2. rewrite fmap_cons, py_sum_cons. fold (column j rest).
      assert (Hj : (j < k)%nat).
      { apply lookup_lt_Some in Hs. lia. }
      destruct (lookup_lt_is_Some_2 vec j) as [x Hx]; [lia|].
      destruct (lookup_lt_is_Some_2 r j) as [y Hy]; [lia|].
      unfold ApproximatePCA.add.
      rewrite lookup_zip_with, Hx, Hy. simpl. lra.
Qed.

Lemma column_sums_spec (k : nat) (vec : list Q) (rest : matrix) :
  rectangular k (vec :: rest) ->
  length (fold_left add rest vec) = k
  /\ py_sum (fold_left add rest vec) == py_sum (py_sum <$> (vec :: rest))
  /\ forall j s, fold_left add rest vec !! j = Some s ->
       s == py_sum (column j (vec :: rest)).
Proof.
  intros Hrect. apply Forall_cons in Hrect as [Hvec Hrect].
  destruct (fold_add_spec k rest vec Hvec Hrect) as (H1 & H2 & H3).
  split; [exact H1|]. split.
  - rewrite H2, fmap_cons, py_sum_cons. lra.
  - intros j s Hs. rewrite (H3 j s Hs).
    unfold column at 2. rewrite fmap_cons, py_sum_cons. fold (column j rest).
    lra.
Qed.

Lemma square_rectangular (k : nat) (rows : matrix) :
  rectangular k rows -> rectangular k (square rows).
Proof.
  intros H. apply Forall_fmap. eapply Forall_impl; [exact H|].
  intros vec Hvec. simpl. now rewrite length_fmap.
Qed.



Lemma divide_zero (result : list Q) (total : Q) :
  total == 0 -> divide result total = replicate (length result) None.
Proof.
  intros Hz. unfold ApproximatePCA.divide. apply const_fmap. intros x.
  apply Qeq_bool_iff in Hz. now rewrite Hz.
Qed.


End Weights.





(** X17. On a rectangular array whose cells are all zero the two vectors of
    weights hold no number: [_get_proba_col] returns k cells that are not
    finite numbers, [_get_proba_row] returns one such cell per row.  On the
    array with no row [_get_proba_col] raises a type error. *)
Theorem proba_all_zero (k : nat) (rows : matrix) :
  rectangular k rows ->
  Forall (Forall (fun x => (x == 0)%Q)) rows ->
  ApproximatePCA._get_proba_col (ndarray rows)
  = match rows with
    | [] => Raise TypeError
    | _ => Ok (value (replicate k None))
    end
  /\ (rows <> [] ->
      ApproximatePCA._get_proba_row (ndarray rows)
      = Ok (value (replicate (length rows) None))).
Proof.
  intros Hrect Hzero. pose proof (frobenius_zero rows Hzero) as Hfrob. split.
  - destruct rows as [|row0 rest]; [reflexivity|].
    apply square_rectangular in Hrect.
    change (ApproximatePCA.square (row0 :: rest))
      with (((fun x => (x * x)%Q) <$> row0) :: ApproximatePCA.square rest)
      in Hrect.
    destruct (column_sums_spec k _ _ Hrect) as (Hlen & Hsum & _).
    unfold ApproximatePCA._get_proba_col.
    change (ApproximatePCA.sum_rows (ApproximatePCA.square (row0 :: rest)))
      with (Some (fold_left ApproximatePCA.add (ApproximatePCA.square rest)
                    ((fun x => (x * x)%Q) <$> row0))).
    cbv iota beta. rewrite divide_zero, Hlen; [reflexivity|].
    rewrite Hsum. exact Hfrob.
  - intros _. unfold ApproximatePCA._get_proba_row. cbv zeta.
    rewrite divide_zero by exact Hfrob.
    unfold ApproximatePCA.square. now rewrite !length_fmap.
Qed.

Lemma proba_all_zero_witness :
  ApproximatePCA._get_proba_col (ndarray [[0%Q; 0%Q]; [0%Q; 0%Q]])
  = Ok (value (replicate 2 None))
  /\ ([[0%Q; 0%Q]; [0%Q; 0%Q]] <> [] ->
      ApproximatePCA._get_proba_row (ndarray [[0%Q; 0%Q]; [0%Q; 0%Q]])
      = Ok (value (replicate (length [[0%Q; 0%Q]; [0%Q; 0%Q]]) None))).
Proof.
  apply (proba_all_zero 2 [[0%Q; 0%Q]; [0%Q; 0%Q]]).
  - repeat constructor.
  - repeat constructor.
Defined.

(** X18. A call [ApproximatePCA(dimLow, fracRow, fracCol, minRow, minCol)]
    returns an object holding the five arguments exactly when dimLow >= 1,
    0 < fracRow <= 1, 0 < fracCol <= 1, minRow > 0 and minCol > 0.  With any
    other arguments [__init__] returns a value error object, so the call
    itself raises a type error; it never raises a value error. *)
Theorem approximate_pca_constructor (dimLow : Z) (fracRow fracCol : Q)
    (minRow minCol : Z) :
  let valid := 1 <= dimLow /\ (0 < fracRow <= 1)%Q /\ (0 < fracCol <= 1)%Q
               /\ 0 < minRow /\ 0 < minCol in
  (valid ->
   ApproximatePCA.new dimLow fracRow fracCol minRow minCol
   = Ok (ApproximatePCA.Build_t dimLow fracRow fracCol minRow minCol))
  /\ (~ valid ->
      ApproximatePCA.__init__ dimLow fracRow fracCol minRow minCol
      = exception_object ValueError
      /\ ApproximatePCA.new dimLow fracRow fracCol minRow minCol
         = Raise TypeError).
Proof.
  intros valid. unfold valid, ApproximatePCA.new, ApproximatePCA.__init__.
  destruct (Z.ltb_spec dimLow 1) as [Hd|Hd].
  { split; [intros (? & _); lia | intros _; now split]. }
  destruct (Qle_bool fracRow 0) eqn:Er1.
  { apply Qle_bool_iff in Er1.
    split; [intros (_ & [? _] & _); lra | intros _; now split]. }
  destruct (Qltb 1 fracRow) eqn:Er2.
  { apply Qltb_true in Er2.
    split; [intros (_ & [_ ?] & _); lra | intros _; now split]. }
  apply Qltb_false in Er2.
  assert (Hr : (0 < fracRow)%Q).
  { apply Qnot_le_lt. intros H. apply Qle_bool_iff in H. congruence. }
  destruct (Qle_bool fracCol 0) eqn:Ec1.
  { apply Qle_bool_iff in Ec1.
    split; [intros (_ & _ & [? _] & _); lra | intros _; now split]. }
  destruct (Qltb 1 fracCol) eqn:Ec2.
  { apply Qltb_true in Ec2.
    split; [intros (_ & _ & [_ ?] & _); lra | intros _; now split]. }
  apply Qltb_false in Ec2.
  assert (Hc : (0 < fracCol)%Q).
  { apply Qnot_le_lt. intros H. apply Qle_bool_iff in H. congruence. }
  destruct (Z.leb_spec minRow 0) as [Hm|Hm].
  { split; [intros (_ & _ & _ & ? & _); lia | intros _; now split]. }
  destruct (Z.leb_spec minCol 0) as [Hn|Hn].
  { split; [intros (_ & _ & _ & _ & ?); lia | intros _; now split]. }
  simpl. split; [reflexivity|].
  intros Hnot. exfalso. apply Hnot. repeat split; assumption || lia.
Qed.

Lemma approximate_pca_constructor_witness :
  ApproximatePCA.new 2 (1 # 100) (1 # 100) 2 3
  = Ok (ApproximatePCA.Build_t 2 (1 # 100) (1 # 100) 2 3)
  /\ ApproximatePCA.new 0 1 1 150 150 = Raise TypeError.
Proof.
  split.
  - apply (approximate_pca_constructor 2 (1 # 100) (1 # 100) 2 3).
    repeat split; (lia || (unfold Qlt, Qle; simpl; lia)).
  - apply (approximate_pca_constructor 0 1 1 150 150).
    intros (H & _). lia.
Defined.

(** X19. With a [PCA] as its reducer, [get_similar_indices] raises an index
    error on the array with no row and a value error on an array whose first
    row has less than dimLow cells; on every other array it is [_get_pairs]
    of what the decomposition returns, and the decomposition's exception if
    it raises one.  When dimLow is more than 3 and the decomposition returns
    rows of dimLow cells, the call raises a value error. *)
Theorem pca_pipeline (sklearn_fit_transform : Z -> matrix -> result matrix)
    (dimLow gridResolution : Z) (pca : PCA.t) (self : SparseComputation) :
  PCA.__init__ dimLow = Ok pca ->
  __init__ (PCA.as_DimReducer sklearn_fit_transform pca) gridResolution
  = Ok self ->
  get_similar_indices self (ndarray []) = Raise IndexError
  /\ (forall row0 rest,
        Z.of_nat (length row0) < dimLow ->
        get_similar_indices self (ndarray (row0 :: rest)) = Raise ValueError)
  /\ (forall row0 rest,
        dimLow <= Z.of_nat (length row0) ->
        get_similar_indices self (ndarray (row0 :: rest))
        = reduced ← sklearn_fit_transform dimLow (row0 :: rest);
          _get_pairs self (ndarray reduced))
  /\ (forall row0 rest reduced0 reduced,
        dimLow <= Z.of_nat (length row0) ->
        3 < dimLow ->
        sklearn_fit_transform dimLow (row0 :: rest)
        = Ok (reduced0 :: reduced) ->
        Z.of_nat (length reduced0) = dimLow ->
        get_similar_indices self (ndarray (row0 :: rest)) = Raise ValueError).
Proof.
  intros Hpca Hself.
  unfold PCA.__init__ in Hpca.
  destruct (Z.ltb_spec dimLow 1) as [|Hd]; [discriminate|].
  injection Hpca as <-.
  unfold __init__ in Hself.
  destruct (gridResolution <? 1); [discriminate|].
  injection Hself as <-.
  assert (Hrun : forall row0 rest,
    dimLow <= Z.of_nat (length row0) ->
    get_similar_indices
      {| dimReducer := PCA.as_DimReducer sklearn_fit_transform
                         {| PCA.dimLow := dimLow |};
         gridResolution := gridResolution |} (ndarray (row0 :: rest))
    = reduced ← sklearn_fit_transform dimLow (row0 :: rest);
      _get_pairs
        {| dimReducer := PCA.as_DimReducer sklearn_fit_transform
                           {| PCA.dimLow := dimLow |};
           gridResolution := gridResolution |} (ndarray reduced)).
  { intros row0 rest Hk.
    unfold get_similar_indices, PCA.as_DimReducer, PCA.fit_transform.
    simpl.
    destruct (Z.ltb_spec (Z.of_nat (length row0)) dimLow) as [|_]; [lia|].
    destruct (sklearn_fit_transform dimLow (row0 :: rest)); reflexivity. }
  split; [reflexivity|]. split; [|split].
  - intros row0 rest Hk.
    unfold get_similar_indices, PCA.as_DimReducer, PCA.fit_transform.
    simpl.
    destruct (Z.ltb_spec (Z.of_nat (length row0)) dimLow) as [_|];
      [reflexivity | lia].
  - exact Hrun.
  - intros row0 rest reduced0 reduced Hk H3 Hsk Hlen.
    rewrite (Hrun row0 rest Hk), Hsk, Ok_bind.
    assert (H0 : index (reduced0 :: reduced) 0 = Ok reduced0) by reflexivity.
    rewrite (_get_pairs_first _ _ _ H0).
    destruct (Nat.ltb_spec 3 (length reduced0)) as [_|]; [reflexivity | lia].
Qed.

Lemma pca_pipeline_witness :
  get_similar_indices
    {| dimReducer := PCA.as_DimReducer (fun n rows => Ok (take (Z.to_nat n) <$> rows))
                       {| PCA.dimLow := 4 |};
       gridResolution := 4 |} (ndarray [])
  = Raise IndexError
  /\ get_similar_indices
       {| dimReducer := PCA.as_DimReducer
                          (fun n rows => Ok (take (Z.to_nat n) <$> rows))
                          {| PCA.dimLow := 4 |};
          gridResolution := 4 |} (ndarray [[1%Q; 2%Q]; [3%Q; 4%Q]])
     = Raise ValueError
  /\ get_similar_indices
       {| dimReducer := PCA.as_DimReducer
                          (fun n rows => Ok (take (Z.to_nat n) <$> rows))
                          {| PCA.dimLow := 4 |};
          gridResolution := 4 |}
       (ndarray [[1%Q; 2%Q; 3%Q; 4%Q; 5%Q]; [3%Q; 4%Q; 5%Q; 6%Q; 7%Q]])
     = Raise ValueError.
Proof.
  destruct (pca_pipeline (fun n rows => Ok (take (Z.to_nat n) <$> rows))
              4 4 {| PCA.dimLow := 4 |} _ eq_refl eq_refl)
    as (H1 & H2 & _ & H4).
  split; [exact H1|]. split.
  - apply H2. simpl. lia.
  - apply (H4 _ _ [1%Q; 2%Q; 3%Q; 4%Q] [[3%Q; 4%Q; 5%Q; 6%Q]]).
    + simpl. lia.
    + lia.
    + reflexivity.
    + reflexivity.
Defined.
